(** * UPI payment QR codes: the URI codec and the decode / modify / encode pipeline

    A shallow embedding of [qr_handler.py] (class [UPIQRHandler]) and of the
    codec and [/modify] route of [app.py], together with the parts of
    CPython 3.11's [urllib.parse] that both files call ([urlparse],
    [parse_qs], [quote]).

    Python values are modelled as follows.
    - [str]: a list of Unicode code points (each below 0x110000);
    - [bytes]: a list of numbers below 256;
    - [dict]: an association list with unique keys, in insertion order;
    - a call that may raise: an [outcome], either [Return v] or [Raise e];
    - [sys.stdout]: a UTF-8 text stream with the [strict] error handler, so
      that [print] raises [UnicodeEncodeError] on a lone surrogate. *)

From Stdlib Require Import List NArith Lia Bool String Ascii PeanoNat.
Import ListNotations.
Local Open Scope N_scope.

(* ================================================================= *)
(** ** Python values *)

Module Py.

Definition pystr := list N.
Definition pybytes := list N.

(** A string literal, as its list of code points. *)
Definition lit (s : string) : pystr :=
  List.map N_of_ascii (list_ascii_of_string s).

Fixpoint str_eqb (a b : pystr) : bool :=
  match a, b with
  | [], [] => true
  | x :: a', y :: b' => (x =? y) && str_eqb a' b'
  | _, _ => false
  end.

(** Exceptions that the modelled code can raise, each with the text that
    [str(e)] gives. [LibraryError] stands for whatever an image or QR
    library raises. *)
Inductive exn : Type :=
| ValueError (msg : pystr)
| UnicodeEncodeError (msg : pystr)
| AttributeError (msg : pystr)
| IndexError (msg : pystr)
| TypeError (msg : pystr)
| OSError (msg : pystr)
| LibraryError (msg : pystr).

Definition str_exn (e : exn) : pystr :=
  match e with
  | ValueError msg | UnicodeEncodeError msg | AttributeError msg
  | IndexError msg | TypeError msg | OSError msg | LibraryError msg => msg
  end.

Inductive outcome (A : Type) : Type :=
| Return (a : A)
| Raise (e : exn).
Arguments Return {A} a.
Arguments Raise {A} e.

Definition bind {A B} (m : outcome A) (k : A -> outcome B) : outcome B :=
  match m with
  | Return a => k a
  | Raise e => Raise e
  end.

(** [c in s] *)
Definition contains (c : N) (s : pystr) : bool := existsb (N.eqb c) s.

(** [s.startswith(p)] *)
Fixpoint startswith (s p : pystr) : bool :=
  match p, s with
  | [], _ => true
  | y :: p', x :: s' => (x =? y) && startswith s' p'
  | _ :: _, [] => false
  end.

(** [s.find(c)], [None] standing for [-1]. *)
Fixpoint find (c : N) (s : pystr) : option nat :=
  match s with
  | [] => None
  | x :: s' => if x =? c then Some O else option_map S (find c s')
  end.

(** [s.find(c, start)] *)
Definition find_from (c : N) (start : nat) (s : pystr) : option nat :=
  option_map (Nat.add start) (find c (skipn start s)).

(** [s.split(sep)] for a one-character separator. *)
Fixpoint split (sep : N) (s : pystr) : list pystr :=
  match s with
  | [] => [[]]
  | c :: s' =>
      if c =? sep then [] :: split sep s'
      else match split sep s' with
           | w :: ws => (c :: w) :: ws
           | [] => [[c]]
           end
  end.

(** [s.split(sep, 1)]: the text before the first separator and, when there
    is a separator, the text after it. [s.partition(sep)] is the same split. *)
Fixpoint split1 (sep : N) (s : pystr) : pystr * option pystr :=
  match s with
  | [] => ([], None)
  | c :: s' =>
      if c =? sep then ([], Some s')
      else let (a, b) := split1 sep s' in (c :: a, b)
  end.

(** [s.rpartition(sep)[2]]: the text after the last separator, the whole
    string when there is none. *)
Fixpoint rpartition_tail (sep : N) (s : pystr) : pystr :=
  match s with
  | [] => []
  | c :: s' =>
      if contains sep s' then rpartition_tail sep s'
      else if c =? sep then s' else c :: s'
  end.

(** [sep.join(parts)] *)
Fixpoint join (sep : pystr) (parts : list pystr) : pystr :=
  match parts with
  | [] => []
  | [p] => p
  | p :: ps => p ++ sep ++ join sep ps
  end.

(** [s.replace(c, "")] *)
Definition remove_char (c : N) (s : pystr) : pystr :=
  filter (fun x => negb (x =? c)) s.

(** [s.replace(c, d)] for single characters. *)
Definition replace_char (c d : N) (s : pystr) : pystr :=
  List.map (fun x => if x =? c then d else x) s.

(** [s.lstrip(chars)] *)
Fixpoint lstrip (chars : pystr) (s : pystr) : pystr :=
  match s with
  | [] => []
  | c :: s' => if contains c chars then lstrip chars s' else s
  end.

Definition isascii (c : N) : bool := c <? 128.

Definition is_upper (c : N) : bool := (65 <=? c) && (c <=? 90).
Definition is_lower (c : N) : bool := (97 <=? c) && (c <=? 122).
Definition is_digit (c : N) : bool := (48 <=? c) && (c <=? 57).

(** [s.lower()] on ASCII letters. *)
Definition lower (s : pystr) : pystr :=
  List.map (fun c => if is_upper c then c + 32 else c) s.

(** Decimal text of a natural number, as [str(n)] prints it. *)
Fixpoint digits_fuel (fuel : nat) (n : N) (acc : pystr) : pystr :=
  match fuel with
  | O => acc
  | S f =>
      let acc' := (48 + n mod 10) :: acc in
      if n <? 10 then acc' else digits_fuel f (n / 10) acc'
  end.

Definition str_of_int (n : N) : pystr :=
  digits_fuel (S (N.to_nat (N.log2 n))) n [].

(** *** Dictionaries *)

Definition dict (V : Type) := list (pystr * V).

Fixpoint dict_get {V} (d : dict V) (k : pystr) : option V :=
  match d with
  | [] => None
  | (k', v) :: d' => if str_eqb k' k then Some v else dict_get d' k
  end.

(** [d[k] = v]: an existing key keeps its position, a new key goes last. *)
Fixpoint dict_set {V} (d : dict V) (k : pystr) (v : V) : dict V :=
  match d with
  | [] => [(k, v)]
  | (k', v') :: d' =>
      if str_eqb k' k then (k', v) :: d' else (k', v') :: dict_set d' k v
  end.

(** [d.get(k, default)] *)
Definition dict_get_default {V} (d : dict V) (k : pystr) (default : V) : V :=
  match dict_get d k with
  | Some v => v
  | None => default
  end.

(** [d.update(other)] *)
Definition dict_update {V} (d other : dict V) : dict V :=
  fold_left (fun acc kv => dict_set acc (fst kv) (snd kv)) other d.

Definition keys {V} (d : dict V) : list pystr := List.map fst d.

End Py.
Import Py.

(* ================================================================= *)
(** ** UTF-8, as [str.encode('utf-8')] and [bytes.decode('utf-8', 'replace')] *)

Module Utf8.

Definition is_surrogate (c : N) : bool := (0xD800 <=? c) && (c <=? 0xDFFF).

Definition encode_char (c : N) : pybytes :=
  if c <? 0x80 then [c]
  else if c <? 0x800 then [0xC0 + c / 64; 0x80 + c mod 64]
  else if c <? 0x10000 then
    [0xE0 + c / 4096; 0x80 + (c / 64) mod 64; 0x80 + c mod 64]
  else
    [0xF0 + c / 262144; 0x80 + (c / 4096) mod 64;
     0x80 + (c / 64) mod 64; 0x80 + c mod 64].

(** Length of the run of surrogates at the head of [s]. *)
Fixpoint surrogate_run (s : pystr) : nat :=
  match s with
  | c :: s' => if is_surrogate c then S (surrogate_run s') else O
  | [] => O
  end.

Definition hexdigit_lower (n : N) : N := if n <? 10 then 48 + n else 87 + n.

(** The text of the [UnicodeEncodeError] for the surrogates at positions
    [start] to [stop - 1], the first of them being [c]. *)
Definition surrogates_not_allowed (c : N) (start stop : nat) : pystr :=
  if Nat.eqb stop (S start)
  then lit "'utf-8' codec can't encode character '\u"
         ++ [hexdigit_lower (c / 4096); hexdigit_lower ((c / 256) mod 16);
             hexdigit_lower ((c / 16) mod 16); hexdigit_lower (c mod 16)]
         ++ lit "' in position " ++ str_of_int (N.of_nat start)
         ++ lit ": surrogates not allowed"
  else lit "'utf-8' codec can't encode characters in position "
         ++ str_of_int (N.of_nat start) ++ lit "-"
         ++ str_of_int (N.of_nat (Nat.pred stop))
         ++ lit ": surrogates not allowed".

(** The strict encoder: a surrogate raises [UnicodeEncodeError] for the run
    of surrogates it starts. *)
Fixpoint encode_from (pos : nat) (s : pystr) : outcome pybytes :=
  match s with
  | [] => Return []
  | c :: s' =>
      if is_surrogate c
      then Raise (UnicodeEncodeError
                    (surrogates_not_allowed c pos (pos + surrogate_run s)))
      else bind (encode_from (S pos) s')
                (fun bs => Return (encode_char c ++ bs))
  end.

Definition encode (s : pystr) : outcome pybytes := encode_from O s.

Definition is_continuation (b : N) : bool := (0x80 <=? b) && (b <? 0xC0).

Definition replacement : N := 0xFFFD.

(** The decoder with the [replace] error handler: every error reported by
    the decoder (invalid start byte, invalid continuation byte, unexpected
    end of data) yields one U+FFFD and decoding resumes after the bytes the
    error covers. *)
Fixpoint decode_replace (bs : pybytes) : pystr :=
  match bs with
  | [] => []
  | b0 :: r0 =>
      if b0 <? 0x80 then b0 :: decode_replace r0
      else if b0 <? 0xC2 then replacement :: decode_replace r0
      else if b0 <? 0xE0 then
        match r0 with
        | [] => [replacement]
        | b1 :: r1 =>
            if is_continuation b1
            then (b0 * 64 + b1 - (0xC0 * 64 + 0x80)) :: decode_replace r1
            else replacement :: decode_replace r0
        end
      else if b0 <? 0xF0 then
        match r0 with
        | [] => [replacement]
        | b1 :: r1 =>
            if negb (is_continuation b1)
               || (if b1 <? 0xA0 then b0 =? 0xE0 else b0 =? 0xED)
            then replacement :: decode_replace r0
            else
              match r1 with
              | [] => [replacement]
              | b2 :: r2 =>
                  if is_continuation b2
                  then (b0 * 4096 + b1 * 64 + b2
                        - (0xE0 * 4096 + 0x80 * 64 + 0x80)) :: decode_replace r2
                  else replacement :: decode_replace r1
              end
        end
      else if b0 <? 0xF5 then
        match r0 with
        | [] => [replacement]
        | b1 :: r1 =>
            if negb (is_continuation b1)
               || (if b1 <? 0x90 then b0 =? 0xF0 else b0 =? 0xF4)
            then replacement :: decode_replace r0
            else
              match r1 with
              | [] => [replacement]
              | b2 :: r2 =>
                  if negb (is_continuation b2)
                  then replacement :: decode_replace r1
                  else
                    match r2 with
                    | [] => [replacement]
                    | b3 :: r3 =>
                        if is_continuation b3
                        then (b0 * 262144 + b1 * 4096 + b2 * 64 + b3
                              - (0xF0 * 262144 + 0x80 * 4096 + 0x80 * 64 + 0x80))
                               :: decode_replace r3
                        else replacement :: decode_replace r2
                    end
              end
        end
      else replacement :: decode_replace r0
  end.

End Utf8.

(* ================================================================= *)
(** ** [urllib.parse] (CPython 3.11): the functions the codec calls

    [unicodedata.normalize] and [ipaddress.ip_address], which [urlsplit]
    consults for a non-ASCII or bracketed network location, stay parameters
    of the model. *)

Module Urllib.

Record SplitResult : Type := mkSplit {
  scheme : pystr; netloc : pystr; path : pystr; query : pystr; fragment : pystr
}.

Record ParseResult : Type := mkParse {
  p_scheme : pystr; p_netloc : pystr; p_path : pystr; p_params : pystr;
  p_query : pystr; p_fragment : pystr
}.

Inductive ip_kind : Type := IPv4Address | IPv6Address.

Definition uses_params : list pystr :=
  [] :: List.map lit ["ftp"; "hdl"; "prospero"; "http"; "imap"; "https"; "shttp";
                      "rtsp"; "rtspu"; "sip"; "sips"; "mms"; "sftp"; "tel"]%string.

(** [c in scheme_chars] *)
Definition in_scheme_chars (c : N) : bool :=
  is_lower c || is_upper c || is_digit c || contains c (lit "+-.").

(** [_WHATWG_C0_CONTROL_OR_SPACE]: the code points 0 to 0x20. *)
Definition _WHATWG_C0_CONTROL_OR_SPACE : pystr :=
  List.map N.of_nat (seq 0 33).

(** [_UNSAFE_URL_BYTES_TO_REMOVE]: tab, carriage return, line feed. *)
Definition _UNSAFE_URL_BYTES_TO_REMOVE : list N := [9; 13; 10].

Definition _hexdig : pystr := lit "0123456789ABCDEFabcdef".

Definition hexval (c : N) : option N :=
  if is_digit c then Some (c - 48)
  else if (65 <=? c) && (c <=? 70) then Some (c - 55)
  else if (97 <=? c) && (c <=? 102) then Some (c - 87)
  else None.

(** [s.rfind(c)] *)
Fixpoint rfind (c : N) (s : pystr) : option nat :=
  match s with
  | [] => None
  | x :: s' =>
      match rfind c s' with
      | Some i => Some (S i)
      | None => if x =? c then Some O else None
      end
  end.

Definition _splitparams (url : pystr) : pystr * pystr :=
  let i :=
    if contains 47 url
    then find_from 59 (match rfind 47 url with Some j => j | None => O end) url
    else find 59 url in
  match i with
  | None => (url, [])
  | Some i => (firstn i url, skipn (S i) url)
  end.

Definition _splitnetloc (url : pystr) (start : nat) : pystr * pystr :=
  let delim :=
    fold_left
      (fun delim c =>
         match find_from c start url with
         | Some wdelim => Nat.min delim wdelim
         | None => delim
         end)
      (lit "/?#") (List.length url) in
  (firstn (delim - start) (skipn start url), skipn delim url).

(** The longest prefix of [s] whose characters satisfy [p], and the rest. *)
Fixpoint span (p : N -> bool) (s : pystr) : pystr * pystr :=
  match s with
  | c :: s' => if p c then let (a, b) := span p s' in (c :: a, b) else ([], s)
  | [] => ([], [])
  end.

Definition is_hexdigit (c : N) : bool :=
  match hexval c with Some _ => true | None => false end.

(** [re.match(r"\Av[a-fA-F0-9]+\..+\Z", hostname)] *)
Definition ipvfuture_match (hostname : pystr) : bool :=
  match hostname with
  | v :: rest =>
      (v =? 118) &&
      let (hex, tail) := span is_hexdigit rest in
      match hex, tail with
      | _ :: _, dot :: (_ :: _) as more =>
          (dot =? 46) && forallb (fun c => negb (c =? 10)) more
      | _, _ => false
      end
  | [] => false
  end.

Section Urlsplit.

Variable normalize_NFKC : pystr -> pystr.
Variable ip_address : pystr -> outcome ip_kind.

Definition _checknetloc (netloc : pystr) : outcome unit :=
  match netloc with
  | [] => Return tt
  | _ :: _ =>
      if forallb isascii netloc then Return tt
      else
        let n := remove_char 63 (remove_char 35 (remove_char 58
                   (remove_char 64 netloc))) in
        let netloc2 := normalize_NFKC n in
        if str_eqb n netloc2 then Return tt
        else if existsb (fun c => contains c netloc2) (lit "/?#@:")
        then Raise (ValueError (lit "netloc '" ++ netloc
                      ++ lit "' contains invalid characters under NFKC normalization"))
        else Return tt
  end.

Definition _check_bracketed_host (hostname : pystr) : outcome unit :=
  if startswith hostname (lit "v")
  then
    if ipvfuture_match hostname then Return tt
    else Raise (ValueError (lit "IPvFuture address is invalid"))
  else
    bind (ip_address hostname)
         (fun ip =>
            match ip with
            | IPv4Address =>
                Raise (ValueError (lit "An IPv4 address cannot be in brackets"))
            | IPv6Address => Return tt
            end).

Definition _check_bracketed_netloc (netloc : pystr) : outcome unit :=
  let hostname_and_port := rpartition_tail 64 netloc in
  match split1 91 hostname_and_port with
  | (before_bracket, Some bracketed) =>
      match before_bracket with
      | _ :: _ => Raise (ValueError (lit "Invalid IPv6 URL"))
      | [] =>
          let (hostname, after) := split1 93 bracketed in
          let port := match after with Some p => p | None => [] end in
          match port with
          | c :: _ =>
              if negb (c =? 58) then Raise (ValueError (lit "Invalid IPv6 URL"))
              else _check_bracketed_host hostname
          | [] => _check_bracketed_host hostname
          end
      end
  | (_, None) =>
      let (hostname, _) := split1 58 hostname_and_port in
      _check_bracketed_host hostname
  end.

(** [urlsplit(url)], with [scheme=''] and [allow_fragments=True]. *)
Definition urlsplit (url : pystr) : outcome SplitResult :=
  let url := lstrip _WHATWG_C0_CONTROL_OR_SPACE url in
  let url := fold_left (fun u b => remove_char b u) _UNSAFE_URL_BYTES_TO_REMOVE url in
  let '(scheme, url) :=
    match find 58 url, url with
    | Some (S i' as i), c0 :: _ =>
        if isascii c0 && (is_upper c0 || is_lower c0)
        then if forallb in_scheme_chars (firstn i url)
             then (lower (firstn i url), skipn (S i) url)
             else ([], url)
        else ([], url)
    | _, _ => ([], url)
    end in
  bind
    (if str_eqb (firstn 2 url) (lit "//")
     then
       let (netloc, url) := _splitnetloc url 2 in
       if (contains 91 netloc && negb (contains 93 netloc))
          || (contains 93 netloc && negb (contains 91 netloc))
       then Raise (ValueError (lit "Invalid IPv6 URL"))
       else if contains 91 netloc && contains 93 netloc
       then bind (_check_bracketed_netloc netloc) (fun _ => Return (netloc, url))
       else Return (netloc, url)
     else Return ([], url))
    (fun '(netloc, url) =>
       let (url, fragment) :=
         if contains 35 url
         then match split1 35 url with
              | (u, Some f) => (u, f)
              | (u, None) => (u, [])
              end
         else (url, []) in
       let (url, query) :=
         if contains 63 url
         then match split1 63 url with
              | (u, Some q) => (u, q)
              | (u, None) => (u, [])
              end
         else (url, []) in
       bind (_checknetloc netloc)
            (fun _ => Return (mkSplit scheme netloc url query fragment))).

(** [urlparse(url)] *)
Definition urlparse (url : pystr) : outcome ParseResult :=
  bind (urlsplit url)
       (fun r =>
          let (url, params) :=
            if existsb (str_eqb (scheme r)) uses_params && contains 59 (path r)
            then _splitparams (path r)
            else (path r, []) in
          Return (mkParse (scheme r) (netloc r) url params (query r) (fragment r))).

End Urlsplit.

(** *** Percent-decoding *)

(** One element of [string.split(b'%')] after the first: two hexadecimal
    digits become the byte they denote, anything else keeps its [%]. *)
Definition unquote_item (item : pybytes) : pybytes :=
  match item with
  | h :: l :: rest =>
      match hexval h, hexval l with
      | Some a, Some b => (16 * a + b) :: rest
      | _, _ => 37 :: item
      end
  | _ => 37 :: item
  end.

(** [unquote_to_bytes(string)], for a string of ASCII characters (which are
    their own UTF-8 encoding). *)
Definition unquote_to_bytes (string : pystr) : pybytes :=
  match string with
  | [] => []
  | _ :: _ =>
      match split 37 string with
      | [] => string
      | [_] => string
      | b0 :: bits => b0 ++ flat_map unquote_item bits
      end
  end.

(** [_asciire.split(string)]: the maximal runs of ASCII and of non-ASCII
    characters, each tagged with [true] when it is an ASCII run. *)
Fixpoint ascii_runs (s : pystr) : list (bool * pystr) :=
  match s with
  | [] => []
  | c :: s' =>
      match ascii_runs s' with
      | (b, r) :: rs =>
          if Bool.eqb b (isascii c) then (b, c :: r) :: rs
          else (isascii c, [c]) :: (b, r) :: rs
      | [] => [(isascii c, [c])]
      end
  end.

(** [unquote(string)], with [encoding='utf-8'] and [errors='replace']. *)
Definition unquote (string : pystr) : pystr :=
  if negb (contains 37 string) then string
  else
    flat_map
      (fun run : bool * pystr =>
         if fst run then Utf8.decode_replace (unquote_to_bytes (snd run))
         else snd run)
      (ascii_runs string).

(** *** Query strings *)

(** [parse_qsl(qs, keep_blank_values)], with [strict_parsing=False], the
    separator [&] and no bound on the number of fields. One field of the
    query contributes one pair or nothing. *)
Definition parse_qsl_field (keep_blank_values : bool) (name_value : pystr)
  : list (pystr * pystr) :=
  let field (n v : pystr) :=
    match v, keep_blank_values with
    | [], false => []
    | _, _ => [(unquote (replace_char 43 32 n), unquote (replace_char 43 32 v))]
    end in
  match name_value with
  | [] => []
  | _ :: _ =>
      match split1 61 name_value with
      | (n, Some v) => field n v
      | (n, None) => if keep_blank_values then field n [] else []
      end
  end.

Definition parse_qsl (qs : pystr) (keep_blank_values : bool)
  : list (pystr * pystr) :=
  let query_args := match qs with [] => [] | _ :: _ => split 38 qs end in
  flat_map (parse_qsl_field keep_blank_values) query_args.

(** One step of the loop of [parse_qs]. *)
Definition parse_qs_add (parsed_result : dict (list pystr)) (nv : pystr * pystr)
  : dict (list pystr) :=
  match dict_get parsed_result (fst nv) with
  | Some values => dict_set parsed_result (fst nv) (values ++ [snd nv])
  | None => dict_set parsed_result (fst nv) [snd nv]
  end.

(** [parse_qs(qs, keep_blank_values)]: every name with the list of its
    values, in order of appearance. *)
Definition parse_qs (qs : pystr) (keep_blank_values : bool) : dict (list pystr) :=
  fold_left parse_qs_add (parse_qsl qs keep_blank_values) [].

(** *** Percent-encoding *)

Definition _ALWAYS_SAFE (b : N) : bool :=
  is_upper b || is_lower b || is_digit b || contains b (lit "_.-~").

Definition hexdigit_upper (n : N) : N := if n <? 10 then 48 + n else 55 + n.

(** [_Quoter(safe).__missing__(b)] *)
Definition quoter (safe : pybytes) (b : N) : pystr :=
  if _ALWAYS_SAFE b || contains b safe then [b]
  else [37; hexdigit_upper (b / 16); hexdigit_upper (b mod 16)].

Definition quote_from_bytes (bs : pybytes) (safe : pystr) : pystr :=
  match bs with
  | [] => []
  | _ :: _ =>
      let safe := filter isascii safe in
      if forallb (fun b => _ALWAYS_SAFE b || contains b safe) bs then bs
      else flat_map (quoter safe) bs
  end.

(** [quote(string, safe)], with [encoding='utf-8'] and [errors='strict']. *)
Definition quote (string : pystr) (safe : pystr) : outcome pystr :=
  match string with
  | [] => Return string
  | _ :: _ => bind (Utf8.encode string) (fun bs => Return (quote_from_bytes bs safe))
  end.

End Urllib.

(* ================================================================= *)
(** ** The collaborators outside the repository

    The image and QR libraries ([cv2], [pyzbar], [qrcode], [PIL]), the Unicode
    and IP-address tables that [urlsplit] consults, and the helpers of the web
    framework are parameters of the model. A file is the list of its bytes
    and the file system a dictionary from paths to files. *)

Record Externals : Type := mkExternals {
  (** the pixel matrix that [cv2.imread] returns *)
  matrix : Type;
  (** [unicodedata.normalize('NFKC', s)] *)
  normalize_NFKC : pystr -> pystr;
  (** [ipaddress.ip_address(s)] *)
  ip_address : pystr -> outcome Urllib.ip_kind;
  (** [cv2.imread] on the bytes of a file; [None] when it is not an image *)
  cv2_imdecode : pybytes -> option matrix;
  (** [pyzbar.decode(img)]: for every symbol found, [data.decode('utf-8')] *)
  pyzbar_decode : matrix -> outcome (list (outcome pystr));
  (** [qrcode.QRCode(version=1, error_correction=ERROR_CORRECT_L, box_size,
      border)], [add_data], [make(fit=True)], [make_image]: the image file *)
  qrcode_image : pystr -> N -> N -> outcome pybytes;
  (** the exception, if any, that writing a file at a path raises *)
  write_error : pystr -> option exn;
  (** [werkzeug.utils.secure_filename] *)
  secure_filename : pystr -> pystr;
  (** [base64.b64encode(data).decode('utf-8')] *)
  b64encode : pybytes -> pystr;
  (** [url_for('download', filename=name)] *)
  url_for_download : pystr -> pystr
}.

Definition filesystem := dict pybytes.

(** [cv2.imread(path)] *)
Definition cv2_imread (X : Externals) (fs : filesystem) (path : pystr)
  : option (matrix X) :=
  match dict_get fs path with
  | Some data => cv2_imdecode X data
  | None => None
  end.

(** Writing a file. *)
Definition write_file (X : Externals) (fs : filesystem) (path : pystr)
    (data : pybytes) : outcome filesystem :=
  match write_error X path with
  | None => Return (dict_set fs path data)
  | Some e => Raise e
  end.

(** A state monad with exceptions: a raised exception keeps the state
    reached so far. *)
Module StateExn.

Definition M (S A : Type) : Type := S -> outcome A * S.

Definition ret {S A} (a : A) : M S A := fun s => (Return a, s).

Definition raise {S A} (e : exn) : M S A := fun s => (Raise e, s).

Definition bindM {S A B} (m : M S A) (k : A -> M S B) : M S B :=
  fun s =>
    match m s with
    | (Return a, s') => k a s'
    | (Raise e, s') => (Raise e, s')
    end.

(** [try: m  except Exception as e: handler e] *)
Definition try_except {S A} (m : M S A) (handler : exn -> M S A) : M S A :=
  fun s =>
    match m s with
    | (Return a, s') => (Return a, s')
    | (Raise e, s') => handler e s'
    end.

Definition lift {S A} (o : outcome A) : M S A := fun s => (o, s).

Definition get {S} : M S S := fun s => (Return s, s).

Definition modify {S} (f : S -> S) : M S unit := fun s => (Return tt, f s).

End StateExn.
Import StateExn.

Declare Scope monad_scope.
Delimit Scope monad_scope with monad.
Notation "x <- m ;; k" := (bindM m (fun x => k))
  (at level 61, m at next level, right associativity) : monad_scope.
Notation "m ;;; k" := (bindM m (fun _ => k))
  (at level 61, right associativity) : monad_scope.

(* ================================================================= *)
(** ** [qr_handler.py]: class [UPIQRHandler] *)

Module QrHandler.

(** What [print] writes: a line of text, a prefix followed by [str(e)] of an
    exception, or a prefix followed by the [repr] of a dictionary. *)
Inductive printed : Type :=
| Line (text : pystr)
| LineExn (prefix : pystr) (e : exn)
| LineDict (prefix : pystr) (d : dict pystr).

(** The handler object ([self.upi_data]), the file system and the console. *)
Record state : Type := mkState {
  upi_data : dict pystr;
  files : filesystem;
  stdout : list printed
}.

(** [UPIQRHandler()], with the files and the console as they are then. *)
Definition __init__ (fs : filesystem) (out : list printed) : state :=
  mkState [] fs out.

(** The line reaches the console. *)
Definition write_line (p : printed) : M state unit :=
  modify (fun s => mkState (upi_data s) (files s) (stdout s ++ [p])).

(** [sys.stdout.write(text)]: the text is encoded before anything is
    written, so a text that UTF-8 cannot encode raises [UnicodeEncodeError]
    and leaves the console as it was. *)
Definition write_text (p : printed) (text : pystr) : M state unit :=
  match Utf8.encode text with
  | Return _ => write_line p
  | Raise e => raise e
  end.

(** [print(...)] of an f-string. A string or [str(e)] is written as it is.
    A dictionary is written as its [repr], which escapes every code point
    that is not printable, surrogates among them, and so can always be
    encoded. *)
Definition print (p : printed) : M state unit :=
  match p with
  | Line text => write_text p text
  | LineExn prefix e => write_text p (prefix ++ str_exn e)
  | LineDict _ _ => write_line p
  end.

Definition set_upi_data (d : dict pystr) : M state unit :=
  modify (fun s => mkState d (files s) (stdout s)).

Definition set_files (fs : filesystem) : M state unit :=
  modify (fun s => mkState (upi_data s) fs (stdout s)).

(** [param_mapping] of [parse_upi_string] *)
Definition param_mapping_parse : dict pystr :=
  [ (lit "pa", lit "payee_address"); (lit "pn", lit "payee_name");
    (lit "am", lit "amount"); (lit "cu", lit "currency");
    (lit "tn", lit "transaction_note"); (lit "tr", lit "transaction_ref");
    (lit "mc", lit "merchant_code"); (lit "tid", lit "transaction_id");
    (lit "url", lit "url") ].

(** [param_mapping] of [create_upi_string] *)
Definition param_mapping_create : dict pystr :=
  [ (lit "payee_address", lit "pa"); (lit "payee_name", lit "pn");
    (lit "amount", lit "am"); (lit "currency", lit "cu");
    (lit "transaction_note", lit "tn"); (lit "transaction_ref", lit "tr");
    (lit "merchant_code", lit "mc"); (lit "transaction_id", lit "tid");
    (lit "url", lit "url") ].

(** The loop [for key, value in query_params.items(): upi_params[...] =
    value[0]]: the dictionary when the loop ends, and the exception that
    ended it early, if any. *)
Fixpoint assign_params (items : list (pystr * list pystr))
    (upi_params : dict pystr) : dict pystr * option exn :=
  match items with
  | [] => (upi_params, None)
  | (key, value) :: rest =>
      let param_name := dict_get_default param_mapping_parse key key in
      match value with
      | v0 :: _ => assign_params rest (dict_set upi_params param_name v0)
      | [] => (upi_params, Some (IndexError (lit "list index out of range")))
      end
  end.

Definition print_details (upi_params : dict pystr) : M state unit :=
  (print (Line ([10] ++ lit "=== UPI Payment Details ===")) ;;;
   fold_left
     (fun m kv => m ;;; print (Line (fst kv ++ lit ": " ++ snd kv)))
     upi_params (ret tt) ;;;
   print (Line (lit "==========================" ++ [10])))%monad.

Section Methods.

Variable X : Externals.

(** [decode_qr(self, image_path)]: the decoded text, [None] on failure. A
    [print] that raises inside the [try] is caught like any other
    exception; the [print] of the [except] branch is not. *)
Definition decode_qr (image_path : pystr) : M state (option pystr) :=
  (try_except
     (s <- get ;;
      match cv2_imread X (files s) image_path with
      | None =>
          print (Line (lit "Error: Could not read image from " ++ image_path)) ;;;
          ret None
      | Some img =>
          decoded_objects <- lift (pyzbar_decode X img) ;;
          match decoded_objects with
          | [] =>
              print (Line (lit "No QR code found in the image")) ;;;
              ret None
          | first :: _ =>
              qr_data <- lift first ;;
              print (Line (lit "Decoded QR code: " ++ qr_data)) ;;;
              ret (Some qr_data)
          end
      end)
     (fun e =>
        print (LineExn (lit "Error decoding QR code: ") e) ;;;
        ret None))%monad.

(** [parse_upi_string(self, upi_string)]. In the [try] block [urlparse],
    [value[0]] and every [print] can raise; the [except] branch prints the
    exception, outside any [try], and returns [upi_params] as it is at that
    point. The second component of the result tells whether the dictionary
    returned is the object that [self.upi_data] now refers to. *)
Definition parse_upi_string_aliased (upi_string : pystr)
  : M state (dict pystr * bool) :=
  let except (upi_params : dict pystr) (aliased : bool) (e : exn)
    : M state (dict pystr * bool) :=
    (print (LineExn (lit "Error parsing UPI string: ") e) ;;;
     ret (upi_params, aliased))%monad in
  let upi_params : dict pystr := [] in
  (if negb (startswith upi_string (lit "upi://"))
   then
     try_except
       (print (Line (lit "Not a UPI payment string")) ;;;
        ret (upi_params, false))
       (except upi_params false)
   else
     match Urllib.urlparse (normalize_NFKC X) (ip_address X) upi_string with
     | Raise e => except upi_params false e
     | Return parsed =>
         let query_params := Urllib.parse_qs (Urllib.p_query parsed) false in
         match assign_params query_params upi_params with
         | (upi_params, Some e) => except upi_params false e
         | (upi_params, None) =>
             set_upi_data upi_params ;;;
             try_except
               (print_details upi_params ;;;
                ret (upi_params, true))
               (except upi_params true)
         end
     end)%monad.

Definition parse_upi_string (upi_string : pystr) : M state (dict pystr) :=
  (r <- parse_upi_string_aliased upi_string ;; ret (fst r))%monad.

(** The loop of [create_upi_string]. *)
Fixpoint query_parts_of (upi_params : dict pystr) : outcome (list pystr) :=
  match upi_params with
  | [] => Return []
  | (key, value) :: rest =>
      let upi_key := dict_get_default param_mapping_create key key in
      bind (Urllib.quote value (lit "/"))
           (fun encoded_value =>
              bind (query_parts_of rest)
                   (fun parts => Return ((upi_key ++ lit "=" ++ encoded_value) :: parts)))
  end.

(** [create_upi_string(self, upi_params)] *)
Definition create_upi_string (upi_params : dict pystr) : M state pystr :=
  lift (bind (query_parts_of upi_params)
             (fun query_parts =>
                Return (lit "upi://pay?" ++ join (lit "&") query_parts))).

(** [encode_qr(self, data, output_path, box_size, border)]. The path is
    printed inside the [try], after the file is saved. *)
Definition encode_qr (data output_path : pystr) (box_size border : N)
  : M state bool :=
  (try_except
     (img <- lift (qrcode_image X data box_size border) ;;
      s <- get ;;
      fs <- lift (write_file X (files s) output_path img) ;;
      set_files fs ;;;
      print (Line (lit "QR code saved to: " ++ output_path)) ;;;
      ret true)
     (fun e =>
        print (LineExn (lit "Error encoding QR code: ") e) ;;;
        ret false))%monad.

(** [decode_and_encode(self, input_image, output_image, modify_params)].
    No result and the empty text both count as false in [if not
    decoded_data], an empty [modify_params] as false in [if modify_params].
    [upi_params.update] changes the dictionary in place, so [self.upi_data]
    changes with it when it refers to the same object. *)
Definition decode_and_encode (input_image output_image : pystr)
    (modify_params : option (dict pystr)) : M state bool :=
  (decoded <- decode_qr input_image ;;
   match decoded with
   | None | Some [] => ret false
   | Some decoded_data =>
       new_data <-
         (if startswith decoded_data (lit "upi://")
          then
            r <- parse_upi_string_aliased decoded_data ;;
            let (upi_params, aliased) := r : dict pystr * bool in
            upi_params <-
              match modify_params with
              | Some ((_ :: _) as modify_params) =>
                  print (LineDict ([10] ++ lit "Modifying parameters: ")
                                  modify_params) ;;;
                  let upi_params := dict_update upi_params modify_params in
                  (if aliased then set_upi_data upi_params else ret tt) ;;;
                  ret upi_params
              | _ => ret upi_params
              end ;;
            create_upi_string upi_params
          else ret decoded_data) ;;
       encode_qr new_data output_image 10 4
   end)%monad.

End Methods.

End QrHandler.

(* ================================================================= *)
(** ** [app.py]: the codec functions and the [/modify] route *)

Module App.

Definition UPLOAD_FOLDER : pystr := lit "uploads".
Definition GENERATED_FOLDER : pystr := lit "generated".

(** [os.path.join(a, b)] *)
Definition os_path_join (a b : pystr) : pystr :=
  if startswith b (lit "/") then b
  else match a with
       | [] => b
       | _ :: _ => if N.eqb (last a 0) 47 then a ++ b else a ++ lit "/" ++ b
       end.

(** Truth value of a string or [None]. *)
Definition truthy (s : option pystr) : bool :=
  match s with
  | Some (_ :: _) => true
  | _ => false
  end.

Definition param_mapping_parse : dict pystr :=
  [ (lit "pa", lit "payee_address"); (lit "pn", lit "payee_name");
    (lit "am", lit "amount"); (lit "cu", lit "currency");
    (lit "tn", lit "transaction_note"); (lit "tr", lit "transaction_ref");
    (lit "mc", lit "merchant_code"); (lit "tid", lit "transaction_id");
    (lit "url", lit "url") ].

Definition param_mapping_create : dict pystr :=
  [ (lit "payee_address", lit "pa"); (lit "payee_name", lit "pn");
    (lit "amount", lit "am"); (lit "currency", lit "cu");
    (lit "transaction_note", lit "tn"); (lit "transaction_ref", lit "tr");
    (lit "merchant_code", lit "mc"); (lit "transaction_id", lit "tid");
    (lit "url", lit "url") ].

(** The loop of [parse_upi_string]; it raises what [value[0]] raises. *)
Fixpoint assign_params (items : list (pystr * list pystr))
    (upi_params : dict pystr) : outcome (dict pystr) :=
  match items with
  | [] => Return upi_params
  | (key, value) :: rest =>
      let param_name := dict_get_default param_mapping_parse key key in
      match value with
      | v0 :: _ => assign_params rest (dict_set upi_params param_name v0)
      | [] => Raise (IndexError (lit "list index out of range"))
      end
  end.

(** The loop of [create_upi_string]: values that are empty are left out. *)
Fixpoint query_parts_of (upi_params : dict pystr) : outcome (list pystr) :=
  match upi_params with
  | [] => Return []
  | (key, value) :: rest =>
      match value with
      | [] => query_parts_of rest
      | _ :: _ =>
          let upi_key := dict_get_default param_mapping_create key key in
          bind (Urllib.quote value (lit "/"))
               (fun encoded_value =>
                  bind (query_parts_of rest)
                       (fun parts =>
                          Return ((upi_key ++ lit "=" ++ encoded_value) :: parts)))
      end
  end.

(** [create_upi_string(upi_params)], for a dictionary of strings. *)
Definition create_upi_string (upi_params : dict pystr) : outcome pystr :=
  bind (query_parts_of upi_params)
       (fun query_parts =>
          Return (lit "upi://pay?" ++ join (lit "&") query_parts)).

(** The loop of [modify]: [if key != 'file' and value: upi_params[key] = value] *)
Definition apply_modifications (upi_params modifications : dict pystr)
  : dict pystr :=
  fold_left
    (fun acc kv =>
       if negb (str_eqb (fst kv) (lit "file")) && truthy (Some (snd kv))
       then dict_set acc (fst kv) (snd kv)
       else acc)
    modifications upi_params.

Definition ALLOWED_EXTENSIONS : list pystr :=
  List.map lit ["png"; "jpg"; "jpeg"; "gif"; "bmp"]%string.

(** [allowed_file(filename)]: [filename.rsplit('.', 1)[1]] is the text after
    the last dot. [lower] turns the ASCII capitals into small letters, which
    decides the test as [str.lower] does: outside ASCII only U+212A has an
    ASCII lowercase, [k], and no allowed extension has a [k]. *)
Definition allowed_file (filename : pystr) : bool :=
  contains 46 filename
  && existsb (str_eqb (lower (rpartition_tail 46 filename))) ALLOWED_EXTENSIONS.

(** An uploaded file: [file.filename] and the bytes that [file.save] writes. *)
Record upload : Type := mkUpload { filename : pystr; content : pybytes }.

(** A [/modify] request: [request.files.get('file')], [request.form.to_dict()]
    and the value of [int(time.time())] when the new file is named. *)
Record modify_request : Type := mkModifyRequest {
  file_field : option upload;
  form : dict pystr;
  now : N
}.

(** The JSON bodies that [modify] returns, with the HTTP status. *)
Inductive response : Type :=
| JsonError (error : pystr) (status : N)
| JsonModified (original_data : dict pystr) (new_upi_string : pystr)
               (image_base64 : option pystr) (download_url : pystr).

(** The JSON bodies that [decode] returns. [upi_data] is [None] when the
    body has no such key. *)
Inductive decode_response : Type :=
| DecodeError (error : pystr) (status : N)
| DecodeResult (raw_data : pystr) (upi_data : option (option (dict pystr)))
               (is_upi : bool).

(** What [download] does: the file sent as an attachment, the JSON error,
    or the [FileNotFoundError] that [send_file] raises for the path that it
    opens. *)
Inductive download_response : Type :=
| SendFile (path : pystr) (data : pybytes)
| DownloadError (error : pystr) (status : N)
| SendFileNotFound (path : pystr).

Section Routes.

Variable X : Externals.

(** [decode_qr_code(image_path)]: the pair [(qr_data, error)]. *)
Definition decode_qr_code (fs : filesystem) (image_path : pystr)
  : option pystr * option pystr :=
  match cv2_imread X fs image_path with
  | None => (None, Some (lit "Could not read image"))
  | Some img =>
      match pyzbar_decode X img with
      | Raise e => (None, Some (str_exn e))
      | Return [] => (None, Some (lit "No QR code found in image"))
      | Return (first :: _) =>
          match first with
          | Return qr_data => (Some qr_data, None)
          | Raise e => (None, Some (str_exn e))
          end
      end
  end.

(** [parse_upi_string(upi_string)]: the pair [(upi_params, error)]. *)
Definition parse_upi_string (upi_string : pystr)
  : option (dict pystr) * option pystr :=
  let attempt : outcome (option (dict pystr) * option pystr) :=
    if negb (startswith upi_string (lit "upi://"))
    then Return (None, Some (lit "Not a UPI payment string"))
    else
      bind (Urllib.urlparse (normalize_NFKC X) (ip_address X) upi_string)
           (fun parsed =>
              let query_params := Urllib.parse_qs (Urllib.p_query parsed) false in
              bind (assign_params query_params [])
                   (fun upi_params => Return (Some upi_params, None))) in
  match attempt with
  | Return r => r
  | Raise e => (None, Some (str_exn e))
  end.

(** [generate_qr_code(data, filename)]: the pair [(filepath, error)]. *)
Definition generate_qr_code (data filename : pystr)
  : M filesystem (option pystr * option pystr) :=
  (try_except
     (img <- lift (qrcode_image X data 10 4) ;;
      let filepath := os_path_join GENERATED_FOLDER filename in
      fs <- get ;;
      fs' <- lift (write_file X fs filepath img) ;;
      modify (fun _ => fs') ;;;
      ret (Some filepath, None))
     (fun e => ret (None, Some (str_exn e))))%monad.

(** [qr_code_to_base64(filepath)] *)
Definition qr_code_to_base64 (fs : filesystem) (filepath : pystr) : option pystr :=
  match dict_get fs filepath with
  | Some img_data => Some (b64encode X img_data)
  | None => None
  end.

(** The route [/modify]. An exception that leaves it is what the framework
    turns into an internal server error. *)
Definition modify_route (request : modify_request) : M filesystem response :=
  (match file_field request with
   | None => ret (JsonError (lit "No file uploaded") 400)
   | Some file =>
       let modifications := form request in
       match filename file with
       | [] => ret (JsonError (lit "No file selected") 400)
       | _ :: _ =>
           let name := secure_filename X (filename file) in
           let filepath := os_path_join UPLOAD_FOLDER name in
           fs <- get ;;
           fs' <- lift (write_file X fs filepath (content file)) ;;
           modify (fun _ => fs') ;;;
           let (qr_data, error) := decode_qr_code fs' filepath in
           if truthy error
           then ret (JsonError (match error with Some e => e | None => [] end) 400)
           else
             match qr_data with
             | None =>
                 raise (AttributeError
                          (lit "'NoneType' object has no attribute 'startswith'"))
             | Some qr_data =>
                 if negb (startswith qr_data (lit "upi://"))
                 then ret (JsonError (lit "Not a UPI QR code") 400)
                 else
                   let (upi_params, parse_error) := parse_upi_string qr_data in
                   if truthy parse_error
                   then ret (JsonError
                               (match parse_error with Some e => e | None => [] end) 400)
                   else
                     match upi_params with
                     | None =>
                         if existsb
                              (fun kv => negb (str_eqb (fst kv) (lit "file"))
                                         && truthy (Some (snd kv)))
                              modifications
                         then raise (TypeError
                                (lit "'NoneType' object does not support item assignment"))
                         else raise (AttributeError
                                (lit "'NoneType' object has no attribute 'items'"))
                     | Some upi_params =>
                         let upi_params := apply_modifications upi_params modifications in
                         new_upi_string <- lift (create_upi_string upi_params) ;;
                         let new_filename :=
                           lit "modified_qr_" ++ str_of_int (now request) ++ lit ".png" in
                         r <- generate_qr_code new_upi_string new_filename ;;
                         let (new_filepath, gen_error) :=
                           r : option pystr * option pystr in
                         if truthy gen_error
                         then ret (JsonError
                                     (match gen_error with Some e => e | None => [] end) 400)
                         else
                           fs'' <- get ;;
                           let img_base64 :=
                             match new_filepath with
                             | Some p => qr_code_to_base64 fs'' p
                             | None => None
                             end in
                           ret (JsonModified upi_params new_upi_string img_base64
                                  (url_for_download X new_filename))
                     end
             end
       end
   end)%monad.

(** The route [/decode]. *)
Definition decode_route (file_field : option upload) : M filesystem decode_response :=
  (match file_field with
   | None => ret (DecodeError (lit "No file uploaded") 400)
   | Some file =>
       match filename file with
       | [] => ret (DecodeError (lit "No file selected") 400)
       | _ :: _ =>
           if negb (allowed_file (filename file))
           then ret (DecodeError
                       (lit "Invalid file type. Allowed: PNG, JPG, JPEG, GIF, BMP") 400)
           else
             let name := secure_filename X (filename file) in
             let filepath := os_path_join UPLOAD_FOLDER name in
             fs <- get ;;
             fs' <- lift (write_file X fs filepath (content file)) ;;
             modify (fun _ => fs') ;;;
             let (qr_data, error) := decode_qr_code fs' filepath in
             if truthy error
             then ret (DecodeError (match error with Some e => e | None => [] end) 400)
             else
               match qr_data with
               | None =>
                   raise (AttributeError
                            (lit "'NoneType' object has no attribute 'startswith'"))
               | Some qr_data =>
                   if startswith qr_data (lit "upi://")
                   then
                     let (upi_params, parse_error) := parse_upi_string qr_data in
                     if negb (truthy parse_error)
                     then ret (DecodeResult qr_data (Some upi_params) true)
                     else ret (DecodeResult qr_data None false)
                   else ret (DecodeResult qr_data None false)
               end
       end
   end)%monad.

(** The route [/download/<filename>]. [os.path.exists], like [open] and
    [img.save], takes a relative path from the working directory, but
    [send_file] takes it from [app.root_path], the directory of [app.py].
    [rooted p] is the name, from the working directory, of the file
    [os.path.join(app.root_path, p)]: [p] itself when the application runs
    in its own directory. *)
Definition download (rooted : pystr -> pystr) (fs : filesystem)
    (filename : pystr) : download_response :=
  let filepath := os_path_join GENERATED_FOLDER filename in
  match dict_get fs filepath with
  | Some _ =>
      match dict_get fs (rooted filepath) with
      | Some data => SendFile (rooted filepath) data
      | None => SendFileNotFound (rooted filepath)
      end
  | None => DownloadError (lit "File not found") 404
  end.

End Routes.

End App.

(* ================================================================= *)
(** ** Sample collaborators

    A toy optical codec in which an image file holds its payload, one byte
    per character: it lets the model run on concrete inputs. *)

Definition toy_externals : Externals :=
  {| matrix := pybytes;
     normalize_NFKC := fun s => s;
     ip_address := fun _ => Raise (ValueError (lit "does not appear to be an IPv4 or IPv6 address"));
     cv2_imdecode := fun data => Some data;
     pyzbar_decode := fun img => Return [Return img];
     qrcode_image := fun data _ _ => Return data;
     write_error := fun _ => None;
     secure_filename := fun name => name;
     b64encode := fun data => data;
     url_for_download := fun name => lit "/download/" ++ name |}.

(** The same collaborators with one fact of NFKC normalization: it turns the
    fullwidth solidus U+FF0F into [/]. *)
Definition fullwidth_externals : Externals :=
  {| matrix := pybytes;
     normalize_NFKC := List.map (fun c => if c =? 0xFF0F then 47 else c);
     ip_address := ip_address toy_externals;
     cv2_imdecode := cv2_imdecode toy_externals;
     pyzbar_decode := pyzbar_decode toy_externals;
     qrcode_image := qrcode_image toy_externals;
     write_error := write_error toy_externals;
     secure_filename := secure_filename toy_externals;
     b64encode := b64encode toy_externals;
     url_for_download := url_for_download toy_externals |}.

(** The record that the loops of [parse_qs] and [parse_upi_string] build
    from the decoded fields of a query. *)
Definition record_of_fields (fields : list (pystr * pystr)) : dict pystr :=
  fst (QrHandler.assign_params (fold_left Urllib.parse_qs_add fields []) []).

(** Code points that are Unicode scalar values: below 0x110000 and not
    surrogates. *)
Definition is_scalar (c : N) : bool :=
  (c <? 0x110000) && negb (Utf8.is_surrogate c).

(** The nine semantic field names. *)
Definition recognized_fields : list pystr := keys QrHandler.param_mapping_create.

(* ================================================================= *)
(** ** Notions used in the statements and proofs *)

(** What [quote] may emit: unreserved characters, the slash and the
    percent sign. *)
Definition quoted_char (x : N) : bool :=
  Urllib._ALWAYS_SAFE x || (x =? 47) || (x =? 37).

(** One byte is quoted either as itself, and then it is not a percent sign,
    or as a percent sign and the two hexadecimal digits of the byte. *)
Definition quoter_ok (b : N) : bool :=
  match Urllib.quoter [47] b with
  | [x] => (x =? b) && negb (x =? 37) && quoted_char x
  | [p; h; l] =>
      (p =? 37) && quoted_char h && quoted_char l &&
      match Urllib.hexval h, Urllib.hexval l with
      | Some a, Some c => (16 * a + c =? b)
      | _, _ => false
      end
  | _ => false
  end.

(** The values that the fields of a query give to a name, in order. *)
Definition values_of (k : pystr) (fields : list (pystr * pystr)) : list pystr :=
  List.map snd (filter (fun f => str_eqb (fst f) k) fields).

Definition parse_qs_inv (d : dict (list pystr)) (fields : list (pystr * pystr)) : Prop :=
  NoDup (keys d) /\
  forall k, dict_get d k =
            match values_of k fields with [] => None | vs => Some vs end.

(** What the console raises: a [UnicodeEncodeError] whose own text has no
    surrogate. *)
Definition console_error (e : exn) : Prop :=
  exists msg, e = UnicodeEncodeError msg /\ existsb Utf8.is_surrogate msg = false.

(** A computation that only prints: it leaves [self.upi_data] and the files
    alone, and returns, or raises what the console raised. *)
Definition only_prints (m : M QrHandler.state unit) : Prop :=
  forall st, exists out,
    m st = (Return tt, QrHandler.mkState (QrHandler.upi_data st) (QrHandler.files st) out)
    \/ exists e,
         console_error e
         /\ m st = (Raise e, QrHandler.mkState (QrHandler.upi_data st) (QrHandler.files st) out).

(** The semantic name of a key of the query. *)
Definition semantic_name (key : pystr) : pystr :=
  dict_get_default QrHandler.param_mapping_parse key key.

(** The short key of a field name. *)
Definition short_key (name : pystr) : pystr :=
  dict_get_default QrHandler.param_mapping_create name name.

(** The quoted form of a value without surrogates. *)
Definition quoted (v : pystr) : pystr :=
  flat_map (Urllib.quoter [47]) (flat_map Utf8.encode_char v).

(** The [key=value] text of a field. *)
Definition query_part (kv : pystr * pystr) : pystr :=
  short_key (fst kv) ++ lit "=" ++ quoted (snd kv).

(** The characters of a serialized query. *)
Definition query_char (x : N) : bool := quoted_char x || (x =? 61) || (x =? 38).

(** The record of the first example of [example.py]. *)
Definition example_record : dict pystr :=
  [ (lit "payee_address", lit "merchant@paytm");
    (lit "payee_name", lit "Merchant Store");
    (lit "amount", lit "500");
    (lit "currency", lit "INR");
    (lit "transaction_note", lit "Order #12345") ].

(** A file system with one image, whose payload is a payment of 100. *)
Definition shop_files : filesystem :=
  [(lit "in.png", lit "upi://pay?pa=shop%40upi&am=100")].

(** The handler's [decode_and_encode] on that image, with the override
    [{'amount': ''}]. *)
Definition blank_override_run : outcome bool * QrHandler.state :=
  QrHandler.decode_and_encode toy_externals (lit "in.png") (lit "out.png")
    (Some [(lit "amount", [])]) (QrHandler.__init__ shop_files []).

(** A file system with one image, whose payload is not a UPI string. *)
Definition hello_files : filesystem := [(lit "in.png", lit "hello")].

(** The handler's [decode_and_encode] on that image, with no override. *)
Definition hello_run : outcome bool * QrHandler.state :=
  QrHandler.decode_and_encode toy_externals (lit "in.png") (lit "out.png")
    None (QrHandler.__init__ hello_files []).

(** A [/modify] request that uploads that image. *)
Definition hello_request : App.modify_request :=
  App.mkModifyRequest (Some (App.mkUpload (lit "in.png") (lit "hello")))
    [(lit "amount", lit "200")] 1700000000.

(* ================================================================= *)
(** ** Notions used by the further properties *)

(** The nine short keys. *)
Definition short_keys : list pystr := keys QrHandler.param_mapping_parse.

(** Characters that a key can hold and still be read back: not [%], [+],
    [=], [&], [#], tab, carriage return or line feed. *)
Definition key_char (x : N) : bool :=
  negb (existsb (N.eqb x) [37; 43; 61; 38; 35; 9; 13; 10]).

(** Characters that [urlsplit] leaves in a query: not [#], tab, carriage
    return or line feed. *)
Definition stays_in_query (x : N) : bool :=
  negb (existsb (N.eqb x) [35; 9; 13; 10]).

(** A key that is passed through both ways: neither a semantic field name
    nor a short key, and made of characters that need no escape. *)
Definition pass_through_key (k : pystr) : Prop :=
  ~ In k recognized_fields /\ ~ In k short_keys /\ forallb key_char k = true.

(** A key of a record that can make the round trip. *)
Definition round_trip_key (k : pystr) : Prop :=
  In k recognized_fields \/ pass_through_key k.

(** The text that both serializers give for a record of values without
    surrogates. *)
Definition serialized (r : dict pystr) : pystr :=
  lit "upi://pay?" ++ join (lit "&") (List.map query_part r).

(** Whether an element of [string.split(b'%')] begins with two hexadecimal
    digits, so that [unquote] reads it as an escape. *)
Definition is_escape (item : pystr) : bool :=
  match item with
  | h :: l :: _ => Urllib.is_hexdigit h && Urllib.is_hexdigit l
  | _ => false
  end.

(** A text in which no percent sign begins an escape. *)
Definition no_escape (s : pystr) : bool :=
  forallb (fun item => negb (is_escape item)) (tl (split 37 s)).

(** A record with a key that is passed through and a value outside ASCII. *)
Definition pass_through_record : dict pystr :=
  [ (lit "payee_address", lit "shop@upi");
    (lit "mode", [0x20AC; 0x1F600; 38; 61]) ].

(** The record and the override of the third example of [example.py]. *)
Definition shop_record : dict pystr :=
  [ (lit "payee_address", lit "shop@upi"); (lit "payee_name", lit "My Shop");
    (lit "amount", lit "100"); (lit "currency", lit "INR");
    (lit "transaction_note", lit "Original Payment") ].

Definition shop_override : dict pystr :=
  [ (lit "amount", lit "200"); (lit "transaction_note", lit "Modified Payment") ].

Definition original_qr : filesystem :=
  [(lit "original_qr.png", serialized shop_record)].

(** The path at which a route saves an upload. *)
Definition upload_path (X : Externals) (file : App.upload) : pystr :=
  App.os_path_join App.UPLOAD_FOLDER (secure_filename X (App.filename file)).

(** The name that [/modify] gives to the new image. *)
Definition modified_name (now : N) : pystr :=
  lit "modified_qr_" ++ str_of_int now ++ lit ".png".

(** A [/modify] request that uploads the image of a payment of 100 and asks
    for the amount 200, leaving the note blank. *)
Definition shop_request : App.modify_request :=
  App.mkModifyRequest
    (Some (App.mkUpload (lit "in.png") (lit "upi://pay?pa=shop%40upi&am=100")))
    [(lit "amount", lit "200"); (lit "transaction_note", [])] 1700000000.

(** A request whose image can be read but whose new image cannot be
    rendered: the override holds a surrogate, so serializing raises. *)
Definition surrogate_request : App.modify_request :=
  App.mkModifyRequest
    (Some (App.mkUpload (lit "in.png") (lit "upi://pay?am=100")))
    [(lit "amount", [0xD800])] 1700000000.

(** What the libraries give for an image, the text of the QR code or the
    text of their exception, is a text that the console can print. A text
    that [bytes.decode] returned is one: it has no surrogate. *)
Definition decodes_printably (X : Externals) (fs : filesystem)
    (image_path : pystr) : Prop :=
  forall t,
    fst (App.decode_qr_code X fs image_path) = Some t
    \/ snd (App.decode_qr_code X fs image_path) = Some t ->
    existsb Utf8.is_surrogate t = false.

(** Whether a field of a record has a value that is not empty. *)
Definition has_value (kv : pystr * pystr) : bool :=
  match snd kv with
  | [] => false
  | _ :: _ => true
  end.

(* ================================================================= *)
(** ** Strings and dictionaries *)

Lemma str_eqb_refl : forall a, str_eqb a a = true.
Proof.
  induction a as [|x a IH]; simpl; [reflexivity|].
  now rewrite N.eqb_refl, IH.
Qed.

Lemma str_eqb_eq : forall a b, str_eqb a b = true <-> a = b.
Proof.
  induction a as [|x a IH]; destruct b as [|y b]; simpl; split; intro H;
    try reflexivity; try discriminate.
  - apply andb_true_iff in H. destruct H as [H1 H2].
    apply N.eqb_eq in H1. apply IH in H2. now subst.
  - inversion H; subst. now rewrite N.eqb_refl, str_eqb_refl.
Qed.

Lemma str_eqb_neq : forall a b, str_eqb a b = false <-> a <> b.
Proof.
  intros a b. split; intro H.
  - intro E. apply str_eqb_eq in E. congruence.
  - destruct (str_eqb a b) eqn:E; [|reflexivity].
    apply str_eqb_eq in E. contradiction.
Qed.

Lemma contains_false_iff : forall c s,
  contains c s = false <-> ~ In c s.
Proof.
  intros c s. unfold contains. induction s as [|x s IH]; simpl.
  - tauto.
  - rewrite orb_false_iff, IH, N.eqb_neq. split.
    + intros [H1 H2] [H|H]; [now subst|tauto].
    + intro H. split; [intro E; apply H; now left | intro E; apply H; now right].
Qed.

Lemma contains_app : forall c a b,
  contains c (a ++ b) = contains c a || contains c b.
Proof. intros. unfold contains. apply existsb_app. Qed.

Lemma split_not_nil : forall sep s, split sep s <> [].
Proof.
  intros sep s. destruct s as [|c s]; simpl; [discriminate|].
  destruct (c =? sep); [discriminate|].
  destruct (split sep s); discriminate.
Qed.

Lemma split_cons_other : forall sep c s,
  c <> sep ->
  split sep (c :: s) =
  (c :: hd [] (split sep s)) :: tl (split sep s).
Proof.
  intros sep c s H. simpl. apply N.eqb_neq in H. rewrite H.
  destruct (split sep s) eqn:E; [|reflexivity].
  now apply split_not_nil in E.
Qed.

Lemma split_cons_sep : forall sep s, split sep (sep :: s) = [] :: split sep s.
Proof. intros. simpl. now rewrite N.eqb_refl. Qed.

Lemma split_no_sep : forall sep s, contains sep s = false -> split sep s = [s].
Proof.
  intros sep s. induction s as [|c s IH]; simpl; [reflexivity|].
  rewrite orb_false_iff. intros [H1 H2].
  rewrite N.eqb_sym, H1, (IH H2). reflexivity.
Qed.

Lemma split_app_sep : forall sep a b,
  contains sep a = false ->
  split sep (a ++ sep :: b) = a :: split sep b.
Proof.
  intros sep a b. induction a as [|c a IH]; simpl.
  - intros _. now rewrite N.eqb_refl.
  - rewrite orb_false_iff. intros [H1 H2].
    rewrite N.eqb_sym, H1, (IH H2). reflexivity.
Qed.

(** Splitting a joined list gives the list back. *)
Lemma split_join : forall sep parts,
  parts <> [] ->
  Forall (fun p => contains sep p = false) parts ->
  split sep (join [sep] parts) = parts.
Proof.
  intros sep parts. induction parts as [|p ps IH]; [congruence|].
  intros _ H. inversion H as [|? ? Hp Hps]; subst.
  destruct ps as [|q ps].
  - simpl. now apply split_no_sep.
  - change (join [sep] (p :: q :: ps)) with (p ++ sep :: join [sep] (q :: ps)).
    rewrite split_app_sep by assumption.
    rewrite IH; [reflexivity | discriminate | assumption].
Qed.

(** The pieces of a split do not contain the separator. *)
Lemma split_pieces : forall sep s,
  Forall (fun p => contains sep p = false) (split sep s).
Proof.
  intros sep s. induction s as [|c s IH]; simpl.
  - constructor; [reflexivity|constructor].
  - destruct (c =? sep) eqn:E.
    + constructor; [reflexivity|exact IH].
    + destruct (split sep s) as [|w ws]; [repeat constructor; simpl; now rewrite N.eqb_sym, E|].
      inversion IH; subst. constructor; [|assumption].
      simpl. now rewrite N.eqb_sym, E.
Qed.

(** Joining the pieces of a split gives the string back. *)
Lemma join_split : forall sep s, join [sep] (split sep s) = s.
Proof.
  intros sep s. induction s as [|c s IH]; simpl; [reflexivity|].
  destruct (c =? sep) eqn:E.
  - apply N.eqb_eq in E. subst c.
    destruct (split sep s) as [|w ws] eqn:Es; [now apply split_not_nil in Es|].
    change (join [sep] ([] :: w :: ws)) with (sep :: join [sep] (w :: ws)).
    now rewrite IH.
  - destruct (split sep s) as [|w ws] eqn:Es; [now apply split_not_nil in Es|].
    destruct ws as [|w' ws]; simpl in *; now rewrite <- IH.
Qed.

Lemma split1_no_sep : forall sep s,
  contains sep s = false -> split1 sep s = (s, None).
Proof.
  intros sep s. induction s as [|c s IH]; simpl; [reflexivity|].
  rewrite orb_false_iff. intros [H1 H2].
  rewrite N.eqb_sym, H1, (IH H2). reflexivity.
Qed.

Lemma split1_app_sep : forall sep a b,
  contains sep a = false -> split1 sep (a ++ sep :: b) = (a, Some b).
Proof.
  intros sep a b. induction a as [|c a IH]; simpl.
  - intros _. now rewrite N.eqb_refl.
  - rewrite orb_false_iff. intros [H1 H2].
    rewrite N.eqb_sym, H1, (IH H2). reflexivity.
Qed.

Lemma remove_char_id : forall c s, contains c s = false -> remove_char c s = s.
Proof.
  intros c s. induction s as [|x s IH]; simpl; [reflexivity|].
  rewrite orb_false_iff. intros [H1 H2].
  rewrite N.eqb_sym, H1. simpl. now rewrite (IH H2).
Qed.

Lemma replace_char_id : forall c d s, contains c s = false -> replace_char c d s = s.
Proof.
  intros c d s. induction s as [|x s IH]; simpl; [reflexivity|].
  rewrite orb_false_iff. intros [H1 H2].
  rewrite N.eqb_sym, H1. now rewrite (IH H2).
Qed.

(* ================================================================= *)
(** ** UTF-8: decoding what was encoded *)

Ltac cmp_cases :=
  repeat match goal with
         | |- context [?a <? ?b] => destruct (N.ltb_spec a b)
         | |- context [?a <=? ?b] => destruct (N.leb_spec a b)
         | |- context [?a =? ?b] => destruct (N.eqb_spec a b)
         end.

Lemma decode_replace_ascii : forall b r,
  b < 0x80 -> Utf8.decode_replace (b :: r) = b :: Utf8.decode_replace r.
Proof.
  intros b r H. cbn [Utf8.decode_replace].
  destruct (N.ltb_spec b 0x80); [reflexivity|lia].
Qed.

Lemma decode_replace_2 : forall b0 b1 r,
  0xC2 <= b0 < 0xE0 -> 0x80 <= b1 < 0xC0 ->
  Utf8.decode_replace (b0 :: b1 :: r) =
  (b0 * 64 + b1 - (0xC0 * 64 + 0x80)) :: Utf8.decode_replace r.
Proof.
  intros b0 b1 r H0 H1. cbn [Utf8.decode_replace]. unfold Utf8.is_continuation.
  cmp_cases; try lia; reflexivity.
Qed.

Lemma decode_replace_3 : forall b0 b1 b2 r,
  0xE0 <= b0 < 0xF0 -> 0x80 <= b1 < 0xC0 -> 0x80 <= b2 < 0xC0 ->
  (b0 = 0xE0 -> 0xA0 <= b1) -> (b0 = 0xED -> b1 < 0xA0) ->
  Utf8.decode_replace (b0 :: b1 :: b2 :: r) =
  (b0 * 4096 + b1 * 64 + b2 - (0xE0 * 4096 + 0x80 * 64 + 0x80))
    :: Utf8.decode_replace r.
Proof.
  intros b0 b1 b2 r H0 H1 H2 HE0 HED.
  cbn [Utf8.decode_replace]. unfold Utf8.is_continuation.
  destruct (N.ltb_spec b0 0x80); [lia|].
  destruct (N.ltb_spec b0 0xC2); [lia|].
  destruct (N.ltb_spec b0 0xE0); [lia|].
  destruct (N.ltb_spec b0 0xF0); [|lia].
  destruct (N.leb_spec 0x80 b1); [|lia].
  destruct (N.ltb_spec b1 0xC0); [|lia].
  destruct (N.leb_spec 0x80 b2); [|lia].
  destruct (N.ltb_spec b2 0xC0); [|lia].
  cbn [andb negb orb].
  destruct (N.ltb_spec b1 0xA0).
  - destruct (N.eqb_spec b0 0xE0); [lia|reflexivity].
  - destruct (N.eqb_spec b0 0xED); [lia|reflexivity].
Qed.

Lemma decode_replace_4 : forall b0 b1 b2 b3 r,
  0xF0 <= b0 < 0xF5 -> 0x80 <= b1 < 0xC0 -> 0x80 <= b2 < 0xC0 ->
  0x80 <= b3 < 0xC0 ->
  (b0 = 0xF0 -> 0x90 <= b1) -> (b0 = 0xF4 -> b1 < 0x90) ->
  Utf8.decode_replace (b0 :: b1 :: b2 :: b3 :: r) =
  (b0 * 262144 + b1 * 4096 + b2 * 64 + b3
   - (0xF0 * 262144 + 0x80 * 4096 + 0x80 * 64 + 0x80))
    :: Utf8.decode_replace r.
Proof.
  intros b0 b1 b2 b3 r H0 H1 H2 H3 HF0 HF4.
  cbn [Utf8.decode_replace]. unfold Utf8.is_continuation.
  destruct (N.ltb_spec b0 0x80); [lia|].
  destruct (N.ltb_spec b0 0xC2); [lia|].
  destruct (N.ltb_spec b0 0xE0); [lia|].
  destruct (N.ltb_spec b0 0xF0); [lia|].
  destruct (N.ltb_spec b0 0xF5); [|lia].
  destruct (N.leb_spec 0x80 b1); [|lia].
  destruct (N.ltb_spec b1 0xC0); [|lia].
  destruct (N.leb_spec 0x80 b2); [|lia].
  destruct (N.ltb_spec b2 0xC0); [|lia].
  destruct (N.leb_spec 0x80 b3); [|lia].
  destruct (N.ltb_spec b3 0xC0); [|lia].
  cbn [andb negb orb].
  destruct (N.ltb_spec b1 0x90).
  - destruct (N.eqb_spec b0 0xF0); [lia|reflexivity].
  - destruct (N.eqb_spec b0 0xF4); [lia|reflexivity].
Qed.

Lemma is_scalar_spec : forall c,
  is_scalar c = true <-> c < 0x110000 /\ (c < 0xD800 \/ 0xDFFF < c).
Proof.
  intro c. unfold is_scalar, Utf8.is_surrogate.
  destruct (N.ltb_spec c 0x110000), (N.leb_spec 0xD800 c), (N.leb_spec c 0xDFFF);
    cbn; split; intros; try discriminate; try reflexivity; lia.
Qed.

(** The quotient and remainder of a division by 64, as fresh variables. *)
Lemma divmod64 : forall c, exists q m, c / 64 = q /\ c mod 64 = m /\ c = 64 * q + m /\ m < 64.
Proof.
  intro c. exists (c / 64), (c mod 64). repeat split.
  - apply N.div_mod. lia.
  - apply N.mod_lt. lia.
Qed.

(** Decoding the encoding of a scalar value gives the scalar value back. *)
Lemma decode_encode_char : forall c r,
  is_scalar c = true ->
  Utf8.decode_replace (Utf8.encode_char c ++ r) = c :: Utf8.decode_replace r.
Proof.
  intros c r H. apply is_scalar_spec in H. destruct H as [Hmax Hsur].
  unfold Utf8.encode_char.
  replace (c / 262144) with (c / 64 / 64 / 64) by (rewrite !N.Div0.div_div; reflexivity).
  replace (c / 4096) with (c / 64 / 64) by (rewrite !N.Div0.div_div; reflexivity).
  destruct (divmod64 c) as (q1 & m0 & -> & -> & Ec & Hm0).
  destruct (divmod64 q1) as (q2 & m1 & -> & -> & Eq1 & Hm1).
  destruct (divmod64 q2) as (q3 & m2 & -> & -> & Eq2 & Hm2).
  destruct (N.ltb_spec c 0x80).
  { cbn [app]. now apply decode_replace_ascii. }
  destruct (N.ltb_spec c 0x800).
  { cbn [app]. rewrite decode_replace_2; [f_equal|..]; lia. }
  destruct (N.ltb_spec c 0x10000).
  { cbn [app]. rewrite decode_replace_3; [f_equal|..]; lia. }
  cbn [app]. rewrite decode_replace_4; [f_equal|..]; lia.
Qed.

Lemma encode_char_bytes : forall c,
  c < 0x110000 -> Forall (fun b => b < 256) (Utf8.encode_char c).
Proof.
  intros c Hmax. unfold Utf8.encode_char.
  replace (c / 262144) with (c / 64 / 64 / 64) by (rewrite !N.Div0.div_div; reflexivity).
  replace (c / 4096) with (c / 64 / 64) by (rewrite !N.Div0.div_div; reflexivity).
  destruct (divmod64 c) as (q1 & m0 & -> & -> & Ec & Hm0).
  destruct (divmod64 q1) as (q2 & m1 & -> & -> & Eq1 & Hm1).
  destruct (divmod64 q2) as (q3 & m2 & -> & -> & Eq2 & Hm2).
  destruct (N.ltb_spec c 0x80); [|destruct (N.ltb_spec c 0x800); [|destruct (N.ltb_spec c 0x10000)]];
    repeat constructor; lia.
Qed.

Lemma encode_from_scalar : forall s pos,
  forallb is_scalar s = true ->
  Utf8.encode_from pos s = Return (flat_map Utf8.encode_char s).
Proof.
  induction s as [|c s IH]; intros pos H; simpl; [reflexivity|].
  simpl in H. apply andb_true_iff in H. destruct H as [Hc Hs].
  assert (Utf8.is_surrogate c = false) as ->.
  { unfold is_scalar in Hc. apply andb_true_iff in Hc. destruct Hc as [_ Hc].
    now apply negb_true_iff in Hc. }
  now rewrite (IH _ Hs).
Qed.

Lemma encode_scalar : forall s,
  forallb is_scalar s = true ->
  Utf8.encode s = Return (flat_map Utf8.encode_char s).
Proof. intros. now apply encode_from_scalar. Qed.

Lemma decode_encode : forall s,
  forallb is_scalar s = true ->
  Utf8.decode_replace (flat_map Utf8.encode_char s) = s.
Proof.
  induction s as [|c s IH]; intro H; [reflexivity|].
  simpl in H. apply andb_true_iff in H. destruct H as [Hc Hs].
  cbn [flat_map]. rewrite decode_encode_char by assumption. now rewrite IH.
Qed.

Lemma encode_bytes : forall s,
  forallb is_scalar s = true ->
  Forall (fun b => b < 256) (flat_map Utf8.encode_char s).
Proof.
  induction s as [|c s IH]; intro H; [constructor|].
  simpl in H. apply andb_true_iff in H. destruct H as [Hc Hs].
  cbn [flat_map]. apply Forall_app. split; [|now apply IH].
  apply encode_char_bytes. apply is_scalar_spec in Hc. tauto.
Qed.

(* ================================================================= *)
(** ** Quoting and unquoting *)

Lemma forallb_below : forall (P : N -> bool) (bound : nat),
  forallb P (List.map N.of_nat (seq 0 bound)) = true ->
  forall n, n < N.of_nat bound -> P n = true.
Proof.
  intros P bound H n Hn. rewrite forallb_forall in H. apply H.
  apply in_map_iff. exists (N.to_nat n). split; [apply N2Nat.id|].
  apply in_seq. lia.
Qed.

Lemma quoter_ok_byte : forall b, b < 256 -> quoter_ok b = true.
Proof. apply (forallb_below quoter_ok 256). vm_compute. reflexivity. Qed.

Lemma hexval_not_percent : forall h a, Urllib.hexval h = Some a -> h <> 37.
Proof. intros h a H E. subst h. discriminate. Qed.

Lemma unquote_to_bytes_eq : forall s,
  Urllib.unquote_to_bytes s =
  hd [] (split 37 s) ++ flat_map Urllib.unquote_item (tl (split 37 s)).
Proof.
  intros [|c s]; [reflexivity|].
  unfold Urllib.unquote_to_bytes.
  pose proof (join_split 37 (c :: s)) as J.
  destruct (split 37 (c :: s)) as [|b0 [|b1 bits]] eqn:E.
  - now apply split_not_nil in E.
  - simpl in *. now rewrite app_nil_r.
  - reflexivity.
Qed.

Lemma unquote_to_bytes_other : forall c s,
  c <> 37 ->
  Urllib.unquote_to_bytes (c :: s) = c :: Urllib.unquote_to_bytes s.
Proof.
  intros c s H. rewrite !unquote_to_bytes_eq, split_cons_other by assumption.
  reflexivity.
Qed.

Lemma unquote_to_bytes_escape : forall h l a b s,
  Urllib.hexval h = Some a -> Urllib.hexval l = Some b ->
  Urllib.unquote_to_bytes (37 :: h :: l :: s) =
  (16 * a + b) :: Urllib.unquote_to_bytes s.
Proof.
  intros h l a b s Hh Hl.
  rewrite !unquote_to_bytes_eq, split_cons_sep.
  rewrite (split_cons_other 37 h) by (eapply hexval_not_percent; eassumption).
  rewrite (split_cons_other 37 l) by (eapply hexval_not_percent; eassumption).
  cbn [hd tl flat_map app Urllib.unquote_item]. rewrite Hh, Hl. reflexivity.
Qed.

Lemma unquote_to_bytes_quoter : forall b s,
  b < 256 ->
  Urllib.unquote_to_bytes (Urllib.quoter [47] b ++ s) =
  b :: Urllib.unquote_to_bytes s.
Proof.
  intros b s Hb. pose proof (quoter_ok_byte b Hb) as H. unfold quoter_ok in H.
  destruct (Urllib.quoter [47] b) as [|x [|h [|l [|? ?]]]]; try discriminate.
  - apply andb_true_iff in H. destruct H as [H _].
    apply andb_true_iff in H. destruct H as [H1 H2].
    apply N.eqb_eq in H1. apply negb_true_iff, N.eqb_neq in H2. subst x.
    now apply unquote_to_bytes_other.
  - rewrite !andb_true_iff in H. destruct H as [[[H1 _] _] H2].
    apply N.eqb_eq in H1. subst x.
    destruct (Urllib.hexval h) as [a|] eqn:Hh; [|discriminate].
    destruct (Urllib.hexval l) as [c|] eqn:Hl; [|discriminate].
    apply N.eqb_eq in H2. subst b.
    now apply unquote_to_bytes_escape.
Qed.

Lemma quoter_chars : forall b,
  b < 256 -> forallb quoted_char (Urllib.quoter [47] b) = true.
Proof.
  intros b Hb. pose proof (quoter_ok_byte b Hb) as H. unfold quoter_ok in H.
  destruct (Urllib.quoter [47] b) as [|x [|h [|l [|? ?]]]]; try discriminate.
  - rewrite !andb_true_iff in H. cbn. rewrite andb_true_r. tauto.
  - rewrite !andb_true_iff in H. destruct H as [[[H1 H2] H3] _].
    apply N.eqb_eq in H1. subst x. cbn [forallb]. now rewrite H2, H3.
Qed.

Lemma quote_from_bytes_eq : forall bs,
  Urllib.quote_from_bytes bs (lit "/") = flat_map (Urllib.quoter [47]) bs.
Proof.
  intros [|b bs]; [reflexivity|].
  unfold Urllib.quote_from_bytes.
  change (filter isascii (lit "/")) with [47].
  destruct (forallb _ (b :: bs)) eqn:E; [|reflexivity].
  induction (b :: bs) as [|x l IH]; [reflexivity|].
  cbn [forallb] in E. apply andb_true_iff in E. destruct E as [Ex El].
  cbn [flat_map]. unfold Urllib.quoter at 1. rewrite Ex. cbn [app].
  now rewrite <- IH.
Qed.

Lemma unquote_to_bytes_quote : forall bs,
  Forall (fun b => b < 256) bs ->
  Urllib.unquote_to_bytes (flat_map (Urllib.quoter [47]) bs) = bs.
Proof.
  induction 1 as [|b bs Hb _ IH]; [reflexivity|].
  cbn [flat_map]. rewrite unquote_to_bytes_quoter by assumption. now rewrite IH.
Qed.

Lemma quote_chars : forall bs,
  Forall (fun b => b < 256) bs ->
  forallb quoted_char (flat_map (Urllib.quoter [47]) bs) = true.
Proof.
  induction 1 as [|b bs Hb _ IH]; [reflexivity|].
  cbn [flat_map]. rewrite forallb_app, quoter_chars by assumption. exact IH.
Qed.

Lemma quoted_char_ascii : forall x, quoted_char x = true -> isascii x = true.
Proof.
  intros x H. unfold quoted_char, Urllib._ALWAYS_SAFE, contains, is_upper, is_lower, is_digit in H.
  unfold isascii. cbn [existsb lit List.map list_ascii_of_string N_of_ascii N_of_digits] in H.
  rewrite !orb_true_iff, ?andb_true_iff, ?N.leb_le, ?N.eqb_eq in H.
  apply N.ltb_lt. cbn in H. lia.
Qed.

(** A quoted character is none of the characters that delimit a URI or a
    query, and none that [urlsplit] strips. *)
Lemma quoted_char_not_reserved : forall x,
  quoted_char x = true ->
  ~ In x [9; 10; 13; 32; 35; 38; 43; 61; 63].
Proof.
  intros x H. unfold quoted_char, Urllib._ALWAYS_SAFE, contains, is_upper, is_lower, is_digit in H.
  cbn [existsb lit List.map list_ascii_of_string N_of_ascii N_of_digits] in H.
  rewrite !orb_true_iff, ?andb_true_iff, ?N.leb_le, ?N.eqb_eq in H.
  cbn in H. cbn [In]. lia.
Qed.

Lemma forallb_not_in : forall (p : N -> bool) c s,
  forallb p s = true -> p c = false -> contains c s = false.
Proof.
  intros p c s H Hc. apply contains_false_iff. intro I.
  rewrite forallb_forall in H. apply H in I. congruence.
Qed.

Lemma ascii_runs_ascii : forall s,
  s <> [] -> forallb isascii s = true -> Urllib.ascii_runs s = [(true, s)].
Proof.
  induction s as [|c s IH]; [congruence|].
  intros _ H. cbn [forallb] in H. apply andb_true_iff in H. destruct H as [Hc Hs].
  cbn [Urllib.ascii_runs]. destruct s as [|d s].
  - cbn. now rewrite Hc.
  - rewrite IH by (discriminate || assumption). now rewrite Hc.
Qed.

Lemma decode_replace_all_ascii : forall s,
  forallb isascii s = true -> Utf8.decode_replace s = s.
Proof.
  induction s as [|c s IH]; intro H; [reflexivity|].
  cbn [forallb] in H. apply andb_true_iff in H. destruct H as [Hc Hs].
  rewrite decode_replace_ascii by (now apply N.ltb_lt). now rewrite IH.
Qed.

(** On a string of ASCII characters [unquote] decodes the escapes to bytes
    and the bytes as UTF-8. *)
Lemma unquote_ascii : forall s,
  forallb isascii s = true ->
  Urllib.unquote s = Utf8.decode_replace (Urllib.unquote_to_bytes s).
Proof.
  intros s H. unfold Urllib.unquote.
  destruct (contains 37 s) eqn:E; cbn [negb].
  - destruct s as [|c s]; [discriminate|].
    rewrite ascii_runs_ascii by (discriminate || assumption).
    cbn [flat_map fst snd]. now rewrite app_nil_r.
  - rewrite unquote_to_bytes_eq, split_no_sep by assumption.
    cbn [hd tl flat_map]. rewrite app_nil_r.
    symmetry. now apply decode_replace_all_ascii.
Qed.

(** The codec of values: what [create_upi_string] does to a value and what
    [parse_qs] does to the text after the [=] sign. *)
Lemma quote_scalar : forall v,
  forallb is_scalar v = true ->
  Urllib.quote v (lit "/") =
  Return (flat_map (Urllib.quoter [47]) (flat_map Utf8.encode_char v)).
Proof.
  intros [|c v] H; [reflexivity|].
  unfold Urllib.quote. rewrite encode_scalar by assumption.
  cbn [bind]. now rewrite quote_from_bytes_eq.
Qed.

Lemma unquote_quoted : forall v,
  forallb is_scalar v = true ->
  Urllib.unquote
    (replace_char 43 32
       (flat_map (Urllib.quoter [47]) (flat_map Utf8.encode_char v))) = v.
Proof.
  intros v H.
  pose proof (quote_chars _ (encode_bytes v H)) as Q.
  rewrite replace_char_id.
  - rewrite unquote_ascii.
    + rewrite unquote_to_bytes_quote by (now apply encode_bytes).
      now apply decode_encode.
    + apply forallb_forall. intros x I. rewrite forallb_forall in Q.
      apply quoted_char_ascii. now apply Q.
  - eapply forallb_not_in; [exact Q|reflexivity].
Qed.

Lemma ascii_scalar : forall v, forallb isascii v = true -> forallb is_scalar v = true.
Proof.
  intros v H. apply forallb_forall. intros x I. rewrite forallb_forall in H.
  apply H in I. apply N.ltb_lt in I. apply is_scalar_spec. lia.
Qed.

Lemma find_none : forall c s, contains c s = false -> find c s = None.
Proof.
  intros c s. induction s as [|x s IH]; simpl; [reflexivity|].
  rewrite orb_false_iff. intros [H1 H2].
  rewrite N.eqb_sym, H1, (IH H2). reflexivity.
Qed.

(** [urlparse] on a payment URI: the query is the text after [upi://pay?]
    when it has no fragment sign and none of the characters that [urlsplit]
    removes. *)
Lemma urlparse_pay : forall nfkc ip q,
  contains 35 q = false -> contains 9 q = false ->
  contains 13 q = false -> contains 10 q = false ->
  Urllib.urlparse nfkc ip (lit "upi://pay?" ++ q) =
  Return (Urllib.mkParse (lit "upi") (lit "pay") [] [] q []).
Proof.
  intros nfkc ip q H35 H9 H13 H10.
  unfold Urllib.urlparse, Urllib.urlsplit.
  change (lstrip Urllib._WHATWG_C0_CONTROL_OR_SPACE (lit "upi://pay?" ++ q))
    with (lit "upi://pay?" ++ q).
  cbn [fold_left Urllib._UNSAFE_URL_BYTES_TO_REMOVE].
  rewrite (remove_char_id 9 (lit "upi://pay?" ++ q)) by (rewrite contains_app, H9; reflexivity).
  rewrite (remove_char_id 13 (lit "upi://pay?" ++ q)) by (rewrite contains_app, H13; reflexivity).
  rewrite (remove_char_id 10 (lit "upi://pay?" ++ q)) by (rewrite contains_app, H10; reflexivity).
  change (find 58 (lit "upi://pay?" ++ q)) with (Some 3%nat).
  change (lit "upi://pay?" ++ q) with (117 :: 112 :: 105 :: 58 :: 47 :: 47 :: 112 :: 97 :: 121 :: 63 :: q).
  cbn [firstn skipn].
  change (isascii 117 && (is_upper 117 || is_lower 117)) with true.
  change (forallb Urllib.in_scheme_chars [117; 112; 105]) with true.
  cbv iota beta.
  change (str_eqb [47; 47] (lit "//")) with true. cbv iota.
  unfold Urllib._splitnetloc.
  assert (D : fold_left
                (fun (delim : nat) (c : N) =>
                   match find_from c 2 (47 :: 47 :: 112 :: 97 :: 121 :: 63 :: q) with
                   | Some wdelim => Nat.min delim wdelim
                   | None => delim
                   end) (lit "/?#") (List.length (47 :: 47 :: 112 :: 97 :: 121 :: 63 :: q)) = 5%nat).
  { unfold find_from. cbn [lit List.map list_ascii_of_string N_of_ascii N_of_digits fold_left skipn].
    cbn. rewrite (find_none 35 q H35). destruct (find 47 q); reflexivity. }
  rewrite D. cbn [firstn skipn Nat.sub].
  change (contains 91 [112; 97; 121]) with false.
  change (contains 93 [112; 97; 121]) with false.
  cbn [andb orb negb bind].
  assert (C35 : contains 35 (63 :: q) = false) by (cbn; exact H35).
  rewrite C35.
  assert (C63 : contains 63 (63 :: q) = true) by reflexivity.
  rewrite C63. cbn [split1]. rewrite N.eqb_refl.
  reflexivity.
Qed.

(* ================================================================= *)
(** ** Reading and writing dictionaries *)

Lemma dict_get_set : forall {V} (d : dict V) k v k',
  dict_get (dict_set d k v) k' = if str_eqb k k' then Some v else dict_get d k'.
Proof.
  intros V d k v k'. induction d as [|[k0 v0] d IH]; simpl.
  - reflexivity.
  - destruct (str_eqb k0 k) eqn:E; simpl.
    + apply str_eqb_eq in E. subst k0. destruct (str_eqb k k'); reflexivity.
    + rewrite IH. destruct (str_eqb k0 k') eqn:E'; [|reflexivity].
      apply str_eqb_eq in E'. subst k0.
      assert (str_eqb k k' = false) as ->; [|reflexivity].
      apply str_eqb_neq. apply str_eqb_neq in E. congruence.
Qed.

Lemma dict_get_none : forall {V} (d : dict V) k,
  dict_get d k = None <-> ~ In k (keys d).
Proof.
  intros V d k. induction d as [|[k0 v0] d IH]; simpl.
  - tauto.
  - destruct (str_eqb k0 k) eqn:E.
    + apply str_eqb_eq in E. split; [discriminate|]. intro H. exfalso. apply H. now left.
    + apply str_eqb_neq in E. rewrite IH. tauto.
Qed.

Lemma dict_set_new : forall {V} (d : dict V) k v,
  ~ In k (keys d) -> dict_set d k v = d ++ [(k, v)].
Proof.
  intros V d k v. induction d as [|[k0 v0] d IH]; simpl; intro H; [reflexivity|].
  destruct (str_eqb k0 k) eqn:E.
  - apply str_eqb_eq in E. exfalso. apply H. now left.
  - rewrite IH; [reflexivity|tauto].
Qed.

Lemma keys_dict_set : forall {V} (d : dict V) k v,
  keys (dict_set d k v) = if existsb (str_eqb k) (keys d) then keys d else keys d ++ [k].
Proof.
  intros V d k v. unfold keys.
  induction d as [|[k0 v0] d IH]; simpl; [reflexivity|].
  destruct (str_eqb k0 k) eqn:E; simpl.
  - apply str_eqb_eq in E. subst. now rewrite str_eqb_refl.
  - assert (str_eqb k k0 = false) as ->.
    { apply str_eqb_neq. apply str_eqb_neq in E. congruence. }
    simpl. rewrite IH.
    destruct (existsb (str_eqb k) (List.map fst d)); reflexivity.
Qed.

Lemma existsb_str_eqb : forall k l, existsb (str_eqb k) l = true <-> In k l.
Proof.
  intros k l. rewrite existsb_exists. split.
  - intros (x & I & E). apply str_eqb_eq in E. now subst.
  - intro I. exists k. split; [assumption|apply str_eqb_refl].
Qed.

Lemma NoDup_dict_set : forall {V} (d : dict V) k v,
  NoDup (keys d) -> NoDup (keys (dict_set d k v)).
Proof.
  intros V d k v H. rewrite keys_dict_set.
  destruct (existsb (str_eqb k) (keys d)) eqn:E; [assumption|].
  apply NoDup_app; [assumption|repeat constructor; simpl; tauto|].
  intros x I [<-|[]]. apply existsb_str_eqb in I. congruence.
Qed.

Lemma dict_get_in : forall {V} (d : dict V) k v,
  NoDup (keys d) -> In (k, v) d -> dict_get d k = Some v.
Proof.
  intros V d k v. induction d as [|[k0 v0] d IH]; simpl; intros N I; [contradiction|].
  inversion N as [|? ? Hn Hd]; subst.
  destruct I as [I|I].
  - inversion I; subst. now rewrite str_eqb_refl.
  - destruct (str_eqb k0 k) eqn:E.
    + apply str_eqb_eq in E. subst. exfalso. apply Hn.
      apply in_map_iff. now exists (k, v).
    + now apply IH.
Qed.

Lemma dict_get_some_in : forall {V} (d : dict V) k v,
  dict_get d k = Some v -> In (k, v) d.
Proof.
  intros V d k v. induction d as [|[k0 v0] d IH]; simpl; [discriminate|].
  destruct (str_eqb k0 k) eqn:E.
  - apply str_eqb_eq in E. intro H. inversion H; subst. now left.
  - intro H. right. now apply IH.
Qed.

(* ================================================================= *)
(** ** The loops of [parse_qs] and of [parse_upi_string] *)

Lemma values_of_app : forall k a b,
  values_of k (a ++ b) = values_of k a ++ values_of k b.
Proof. intros. unfold values_of. now rewrite filter_app, map_app. Qed.

Lemma parse_qs_add_inv : forall d fields nv,
  parse_qs_inv d fields ->
  parse_qs_inv (Urllib.parse_qs_add d nv) (fields ++ [nv]).
Proof.
  intros d fields [n v] [ND G]. unfold Urllib.parse_qs_add. cbn [fst snd].
  split.
  - destruct (dict_get d n); now apply NoDup_dict_set.
  - intro k. rewrite values_of_app.
    unfold values_of at 2. cbn [filter fst].
    pose proof (G n) as Gn.
    destruct (dict_get d n) as [values|] eqn:E; rewrite dict_get_set;
      destruct (str_eqb n k) eqn:Ek.
    + apply str_eqb_eq in Ek. subst k. cbn [List.map snd].
      destruct (values_of n fields); [discriminate|]. inversion Gn; subst. reflexivity.
    + cbn [List.map]. rewrite app_nil_r. apply G.
    + apply str_eqb_eq in Ek. subst k. cbn [List.map snd].
      destruct (values_of n fields); [reflexivity|discriminate].
    + cbn [List.map]. rewrite app_nil_r. apply G.
Qed.

Lemma parse_qs_fold_inv : forall l d fields,
  parse_qs_inv d fields ->
  parse_qs_inv (fold_left Urllib.parse_qs_add l d) (fields ++ l).
Proof.
  induction l as [|nv l IH]; intros d fields H; simpl.
  - now rewrite app_nil_r.
  - replace (fields ++ nv :: l) with ((fields ++ [nv]) ++ l)
      by (now rewrite <- app_assoc).
    apply IH. now apply parse_qs_add_inv.
Qed.

Lemma parse_qs_spec : forall fields,
  parse_qs_inv (fold_left Urllib.parse_qs_add fields []) fields.
Proof.
  intro fields. apply (parse_qs_fold_inv fields [] []).
  split; [constructor|]. intro k. reflexivity.
Qed.

Lemma values_of_in : forall k fields v,
  In v (values_of k fields) -> In (k, v) fields.
Proof.
  intros k fields v H. unfold values_of in H. apply in_map_iff in H.
  destruct H as ([k' v'] & E & I). apply filter_In in I. destruct I as [I F].
  cbn in *. apply str_eqb_eq in F. now subst.
Qed.

Lemma values_of_not_in : forall k fields,
  ~ In k (List.map fst fields) -> values_of k fields = [].
Proof.
  intros k fields H. destruct (values_of k fields) as [|v vs] eqn:E; [reflexivity|].
  exfalso. apply H. apply in_map_iff. exists (k, v). split; [reflexivity|].
  apply values_of_in. rewrite E. now left.
Qed.

(** Every name that [parse_qs] returns has at least one value. *)
Lemma parse_qs_nonempty : forall fields k vs,
  In (k, vs) (fold_left Urllib.parse_qs_add fields []) -> vs <> [].
Proof.
  intros fields k vs I. destruct (parse_qs_spec fields) as [ND G].
  apply (dict_get_in _ _ _ ND) in I. rewrite G in I.
  destruct (values_of k fields); [discriminate|]. inversion I. discriminate.
Qed.

Lemma assign_params_total : forall items acc,
  (forall k vs, In (k, vs) items -> vs <> []) ->
  snd (QrHandler.assign_params items acc) = None.
Proof.
  induction items as [|[k vs] items IH]; intros acc H; simpl; [reflexivity|].
  destruct vs as [|v0 vs].
  - exfalso. apply (H k []); [now left|reflexivity].
  - apply IH. intros k' vs' I. apply (H k' vs'). now right.
Qed.

Lemma app_assign_params : forall items acc,
  App.assign_params items acc =
  match QrHandler.assign_params items acc with
  | (d, None) => Return d
  | (_, Some e) => Raise e
  end.
Proof.
  induction items as [|[k vs] items IH]; intro acc; simpl; [reflexivity|].
  destruct vs as [|v0 vs]; [reflexivity|]. apply IH.
Qed.

Lemma assign_params_ok : forall fields,
  QrHandler.assign_params (fold_left Urllib.parse_qs_add fields []) [] =
  (record_of_fields fields, None).
Proof.
  intro fields. unfold record_of_fields.
  pose proof (assign_params_total (fold_left Urllib.parse_qs_add fields []) []
                (parse_qs_nonempty fields)) as H.
  destruct (QrHandler.assign_params _ _) as [d o]. cbn in *. now subst.
Qed.

(* ================================================================= *)
(** ** The console *)

Lemma encode_from_surrogate_free : forall s pos,
  existsb Utf8.is_surrogate s = false ->
  Utf8.encode_from pos s = Return (flat_map Utf8.encode_char s).
Proof.
  induction s as [|c s IH]; intros pos H; [reflexivity|].
  cbn [existsb] in H. apply orb_false_iff in H. destruct H as [Hc Hs].
  cbn [Utf8.encode_from flat_map]. rewrite Hc, (IH _ Hs). reflexivity.
Qed.

Lemma encode_from_surrogate : forall s pos,
  existsb Utf8.is_surrogate s = true ->
  exists msg, Utf8.encode_from pos s = Raise (UnicodeEncodeError msg).
Proof.
  induction s as [|c s IH]; intros pos H; [discriminate|].
  cbn [Utf8.encode_from]. destruct (Utf8.is_surrogate c) eqn:Hc.
  - eexists. reflexivity.
  - cbn [existsb] in H. rewrite Hc in H. cbn [orb] in H.
    destruct (IH (S pos) H) as [msg ->]. eexists. reflexivity.
Qed.

Lemma existsb_surrogate_app : forall a b,
  existsb Utf8.is_surrogate a = false ->
  existsb Utf8.is_surrogate b = false ->
  existsb Utf8.is_surrogate (a ++ b) = false.
Proof. intros a b Ha Hb. now rewrite existsb_app, Ha, Hb. Qed.

Lemma small_not_surrogate : forall c, c < 128 -> Utf8.is_surrogate c = false.
Proof.
  intros c H. unfold Utf8.is_surrogate.
  destruct (N.leb_spec 0xD800 c); [lia|reflexivity].
Qed.

Lemma digits_fuel_no_surrogate : forall fuel n acc,
  existsb Utf8.is_surrogate acc = false ->
  existsb Utf8.is_surrogate (digits_fuel fuel n acc) = false.
Proof.
  induction fuel as [|fuel IH]; intros n acc H; [exact H|].
  cbn [digits_fuel].
  assert (A : existsb Utf8.is_surrogate ((48 + n mod 10) :: acc) = false).
  { cbn [existsb]. rewrite H, orb_false_r. apply small_not_surrogate.
    pose proof (N.mod_upper_bound n 10 ltac:(discriminate)) as B.
    revert B. generalize (n mod 10). intros m B. lia. }
  destruct (n <? 10); [exact A|]. now apply IH.
Qed.

Lemma str_of_int_no_surrogate : forall n,
  existsb Utf8.is_surrogate (str_of_int n) = false.
Proof. intro n. now apply digits_fuel_no_surrogate. Qed.

Lemma hexdigit_lower_no_surrogate : forall x,
  x < 16 -> Utf8.is_surrogate (Utf8.hexdigit_lower x) = false.
Proof.
  intros x H. apply small_not_surrogate. unfold Utf8.hexdigit_lower.
  destruct (x <? 10); lia.
Qed.

Lemma surrogates_not_allowed_text : forall c start stop,
  Utf8.is_surrogate c = true ->
  existsb Utf8.is_surrogate (Utf8.surrogates_not_allowed c start stop) = false.
Proof.
  intros c start stop Hc. unfold Utf8.surrogates_not_allowed.
  assert (B : c < 16 * 4096).
  { unfold Utf8.is_surrogate in Hc. apply andb_true_iff in Hc.
    destruct Hc as [_ Hc]. apply N.leb_le in Hc. lia. }
  destruct (Nat.eqb stop (S start)).
  - repeat apply existsb_surrogate_app; try reflexivity;
      try apply str_of_int_no_surrogate.
    cbn [existsb]. rewrite !hexdigit_lower_no_surrogate; [reflexivity| | | |].
    + apply N.mod_upper_bound. discriminate.
    + apply N.mod_upper_bound. discriminate.
    + apply N.mod_upper_bound. discriminate.
    + apply N.Div0.div_lt_upper_bound. rewrite N.mul_comm. exact B.
  - repeat apply existsb_surrogate_app; try reflexivity;
      apply str_of_int_no_surrogate.
Qed.

(** The error of the encoder can itself be printed. *)
Lemma encode_from_error : forall s pos e,
  Utf8.encode_from pos s = Raise e -> console_error e.
Proof.
  induction s as [|c s IH]; intros pos e H; [discriminate|].
  cbn [Utf8.encode_from] in H. destruct (Utf8.is_surrogate c) eqn:Hc.
  - injection H as <-. eexists. split; [reflexivity|].
    now apply surrogates_not_allowed_text.
  - destruct (Utf8.encode_from (S pos) s) as [bs|e'] eqn:E; [discriminate|].
    cbn [bind] in H. injection H as <-. exact (IH _ _ E).
Qed.

Lemma write_text_ok : forall p text st,
  existsb Utf8.is_surrogate text = false ->
  QrHandler.write_text p text st = QrHandler.write_line p st.
Proof.
  intros p text st H. unfold QrHandler.write_text, Utf8.encode.
  now rewrite (encode_from_surrogate_free _ _ H).
Qed.

Lemma write_text_fails : forall p text st,
  existsb Utf8.is_surrogate text = true ->
  exists e, console_error e /\ QrHandler.write_text p text st = (Raise e, st).
Proof.
  intros p text st H. unfold QrHandler.write_text, Utf8.encode.
  destruct (Utf8.encode_from 0 text) as [bs|e] eqn:E.
  - destruct (encode_from_surrogate _ O H) as [msg Hm]. congruence.
  - exists e. split; [exact (encode_from_error _ _ _ E)|reflexivity].
Qed.

Lemma print_line_ok : forall text st,
  existsb Utf8.is_surrogate text = false ->
  QrHandler.print (QrHandler.Line text) st
  = QrHandler.write_line (QrHandler.Line text) st.
Proof. intros text st H. now apply write_text_ok. Qed.

Lemma print_exn_ok : forall prefix e st,
  existsb Utf8.is_surrogate (prefix ++ str_exn e) = false ->
  QrHandler.print (QrHandler.LineExn prefix e) st
  = QrHandler.write_line (QrHandler.LineExn prefix e) st.
Proof. intros prefix e st H. now apply write_text_ok. Qed.

(** What the console raised can be reported on the console. *)
Lemma print_console_error : forall prefix e st,
  existsb Utf8.is_surrogate prefix = false ->
  console_error e ->
  QrHandler.print (QrHandler.LineExn prefix e) st
  = QrHandler.write_line (QrHandler.LineExn prefix e) st.
Proof.
  intros prefix e st Hp (msg & -> & Hm). apply print_exn_ok.
  now apply existsb_surrogate_app.
Qed.

Lemma write_text_only_prints : forall p text,
  only_prints (QrHandler.write_text p text).
Proof.
  intros p text st.
  destruct (existsb Utf8.is_surrogate text) eqn:H.
  - destruct (write_text_fails p text st H) as (e & He & ->).
    exists (QrHandler.stdout st). right. exists e. split; [exact He|].
    now destruct st.
  - rewrite (write_text_ok p text st H). eexists. left. reflexivity.
Qed.

Lemma print_only_prints : forall p, only_prints (QrHandler.print p).
Proof.
  intros [text|prefix e|prefix d]; try apply write_text_only_prints.
  intro st. eexists. left. reflexivity.
Qed.

Lemma seq_only_prints : forall m k,
  only_prints m -> only_prints k -> only_prints (bindM m (fun _ => k)).
Proof.
  intros m k Hm Hk st. unfold bindM.
  destruct (Hm st) as [out [->|(e & He & ->)]].
  - destruct (Hk (QrHandler.mkState (QrHandler.upi_data st) (QrHandler.files st) out))
      as [out' [->|(e & He & ->)]]; exists out'; [now left|].
    right. now exists e.
  - exists out. right. now exists e.
Qed.

Lemma print_details_only_prints : forall d, only_prints (QrHandler.print_details d).
Proof.
  intro d. unfold QrHandler.print_details.
  apply seq_only_prints; [apply print_only_prints|].
  apply seq_only_prints; [|apply print_only_prints].
  assert (G : forall l m0, only_prints m0 ->
            only_prints (fold_left
              (fun m (kv : pystr * pystr) =>
                 bindM m (fun _ => QrHandler.print (QrHandler.Line (fst kv ++ lit ": " ++ snd kv))))
              l m0)).
  { induction l as [|kv l IH]; intros m0 H0; cbn [fold_left]; [assumption|].
    apply IH. apply seq_only_prints; [assumption|apply print_only_prints]. }
  apply G. intro st. destruct st. eexists. left. reflexivity.
Qed.

(* ================================================================= *)
(** ** [parse_upi_string], case by case *)

Section ParseCases.

Variable X : Externals.

Lemma handler_parse_not_upi : forall s st,
  startswith s (lit "upi://") = false ->
  QrHandler.parse_upi_string X s st =
  (Return [],
   QrHandler.mkState (QrHandler.upi_data st) (QrHandler.files st)
     (QrHandler.stdout st ++ [QrHandler.Line (lit "Not a UPI payment string")])).
Proof.
  intros s st H. unfold QrHandler.parse_upi_string, QrHandler.parse_upi_string_aliased.
  rewrite H. reflexivity.
Qed.

(** When [urlparse] raises, everything hangs on the [print] of the [except]
    branch. *)
Lemma handler_parse_raise : forall s st e,
  startswith s (lit "upi://") = true ->
  Urllib.urlparse (normalize_NFKC X) (ip_address X) s = Raise e ->
  QrHandler.parse_upi_string X s st =
  match Utf8.encode (lit "Error parsing UPI string: " ++ str_exn e) with
  | Return _ =>
      (Return [],
       QrHandler.mkState (QrHandler.upi_data st) (QrHandler.files st)
         (QrHandler.stdout st
            ++ [QrHandler.LineExn (lit "Error parsing UPI string: ") e]))
  | Raise e' => (Raise e', st)
  end.
Proof.
  intros s st e H U. unfold QrHandler.parse_upi_string, QrHandler.parse_upi_string_aliased.
  rewrite H, U. cbn [negb]. unfold bindM, QrHandler.print, QrHandler.write_text.
  destruct (Utf8.encode (lit "Error parsing UPI string: " ++ str_exn e));
    reflexivity.
Qed.

Lemma handler_parse_raise_ok : forall s st e,
  startswith s (lit "upi://") = true ->
  Urllib.urlparse (normalize_NFKC X) (ip_address X) s = Raise e ->
  existsb Utf8.is_surrogate (str_exn e) = false ->
  QrHandler.parse_upi_string X s st =
  (Return [],
   QrHandler.mkState (QrHandler.upi_data st) (QrHandler.files st)
     (QrHandler.stdout st ++ [QrHandler.LineExn (lit "Error parsing UPI string: ") e])).
Proof.
  intros s st e H U P. rewrite (handler_parse_raise s st e H U).
  unfold Utf8.encode. rewrite encode_from_surrogate_free; [reflexivity|].
  now apply existsb_surrogate_app.
Qed.

Lemma handler_parse_raise_fails : forall s st e,
  startswith s (lit "upi://") = true ->
  Urllib.urlparse (normalize_NFKC X) (ip_address X) s = Raise e ->
  existsb Utf8.is_surrogate (str_exn e) = true ->
  exists msg,
    QrHandler.parse_upi_string X s st = (Raise (UnicodeEncodeError msg), st).
Proof.
  intros s st e H U P. rewrite (handler_parse_raise s st e H U).
  unfold Utf8.encode.
  destruct (encode_from_surrogate (lit "Error parsing UPI string: " ++ str_exn e) O)
    as [msg ->]; [|now exists msg].
  rewrite existsb_app, P. apply orb_true_r.
Qed.

Lemma handler_parse_aliased_upi : forall s st parsed,
  startswith s (lit "upi://") = true ->
  Urllib.urlparse (normalize_NFKC X) (ip_address X) s = Return parsed ->
  let d := record_of_fields (Urllib.parse_qsl (Urllib.p_query parsed) false) in
  exists out,
    QrHandler.parse_upi_string_aliased X s st =
    (Return (d, true), QrHandler.mkState d (QrHandler.files st) out).
Proof.
  intros s st parsed H U d. unfold QrHandler.parse_upi_string_aliased.
  rewrite H, U. cbn [negb]. unfold Urllib.parse_qs. rewrite assign_params_ok.
  fold d. unfold bindM at 1. unfold QrHandler.set_upi_data, modify.
  unfold try_except, bindM at 1.
  destruct (print_details_only_prints d
              (QrHandler.mkState d (QrHandler.files st) (QrHandler.stdout st)))
    as [out [E|(e & He & E)]];
    cbn [QrHandler.upi_data QrHandler.files] in E; rewrite E.
  - now exists out.
  - unfold bindM. rewrite print_console_error; [|reflexivity|exact He].
    eexists. reflexivity.
Qed.

Lemma handler_parse_upi : forall s st parsed,
  startswith s (lit "upi://") = true ->
  Urllib.urlparse (normalize_NFKC X) (ip_address X) s = Return parsed ->
  let d := record_of_fields (Urllib.parse_qsl (Urllib.p_query parsed) false) in
  exists out,
    QrHandler.parse_upi_string X s st =
    (Return d, QrHandler.mkState d (QrHandler.files st) out).
Proof.
  intros s st parsed H U d.
  destruct (handler_parse_aliased_upi s st parsed H U) as [out E].
  exists out. unfold QrHandler.parse_upi_string, bindM. rewrite E. reflexivity.
Qed.

Lemma app_parse_not_upi : forall s,
  startswith s (lit "upi://") = false ->
  App.parse_upi_string X s = (None, Some (lit "Not a UPI payment string")).
Proof. intros s H. unfold App.parse_upi_string. rewrite H. reflexivity. Qed.

Lemma app_parse_raise : forall s e,
  startswith s (lit "upi://") = true ->
  Urllib.urlparse (normalize_NFKC X) (ip_address X) s = Raise e ->
  App.parse_upi_string X s = (None, Some (str_exn e)).
Proof. intros s e H U. unfold App.parse_upi_string. rewrite H, U. reflexivity. Qed.

Lemma app_parse_upi : forall s parsed,
  startswith s (lit "upi://") = true ->
  Urllib.urlparse (normalize_NFKC X) (ip_address X) s = Return parsed ->
  App.parse_upi_string X s =
  (Some (record_of_fields (Urllib.parse_qsl (Urllib.p_query parsed) false)), None).
Proof.
  intros s parsed H U. unfold App.parse_upi_string. rewrite H, U.
  cbn [negb bind]. unfold Urllib.parse_qs.
  rewrite app_assign_params.
  change App.param_mapping_parse with QrHandler.param_mapping_parse.
  rewrite assign_params_ok. reflexivity.
Qed.

End ParseCases.

(* ================================================================= *)
(** ** Other schemes, failures inside the parser, and state *)

(** C6, as the code has it. For a text that does not begin with [upi://]
    the test of the scheme comes first, whatever follows and before anything
    is parsed. The web codec fails: it returns the error [Not a UPI payment
    string] in place of a record. The handler does not fail: it prints that
    message and returns the empty record, leaving [self.upi_data] and the
    files as they were. *)
Theorem parse_rejects_other_schemes : forall (X : Externals) (text : pystr),
  startswith text (lit "upi://") = false ->
  App.parse_upi_string X text = (None, Some (lit "Not a UPI payment string"))
  /\ forall st,
       QrHandler.parse_upi_string X text st =
       (Return [],
        QrHandler.mkState (QrHandler.upi_data st) (QrHandler.files st)
          (QrHandler.stdout st
             ++ [QrHandler.Line (lit "Not a UPI payment string")])).
Proof.
  intros X text H. split.
  - now apply app_parse_not_upi.
  - intro st. now apply handler_parse_not_upi.
Qed.

Lemma parse_rejects_other_schemes_witness :
  App.parse_upi_string toy_externals (lit "http://[pay?pa=a&am=1")
  = (None, Some (lit "Not a UPI payment string"))
  /\ forall st,
       QrHandler.parse_upi_string toy_externals (lit "http://[pay?pa=a&am=1") st =
       (Return [],
        QrHandler.mkState (QrHandler.upi_data st) (QrHandler.files st)
          (QrHandler.stdout st
             ++ [QrHandler.Line (lit "Not a UPI payment string")])).
Proof.
  apply (parse_rejects_other_schemes toy_externals (lit "http://[pay?pa=a&am=1")).
  reflexivity.
Defined.

(** C6, as the claim words it, fails for the handler: a text of another
    scheme gives no error but the empty record, the value that a text of the
    scheme gives when it has no parameters. *)
Lemma handler_returns_for_other_scheme :
  fst (QrHandler.parse_upi_string toy_externals (lit "http://pay?pa=a@b")
         (QrHandler.__init__ [] [])) = Return []
  /\ fst (QrHandler.parse_upi_string toy_externals (lit "upi://pay")
            (QrHandler.__init__ [] [])) = Return [].
Proof. split; reflexivity. Qed.

(** C10, the handler against the claim: the [print] of the [except] branch
    stands outside any [try] and can itself raise. On [upi://] followed by a
    lone surrogate and a fullwidth solidus, [urlparse] raises a [ValueError]
    whose text quotes the network location; the console cannot encode that
    text, and the [UnicodeEncodeError] leaves [parse_upi_string]. The web
    codec, which prints nothing, returns the text of the [ValueError]. *)
Theorem handler_parse_raises_in_except_branch : forall st,
  QrHandler.parse_upi_string fullwidth_externals (lit "upi://" ++ [0xD800; 0xFF0F]) st
  = (Raise (UnicodeEncodeError
              (lit "'utf-8' codec can't encode character '\ud800' in position 34: surrogates not allowed")),
     st)
  /\ App.parse_upi_string fullwidth_externals (lit "upi://" ++ [0xD800; 0xFF0F])
     = (None,
        Some (lit "netloc '" ++ [0xD800; 0xFF0F]
                ++ lit "' contains invalid characters under NFKC normalization")).
Proof. intro st. split; reflexivity. Qed.

(** C9, as the code has it. The results of the codec depend only on the
    argument: [parse_upi_string] and [create_upi_string] return the same
    result from any two states of the handler, so whatever codec calls come
    in between. [create_upi_string] keeps no state; [parse_upi_string]
    leaves the files alone, but it does keep state: it stores the record in
    [self.upi_data] and prints. The functions of the web codec take no
    state at all. *)
Theorem codec_results_depend_only_on_input : forall (X : Externals),
  (forall s st1 st2,
     fst (QrHandler.parse_upi_string X s st1)
     = fst (QrHandler.parse_upi_string X s st2))
  /\ (forall r st1 st2,
        fst (QrHandler.create_upi_string r st1)
        = fst (QrHandler.create_upi_string r st2))
  /\ (forall r st, snd (QrHandler.create_upi_string r st) = st)
  /\ (forall s st,
        QrHandler.files (snd (QrHandler.parse_upi_string X s st))
        = QrHandler.files st).
Proof.
  intro X. repeat split.
  - intros s st1 st2.
    destruct (startswith s (lit "upi://")) eqn:H.
    + destruct (Urllib.urlparse (normalize_NFKC X) (ip_address X) s)
        as [parsed|e] eqn:U.
      * destruct (handler_parse_upi X s st1 parsed H U) as [o1 ->].
        destruct (handler_parse_upi X s st2 parsed H U) as [o2 ->].
        reflexivity.
      * rewrite !(handler_parse_raise X s _ e H U).
        now destruct (Utf8.encode _).
    + now rewrite !(handler_parse_not_upi X s _ H).
  - intros s st.
    destruct (startswith s (lit "upi://")) eqn:H.
    + destruct (Urllib.urlparse (normalize_NFKC X) (ip_address X) s)
        as [parsed|e] eqn:U.
      * destruct (handler_parse_upi X s st parsed H U) as [o1 ->]. reflexivity.
      * rewrite (handler_parse_raise X s _ e H U).
        now destruct (Utf8.encode _).
    + now rewrite (handler_parse_not_upi X s _ H).
Qed.

(** C9, as the claim words it, fails: a call of [parse_upi_string] leaves the
    record it parsed in [self.upi_data]. *)
Lemma parse_retains_state :
  QrHandler.upi_data
    (snd (QrHandler.parse_upi_string toy_externals (lit "upi://pay?am=500")
            (QrHandler.__init__ [] [])))
  = [(lit "amount", lit "500")]
  /\ QrHandler.upi_data (QrHandler.__init__ [] []) = [].
Proof. split; reflexivity. Qed.

(* ================================================================= *)
(** ** Fields of the query: bare keys and repeated keys *)

Lemma parse_qsl_field_no_equals : forall p,
  contains 61 p = false -> Urllib.parse_qsl_field false p = [].
Proof.
  intros p H. unfold Urllib.parse_qsl_field.
  destruct p as [|c p]; [reflexivity|].
  now rewrite split1_no_sep.
Qed.

Lemma parse_qsl_split : forall q,
  Urllib.parse_qsl q false =
  flat_map (Urllib.parse_qsl_field false) (split 38 q).
Proof. intros [|c q]; reflexivity. Qed.

(** C7, as the code has it. A pair of the query with no [=] sign raises no
    error and is dropped, as a pair with an empty value is: the record is the
    one that the other pairs give. *)
Theorem pair_without_equals_is_dropped :
  forall (X : Externals) (text : pystr) parsed (before after : list pystr)
         (pair : pystr),
  startswith text (lit "upi://") = true ->
  Urllib.urlparse (normalize_NFKC X) (ip_address X) text = Return parsed ->
  split 38 (Urllib.p_query parsed) = before ++ pair :: after ->
  contains 61 pair = false ->
  App.parse_upi_string X text
  = (Some (record_of_fields
             (flat_map (Urllib.parse_qsl_field false) (before ++ after))), None)
  /\ forall st,
       fst (QrHandler.parse_upi_string X text st)
       = Return (record_of_fields
                   (flat_map (Urllib.parse_qsl_field false) (before ++ after))).
Proof.
  intros X text parsed before after pair H U S E.
  assert (F : Urllib.parse_qsl (Urllib.p_query parsed) false
              = flat_map (Urllib.parse_qsl_field false) (before ++ after)).
  { rewrite parse_qsl_split, S, !flat_map_app. cbn [flat_map].
    now rewrite parse_qsl_field_no_equals. }
  split.
  - rewrite (app_parse_upi X text parsed H U), F. reflexivity.
  - intro st. destruct (handler_parse_upi X text st parsed H U) as [out ->].
    cbn [fst]. now rewrite F.
Qed.

Lemma pair_without_equals_is_dropped_witness :
  App.parse_upi_string toy_externals (lit "upi://pay?pa&am=5")
  = (Some [(lit "amount", lit "5")], None)
  /\ forall st,
       fst (QrHandler.parse_upi_string toy_externals (lit "upi://pay?pa&am=5") st)
       = Return [(lit "amount", lit "5")].
Proof.
  apply (pair_without_equals_is_dropped toy_externals (lit "upi://pay?pa&am=5")
           (Urllib.mkParse (lit "upi") (lit "pay") [] [] (lit "pa&am=5") [])
           [] [lit "am=5"] (lit "pa")); reflexivity.
Defined.

(** C7, as the claim words it, fails: the key of a pair with no [=] sign is
    not in the record. *)
Lemma bare_key_is_absent :
  App.parse_upi_string toy_externals (lit "upi://pay?pa") = (Some [], None)
  /\ fst (QrHandler.parse_upi_string toy_externals (lit "upi://pay?pa")
            (QrHandler.__init__ [] [])) = Return [].
Proof. split; reflexivity. Qed.

Lemma assign_params_get : forall items acc target v0,
  (forall k vs, In (k, vs) items -> vs <> []) ->
  (forall k vs, In (k, vs) items -> semantic_name k = target ->
                hd_error vs = Some v0) ->
  (dict_get acc target = Some v0
   \/ exists k vs, In (k, vs) items /\ semantic_name k = target) ->
  dict_get (fst (QrHandler.assign_params items acc)) target = Some v0.
Proof.
  induction items as [|[k vs] items IH]; intros acc target v0 Hne Hv Hex.
  - simpl. destruct Hex as [H|(k & vs & [] & _)]. exact H.
  - simpl. destruct vs as [|v vs].
    { exfalso. apply (Hne k []); [now left|reflexivity]. }
    apply IH.
    + intros k' vs' I. apply (Hne k' vs'). now right.
    + intros k' vs' I. apply Hv. now right.
    + fold (semantic_name k). rewrite dict_get_set.
      destruct (str_eqb (semantic_name k) target) eqn:E.
      * left. apply str_eqb_eq in E.
        specialize (Hv k (v :: vs) (or_introl eq_refl) E). exact Hv.
      * destruct Hex as [H|(k' & vs' & [I|I] & Hs)].
        -- now left.
        -- inversion I; subst. apply str_eqb_neq in E. contradiction.
        -- right. now exists k', vs'.
Qed.

(** C2, as the code has it. When a key occurs more than once in the query,
    the record holds the value of its first occurrence with a value that is
    not empty; later occurrences are ignored. (Two different keys of the
    query with the same semantic name, such as [pa] and [payee_address], are
    another matter, so the statement asks that there be none for this key.) *)
Theorem first_occurrence_wins :
  forall (X : Externals) (text : pystr) parsed
         (earlier later : list (pystr * pystr)) (key value : pystr),
  startswith text (lit "upi://") = true ->
  Urllib.urlparse (normalize_NFKC X) (ip_address X) text = Return parsed ->
  Urllib.parse_qsl (Urllib.p_query parsed) false
  = earlier ++ (key, value) :: later ->
  ~ In key (List.map fst earlier) ->
  (forall key', In key' (List.map fst (earlier ++ later)) ->
                semantic_name key' = semantic_name key -> key' = key) ->
  exists record,
    App.parse_upi_string X text = (Some record, None)
    /\ (forall st, fst (QrHandler.parse_upi_string X text st) = Return record)
    /\ dict_get record (semantic_name key) = Some value.
Proof.
  intros X text parsed earlier later key value H U F Hfirst Hsem.
  exists (record_of_fields (Urllib.parse_qsl (Urllib.p_query parsed) false)).
  split; [now apply app_parse_upi|].
  split.
  { intro st. destruct (handler_parse_upi X text st parsed H U) as [out ->].
    reflexivity. }
  rewrite F. unfold record_of_fields.
  set (fields := earlier ++ (key, value) :: later).
  destruct (parse_qs_spec fields) as [ND G].
  assert (Vk : exists rest, values_of key fields = value :: rest).
  { unfold fields. rewrite values_of_app, (values_of_not_in key earlier Hfirst).
    unfold values_of. cbn [filter fst app]. rewrite str_eqb_refl.
    cbn [List.map snd]. now eexists. }
  destruct Vk as [rest Vk].
  apply assign_params_get.
  - apply parse_qs_nonempty.
  - intros k vs I Hs.
    apply (dict_get_in _ _ _ ND) in I. rewrite G in I.
    assert (k = key) as ->.
    { destruct (values_of k fields) as [|v0 vs0] eqn:Ev; [discriminate|].
      assert (Ik : In (k, v0) fields) by (apply values_of_in; rewrite Ev; now left).
      unfold fields in Ik. apply in_app_or in Ik.
      destruct Ik as [Ik|[Ik|Ik]].
      - apply Hsem; [|exact Hs]. rewrite map_app. apply in_or_app. left.
        apply in_map_iff. now exists (k, v0).
      - now inversion Ik.
      - apply Hsem; [|exact Hs]. rewrite map_app. apply in_or_app. right.
        apply in_map_iff. now exists (k, v0). }
    rewrite Vk in I. inversion I. reflexivity.
  - right. exists key, (value :: rest). split; [|reflexivity].
    apply dict_get_some_in. now rewrite G, Vk.
Qed.

Lemma first_occurrence_wins_witness :
  exists record,
    App.parse_upi_string toy_externals (lit "upi://pay?am=100&pn=Shop&am=200")
    = (Some record, None)
    /\ (forall st,
          fst (QrHandler.parse_upi_string toy_externals
                 (lit "upi://pay?am=100&pn=Shop&am=200") st) = Return record)
    /\ dict_get record (lit "amount") = Some (lit "100").
Proof.
  apply (first_occurrence_wins toy_externals
           (lit "upi://pay?am=100&pn=Shop&am=200")
           (Urllib.mkParse (lit "upi") (lit "pay") [] []
              (lit "am=100&pn=Shop&am=200") [])
           [] [(lit "pn", lit "Shop"); (lit "am", lit "200")]
           (lit "am") (lit "100")).
  - reflexivity.
  - reflexivity.
  - reflexivity.
  - simpl. tauto.
  - intros key' [<-|[<-|[]]] E.
    + vm_compute in E. discriminate.
    + reflexivity.
Defined.

(** C2, as the claim words it, fails: of two values for [am] the record
    holds the first, not the last. *)
Lemma last_occurrence_does_not_win :
  App.parse_upi_string toy_externals (lit "upi://pay?am=100&am=200")
  = (Some [(lit "amount", lit "100")], None)
  /\ fst (QrHandler.parse_upi_string toy_externals (lit "upi://pay?am=100&am=200")
            (QrHandler.__init__ [] []))
     = Return [(lit "amount", lit "100")].
Proof. split; reflexivity. Qed.

(* ================================================================= *)
(** ** The round trip through [create_upi_string] and [parse_upi_string] *)

Ltac recognized H :=
  cbn in H;
  repeat (destruct H as [H|H]; [subst|]); try contradiction.

Lemma semantic_short : forall k,
  In k recognized_fields -> semantic_name (short_key k) = k.
Proof. intros k H. recognized H; reflexivity. Qed.

Lemma short_key_chars : forall k,
  In k recognized_fields ->
  forallb quoted_char (short_key k) = true
  /\ Urllib.unquote (replace_char 43 32 (short_key k)) = short_key k.
Proof. intros k H. recognized H; split; reflexivity. Qed.

Lemma short_key_inj : forall k1 k2,
  In k1 recognized_fields -> In k2 recognized_fields ->
  short_key k1 = short_key k2 -> k1 = k2.
Proof.
  intros k1 k2 H1 H2 E.
  rewrite <- (semantic_short k1 H1), <- (semantic_short k2 H2). now rewrite E.
Qed.

Lemma quoted_not_nil : forall v,
  forallb is_scalar v = true -> v <> [] -> quoted v <> [].
Proof.
  intros [|c v] H Hv; [congruence|]. unfold quoted. cbn [flat_map].
  intro E. rewrite flat_map_app in E. apply app_eq_nil in E. destruct E as [E _].
  assert (Utf8.encode_char c <> []) as Hc.
  { unfold Utf8.encode_char.
    destruct (c <? 128); [discriminate|].
    destruct (c <? 2048); [discriminate|].
    destruct (c <? 65536); discriminate. }
  destruct (Utf8.encode_char c) as [|b bs]; [congruence|].
  cbn [flat_map] in E. apply app_eq_nil in E. destruct E as [E _].
  unfold Urllib.quoter in E. destruct (_ || _); discriminate.
Qed.

Lemma quoted_chars : forall v,
  forallb is_scalar v = true -> forallb quoted_char (quoted v) = true.
Proof. intros v H. apply quote_chars. now apply encode_bytes. Qed.

Lemma quoted_char_not : forall s c,
  forallb quoted_char s = true -> quoted_char c = false -> contains c s = false.
Proof. intros s c. apply forallb_not_in. Qed.

Section Fields.

Variable r : dict pystr.
Hypothesis r_values : forall k v, In (k, v) r ->
  In k recognized_fields /\ v <> [] /\ forallb is_scalar v = true.

Lemma handler_query_parts : QrHandler.query_parts_of r = Return (List.map query_part r).
Proof.
  induction r as [|[k v] d IH]; [reflexivity|].
  cbn [QrHandler.query_parts_of List.map].
  destruct (r_values k v (or_introl eq_refl)) as (_ & _ & Hs).
  rewrite quote_scalar by assumption. cbn [bind].
  rewrite IH; [reflexivity|]. intros k' v' I. apply r_values. now right.
Qed.

Lemma app_query_parts : App.query_parts_of r = Return (List.map query_part r).
Proof.
  induction r as [|[k v] d IH]; [reflexivity|].
  cbn [App.query_parts_of List.map].
  destruct (r_values k v (or_introl eq_refl)) as (_ & Hv & Hs).
  destruct v as [|c v]; [congruence|].
  rewrite quote_scalar by assumption. cbn [bind].
  rewrite IH; [reflexivity|]. intros k' v' I. apply r_values. now right.
Qed.

Lemma query_part_chars : forall kv,
  In kv r -> forallb query_char (query_part kv) = true.
Proof.
  intros [k v] I. destruct (r_values k v I) as (Hk & _ & Hs).
  unfold query_part. cbn [fst snd]. rewrite !forallb_app.
  destruct (short_key_chars k Hk) as [Hc _].
  assert (W : forall s, forallb quoted_char s = true -> forallb query_char s = true).
  { intros s Hq. apply forallb_forall. intros x Ix. rewrite forallb_forall in Hq.
    unfold query_char. now rewrite (Hq x Ix). }
  rewrite (W _ Hc), (W _ (quoted_chars v Hs)). reflexivity.
Qed.

Lemma query_part_field : forall kv,
  In kv r ->
  Urllib.parse_qsl_field false (query_part kv) = [(short_key (fst kv), snd kv)].
Proof.
  intros [k v] I. destruct (r_values k v I) as (Hk & Hv & Hs).
  destruct (short_key_chars k Hk) as [Hc Hu].
  unfold query_part. cbn [fst snd].
  unfold Urllib.parse_qsl_field.
  change (lit "=" ++ quoted v) with (61 :: quoted v).
  rewrite split1_app_sep by (now apply (quoted_char_not _ 61 Hc)).
  destruct (short_key k ++ 61 :: quoted v) eqn:E.
  { apply app_eq_nil in E. destruct E as [_ E]. discriminate. }
  pose proof (quoted_not_nil v Hs Hv) as Hq.
  destruct (quoted v) eqn:Q; [congruence|]. rewrite <- Q.
  rewrite Hu. unfold quoted. now rewrite unquote_quoted.
Qed.

Lemma query_part_no_amp : forall kv,
  In kv r -> contains 38 (query_part kv) = false.
Proof.
  intros [k v] I. destruct (r_values k v I) as (Hk & _ & Hs).
  destruct (short_key_chars k Hk) as [Hc _].
  unfold query_part. cbn [fst snd]. rewrite !contains_app.
  rewrite (quoted_char_not _ 38 Hc) by reflexivity.
  rewrite (quoted_char_not _ 38 (quoted_chars v Hs)) by reflexivity.
  reflexivity.
Qed.

End Fields.

Lemma join_chars : forall (p : N -> bool) sep parts,
  forallb p sep = true ->
  Forall (fun part => forallb p part = true) parts ->
  forallb p (join sep parts) = true.
Proof.
  intros p sep parts Hsep H. induction H as [|x l Hx Hl IH]; [reflexivity|].
  destruct l as [|y l]; [exact Hx|].
  change (join sep (x :: y :: l)) with (x ++ sep ++ join sep (y :: l)).
  now rewrite !forallb_app, Hx, Hsep, IH.
Qed.

Lemma query_char_not : forall s c,
  forallb query_char s = true -> query_char c = false -> contains c s = false.
Proof. intros s c. apply forallb_not_in. Qed.

(** [parse_qs] on fields with distinct names: every name gets the list of
    its one value, in the order of the fields. *)
Lemma parse_qs_distinct : forall fields acc,
  NoDup (keys acc ++ List.map fst fields) ->
  fold_left Urllib.parse_qs_add fields acc =
  acc ++ List.map (fun f => (fst f, [snd f])) fields.
Proof.
  induction fields as [|[n v] fields IH]; intros acc ND; simpl.
  - now rewrite app_nil_r.
  - assert (Hn : ~ In n (keys acc)).
    { intro I. apply NoDup_remove_2 in ND. apply ND. apply in_or_app. now left. }
    unfold Urllib.parse_qs_add at 2. cbn [fst snd].
    rewrite (proj2 (dict_get_none acc n) Hn), dict_set_new by assumption.
    rewrite IH.
    + now rewrite <- app_assoc.
    + unfold keys. rewrite map_app. cbn [List.map fst].
      rewrite <- app_assoc. exact ND.
Qed.

Lemma assign_params_distinct : forall (r acc : dict pystr),
  (forall k v, In (k, v) r -> In k recognized_fields) ->
  NoDup (keys acc ++ keys r) ->
  QrHandler.assign_params
    (List.map (fun kv => (short_key (fst kv), [snd kv])) r) acc
  = (acc ++ r, None).
Proof.
  induction r as [|[k v] r IH]; intros acc Hk ND; simpl.
  - now rewrite app_nil_r.
  - assert (Hn : ~ In k (keys acc)).
    { intro I. apply NoDup_remove_2 in ND. apply ND. apply in_or_app. now left. }
    fold (semantic_name (short_key k)).
    rewrite semantic_short by (apply (Hk k v); now left).
    rewrite dict_set_new by assumption.
    rewrite IH.
    + now rewrite <- app_assoc.
    + intros k' v' I. apply (Hk k' v'). now right.
    + unfold keys. rewrite map_app. cbn [List.map fst].
      rewrite <- app_assoc. exact ND.
Qed.

Lemma NoDup_map_inj : forall (f : pystr -> pystr) l,
  (forall a b, In a l -> In b l -> f a = f b -> a = b) ->
  NoDup l -> NoDup (List.map f l).
Proof.
  intros f l Hinj ND. induction ND as [|x l Hx ND IH]; [constructor|].
  cbn [List.map]. constructor.
  - intro I. apply in_map_iff in I. destruct I as (y & E & Iy).
    apply Hx. rewrite <- (Hinj y x); [assumption|now right|now left|assumption].
  - apply IH. intros a b Ia Ib. apply Hinj; now right.
Qed.

Lemma parse_qsl_join : forall parts,
  Forall (fun p => contains 38 p = false) parts ->
  Urllib.parse_qsl (join [38] parts) false =
  flat_map (Urllib.parse_qsl_field false) parts.
Proof.
  intros [|p parts] H; [reflexivity|].
  rewrite parse_qsl_split, split_join; [reflexivity|discriminate|assumption].
Qed.

(** The record that [parse_upi_string] builds from a serialized query. *)
Lemma record_of_serialized : forall r : dict pystr,
  NoDup (keys r) ->
  (forall k v, In (k, v) r ->
     In k recognized_fields /\ v <> [] /\ forallb is_scalar v = true) ->
  let q := join (lit "&") (List.map query_part r) in
  forallb query_char q = true
  /\ record_of_fields (Urllib.parse_qsl q false) = r.
Proof.
  intros r ND Hr q. split.
  - apply join_chars; [reflexivity|].
    apply Forall_forall. intros part I. apply in_map_iff in I.
    destruct I as (kv & <- & I). now apply (query_part_chars r Hr).
  - assert (F : Urllib.parse_qsl q false
                = List.map (fun kv => (short_key (fst kv), snd kv)) r).
    { unfold q. change (lit "&") with [38]. rewrite parse_qsl_join.
      - assert (G : forall l, (forall kv, In kv l -> In kv r) ->
                   flat_map (Urllib.parse_qsl_field false) (List.map query_part l)
                   = List.map (fun kv => (short_key (fst kv), snd kv)) l).
        { induction l as [|kv l IH]; intro Hl; [reflexivity|].
          cbn [List.map flat_map].
          rewrite (query_part_field r Hr kv) by (apply Hl; now left).
          rewrite IH by (intros kv' I; apply Hl; now right). reflexivity. }
        apply G. tauto.
      - apply Forall_forall. intros part I. apply in_map_iff in I.
        destruct I as (kv & <- & I). now apply (query_part_no_amp r Hr). }
    rewrite F. unfold record_of_fields.
    rewrite parse_qs_distinct.
    + cbn [app]. rewrite map_map. cbn [fst snd].
      rewrite (assign_params_distinct r []); [reflexivity| |exact ND].
      intros k v I. now apply (Hr k v).
    + cbn [keys List.map app]. rewrite map_map. cbn [fst].
      rewrite <- (map_map fst short_key). apply NoDup_map_inj; [|exact ND].
      intros a b Ia Ib. apply in_map_iff in Ia, Ib.
      destruct Ia as ([ka va] & <- & Ia). destruct Ib as ([kb vb] & <- & Ib).
      apply short_key_inj; [now apply (Hr ka va)|now apply (Hr kb vb)].
Qed.

(** The round trip for records whose values have no surrogates. *)
Lemma parse_create_scalar : forall (X : Externals) (r : dict pystr),
  NoDup (keys r) ->
  (forall k v, In (k, v) r ->
     In k recognized_fields /\ v <> [] /\ forallb is_scalar v = true) ->
  exists text,
    App.create_upi_string r = Return text
    /\ App.parse_upi_string X text = (Some r, None)
    /\ forall st,
         QrHandler.create_upi_string r st = (Return text, st)
         /\ forall st', fst (QrHandler.parse_upi_string X text st') = Return r.
Proof.
  intros X r ND Hr.
  destruct (record_of_serialized r ND Hr) as [Hq Hrec].
  set (q := join (lit "&") (List.map query_part r)) in *.
  assert (U : Urllib.urlparse (normalize_NFKC X) (ip_address X)
                (lit "upi://pay?" ++ q)
              = Return (Urllib.mkParse (lit "upi") (lit "pay") [] [] q [])).
  { apply urlparse_pay; apply (query_char_not _ _ Hq); reflexivity. }
  assert (S : startswith (lit "upi://pay?" ++ q) (lit "upi://") = true)
    by reflexivity.
  exists (lit "upi://pay?" ++ q). split; [|split].
  - unfold App.create_upi_string. now rewrite (app_query_parts r Hr).
  - rewrite (app_parse_upi X _ _ S U). cbn [Urllib.p_query]. now rewrite Hrec.
  - intro st. split.
    + unfold QrHandler.create_upi_string, lift.
      now rewrite (handler_query_parts r Hr).
    + intro st'. destruct (handler_parse_upi X _ st' _ S U) as [out ->].
      cbn [fst Urllib.p_query]. now rewrite Hrec.
Qed.

(** C1. For a record whose keys are among the nine recognized field names
    and whose values are non-empty ASCII strings, parsing the serialized
    text gives the record back, in the web codec and in the handler. (No
    condition on reserved characters is needed: [quote] escapes them.) *)
Theorem parse_create_roundtrip : forall (X : Externals) (r : dict pystr),
  NoDup (keys r) ->
  (forall k v, In (k, v) r ->
     In k recognized_fields /\ v <> [] /\ forallb isascii v = true) ->
  exists text,
    App.create_upi_string r = Return text
    /\ App.parse_upi_string X text = (Some r, None)
    /\ forall st,
         QrHandler.create_upi_string r st = (Return text, st)
         /\ forall st', fst (QrHandler.parse_upi_string X text st') = Return r.
Proof.
  intros X r ND Hr. apply parse_create_scalar; [exact ND|].
  intros k v I. destruct (Hr k v I) as (Hk & Hv & Ha).
  repeat split; try assumption. now apply ascii_scalar.
Qed.

Lemma parse_create_roundtrip_witness :
  exists text,
    App.create_upi_string example_record = Return text
    /\ App.parse_upi_string toy_externals text = (Some example_record, None)
    /\ forall st,
         QrHandler.create_upi_string example_record st = (Return text, st)
         /\ forall st',
              fst (QrHandler.parse_upi_string toy_externals text st')
              = Return example_record.
Proof.
  apply (parse_create_roundtrip toy_externals example_record).
  - unfold example_record, keys. cbn [List.map fst].
    repeat (constructor; [cbn [In]; intro H; repeat (destruct H as [H|H]; [vm_compute in H; discriminate|]); exact H|]).
    constructor.
  - intros k v I. unfold example_record in I. cbn [In] in I.
    repeat (destruct I as [I|I]; [inversion I; subst; repeat split; try discriminate; vm_compute; tauto|]).
    contradiction.
Defined.

(** C8, as the code has it. A value that is a sequence of Unicode scalar
    values (no surrogate code point), whatever characters it contains, is
    quoted into text of unreserved characters, slashes and percent escapes,
    so without [&], [=], space, [+], [?] or [#], and what [parse_qs] does to
    the text after the [=] sign, replacing [+] by a space and unquoting,
    gives the value back. *)
Theorem quote_unquote_roundtrip : forall v : pystr,
  forallb is_scalar v = true ->
  exists encoded,
    Urllib.quote v (lit "/") = Return encoded
    /\ Urllib.unquote (replace_char 43 32 encoded) = v
    /\ forallb quoted_char encoded = true
    /\ (forall c, In c [38; 61; 32; 43; 63; 35] -> contains c encoded = false).
Proof.
  intros v H. exists (quoted v). split; [now apply quote_scalar|].
  split; [now apply unquote_quoted|].
  split; [now apply quoted_chars|].
  intros c I. apply (quoted_char_not _ c (quoted_chars v H)).
  cbn [In] in I. repeat (destruct I as [<-|I]; [reflexivity|]). contradiction.
Qed.

Lemma quote_unquote_roundtrip_witness :
  exists encoded,
    Urllib.quote (lit "a&b=c d") (lit "/") = Return encoded
    /\ Urllib.unquote (replace_char 43 32 encoded) = lit "a&b=c d"
    /\ forallb quoted_char encoded = true
    /\ (forall c, In c [38; 61; 32; 43; 63; 35] -> contains c encoded = false).
Proof.
  apply (quote_unquote_roundtrip (lit "a&b=c d")). reflexivity.
Defined.

(** C8, as the claim words it, fails on a string with a lone surrogate:
    [quote] raises [UnicodeEncodeError]. *)
Lemma quote_raises_on_surrogate :
  Urllib.quote (lit "a&" ++ [0xD800]) (lit "/")
  = Raise (UnicodeEncodeError
             (lit "'utf-8' codec can't encode character '\ud800' in position 2: surrogates not allowed")).
Proof. reflexivity. Qed.

(* ================================================================= *)
(** ** Empty values *)

(** The web codec leaves fields with an empty value out of the text. *)
Lemma app_create_skips_empty : forall d : dict pystr,
  App.create_upi_string d =
  App.create_upi_string
    (filter (fun kv => match snd kv with [] => false | _ :: _ => true end) d).
Proof.
  intro d. unfold App.create_upi_string. f_equal.
  induction d as [|[k v] d IH]; [reflexivity|].
  destruct v as [|c v]; cbn [App.query_parts_of filter snd]; [exact IH|].
  now rewrite IH.
Qed.

(** The web route ignores an override whose value is empty. *)
Lemma app_modifications_ignore_empty : forall (mods d : dict pystr) (k : pystr),
  (forall v, In (k, v) mods -> v = []) ->
  dict_get (App.apply_modifications d mods) k = dict_get d k.
Proof.
  unfold App.apply_modifications.
  induction mods as [|[k' v'] mods IH]; intros d k H; [reflexivity|].
  cbn [fold_left fst snd]. rewrite IH by (intros v I; apply H; now right).
  destruct (negb (str_eqb k' (lit "file")) && App.truthy (Some v')) eqn:E;
    [|reflexivity].
  rewrite dict_get_set. destruct (str_eqb k' k) eqn:Ek; [|reflexivity].
  apply str_eqb_eq in Ek. subst k'.
  rewrite (H v' (or_introl eq_refl)) in E. cbn in E.
  rewrite andb_false_r in E. discriminate.
Qed.

(** C4, the handler against the claim: [create_upi_string] of the handler
    emits a field whose value is empty, as [am=]; the web codec leaves it
    out. *)
Theorem handler_create_emits_empty_value : forall st,
  QrHandler.create_upi_string
    [(lit "payee_address", lit "shop@upi"); (lit "amount", [])] st
  = (Return (lit "upi://pay?pa=shop%40upi&am="), st)
  /\ App.create_upi_string
       [(lit "payee_address", lit "shop@upi"); (lit "amount", [])]
     = Return (lit "upi://pay?pa=shop%40upi").
Proof. intro st. split; reflexivity. Qed.

(** C3, the handler against the claim: an override with an empty value
    blanks the field. [decode_and_encode] with [{'amount': ''}] turns the
    amount 100 into the empty string and writes the image of a text with
    [am=]; the loop of the web route leaves the amount as it was. *)
Theorem handler_override_blanks_field :
  fst blank_override_run = Return true
  /\ QrHandler.upi_data (snd blank_override_run)
     = [(lit "payee_address", lit "shop@upi"); (lit "amount", [])]
  /\ dict_get (QrHandler.files (snd blank_override_run)) (lit "out.png")
     = Some (lit "upi://pay?pa=shop%40upi&am=")
  /\ App.apply_modifications
       [(lit "payee_address", lit "shop@upi"); (lit "amount", lit "100")]
       [(lit "amount", [])]
     = [(lit "payee_address", lit "shop@upi"); (lit "amount", lit "100")].
Proof. repeat split; vm_compute; reflexivity. Qed.

(* ================================================================= *)
(** ** A payload of another scheme *)

(** [encode_qr], case by case. *)
Lemma encode_qr_saved : forall (X : Externals) data output box_size border st img,
  qrcode_image X data box_size border = Return img ->
  write_error X output = None ->
  existsb Utf8.is_surrogate output = false ->
  QrHandler.encode_qr X data output box_size border st
  = (Return true,
     QrHandler.mkState (QrHandler.upi_data st)
       (dict_set (QrHandler.files st) output img)
       (QrHandler.stdout st ++ [QrHandler.Line (lit "QR code saved to: " ++ output)])).
Proof.
  intros X data output box_size border st img Hq Hw Ho.
  unfold QrHandler.encode_qr, try_except, bindM, lift, get, write_file,
    QrHandler.set_files, modify.
  rewrite Hq, Hw. rewrite print_line_ok by now apply existsb_surrogate_app.
  reflexivity.
Qed.



(** C5, as the code has it. When the decoded payload does not begin with
    [upi://], the web route [/modify] answers with the error [Not a UPI QR
    code] and writes nothing but the upload; the handler's
    [decode_and_encode] does not refuse: it encodes the decoded text as it
    is into the output image. (The output path is one that the console can
    print.) *)
Theorem non_upi_payload : forall (X : Externals),
  (forall request file fs fs' payload,
     App.file_field request = Some file ->
     App.filename file <> [] ->
     write_file X fs
       (App.os_path_join App.UPLOAD_FOLDER (secure_filename X (App.filename file)))
       (App.content file) = Return fs' ->
     App.decode_qr_code X fs'
       (App.os_path_join App.UPLOAD_FOLDER (secure_filename X (App.filename file)))
     = (Some payload, None) ->
     startswith payload (lit "upi://") = false ->
     App.modify_route X request fs
     = (Return (App.JsonError (lit "Not a UPI QR code") 400), fs'))
  /\ (forall input output modify_params st st' payload img,
        QrHandler.decode_qr X input st = (Return (Some payload), st') ->
        payload <> [] ->
        startswith payload (lit "upi://") = false ->
        qrcode_image X payload 10 4 = Return img ->
        write_error X output = None ->
        existsb Utf8.is_surrogate output = false ->
        QrHandler.decode_and_encode X input output modify_params st
        = (Return true,
           QrHandler.mkState (QrHandler.upi_data st')
             (dict_set (QrHandler.files st') output img)
             (QrHandler.stdout st'
                ++ [QrHandler.Line (lit "QR code saved to: " ++ output)]))).
Proof.
  intro X. split.
  - intros request file fs fs' payload Hf Hn Hw Hd Hs.
    unfold App.modify_route. rewrite Hf.
    destruct (App.filename file) as [|c name] eqn:En; [congruence|].
    unfold bindM, get, lift, modify. rewrite Hw, Hd. cbn [App.truthy].
    rewrite Hs. reflexivity.
  - intros input output modify_params st st' payload img Hd Hn Hs Hq Hw Ho.
    unfold QrHandler.decode_and_encode, bindM. rewrite Hd.
    destruct payload as [|c payload]; [congruence|].
    rewrite Hs. unfold ret.
    now apply encode_qr_saved.
Qed.

Lemma non_upi_payload_witness :
  App.modify_route toy_externals hello_request []
  = (Return (App.JsonError (lit "Not a UPI QR code") 400),
     [(lit "uploads/in.png", lit "hello")])
  /\ QrHandler.decode_and_encode toy_externals (lit "in.png") (lit "out.png")
       (Some [(lit "amount", lit "200")]) (QrHandler.__init__ hello_files [])
     = (Return true,
        QrHandler.mkState []
          [(lit "in.png", lit "hello"); (lit "out.png", lit "hello")]
          [QrHandler.Line (lit "Decoded QR code: hello");
           QrHandler.Line (lit "QR code saved to: out.png")]).
Proof.
  destruct (non_upi_payload toy_externals) as [Happ Hhandler]. split.
  - apply (Happ hello_request (App.mkUpload (lit "in.png") (lit "hello")) []
             [(lit "uploads/in.png", lit "hello")] (lit "hello"));
      (reflexivity || discriminate).
  - apply (Hhandler (lit "in.png") (lit "out.png")
             (Some [(lit "amount", lit "200")]) (QrHandler.__init__ hello_files [])
             (QrHandler.mkState [] hello_files
                [QrHandler.Line (lit "Decoded QR code: hello")])
             (lit "hello") (lit "hello"));
      (reflexivity || discriminate).
Defined.

(** C5, as the claim words it, fails for the handler: a payload that is not
    a UPI string is encoded again, and the output image is written. *)
Lemma handler_reencodes_non_upi_payload :
  fst hello_run = Return true
  /\ dict_get (QrHandler.files (snd hello_run)) (lit "out.png")
     = Some (lit "hello").
Proof. split; vm_compute; reflexivity. Qed.

(* ================================================================= *)
(** * Further properties of the code *)

Ltac step_with tac := split; [reflexivity | split; [tac | simpl; lia]].

(** One step of the decoder: it emits one scalar value and goes on with a
    shorter rest. *)
Lemma decode_replace_step : forall bs,
  bs <> [] ->
  exists c rest,
    Utf8.decode_replace bs = c :: Utf8.decode_replace rest
    /\ is_scalar c = true
    /\ (List.length rest < List.length bs)%nat.
Proof.
  intros bs Hbs.
  assert (Hr : is_scalar Utf8.replacement = true) by reflexivity.
  destruct bs as [|b0 r0]; [congruence|]. clear Hbs.
  cbn [Utf8.decode_replace].
  destruct (N.ltb_spec b0 0x80).
  { exists b0, r0. step_with ltac:(apply is_scalar_spec; lia). }
  destruct (N.ltb_spec b0 0xC2).
  { exists Utf8.replacement, r0. step_with ltac:(assumption). }
  destruct (N.ltb_spec b0 0xE0).
  { destruct r0 as [|b1 r1].
    - exists Utf8.replacement, []. step_with ltac:(assumption).
    - unfold Utf8.is_continuation.
      destruct (N.leb_spec 0x80 b1), (N.ltb_spec b1 0xC0); cbn [andb].
      + eexists _, r1. step_with ltac:(apply is_scalar_spec; lia).
      + exists Utf8.replacement, (b1 :: r1). step_with ltac:(assumption).
      + exists Utf8.replacement, (b1 :: r1). step_with ltac:(assumption).
      + exists Utf8.replacement, (b1 :: r1). step_with ltac:(assumption). }
  destruct (N.ltb_spec b0 0xF0).
  { destruct r0 as [|b1 r1].
    - exists Utf8.replacement, []. step_with ltac:(assumption).
    - destruct (negb (Utf8.is_continuation b1)
                || (if b1 <? 0xA0 then b0 =? 0xE0 else b0 =? 0xED)) eqn:C1.
      + exists Utf8.replacement, (b1 :: r1). step_with ltac:(assumption).
      + apply orb_false_iff in C1. destruct C1 as [C1 C2].
        apply negb_false_iff in C1. unfold Utf8.is_continuation in C1.
        apply andb_true_iff in C1. destruct C1 as [L1 U1].
        apply N.leb_le in L1. apply N.ltb_lt in U1.
        destruct r1 as [|b2 r2].
        * exists Utf8.replacement, []. step_with ltac:(assumption).
        * unfold Utf8.is_continuation.
          destruct (N.leb_spec 0x80 b2), (N.ltb_spec b2 0xC0); cbn [andb];
            try (exists Utf8.replacement, (b2 :: r2);
                 step_with ltac:(assumption)).
          eexists _, r2.
          step_with ltac:(apply is_scalar_spec;
                          destruct (N.ltb_spec b1 0xA0); apply N.eqb_neq in C2; lia). }
  destruct (N.ltb_spec b0 0xF5).
  { destruct r0 as [|b1 r1].
    - exists Utf8.replacement, []. step_with ltac:(assumption).
    - destruct (negb (Utf8.is_continuation b1)
                || (if b1 <? 0x90 then b0 =? 0xF0 else b0 =? 0xF4)) eqn:C1.
      + exists Utf8.replacement, (b1 :: r1). step_with ltac:(assumption).
      + apply orb_false_iff in C1. destruct C1 as [C1 C2].
        apply negb_false_iff in C1. unfold Utf8.is_continuation in C1.
        apply andb_true_iff in C1. destruct C1 as [L1 U1].
        apply N.leb_le in L1. apply N.ltb_lt in U1.
        destruct r1 as [|b2 r2].
        * exists Utf8.replacement, []. step_with ltac:(assumption).
        * destruct (Utf8.is_continuation b2) eqn:C3; cbn [negb].
          2:{ exists Utf8.replacement, (b2 :: r2).
              step_with ltac:(assumption). }
          unfold Utf8.is_continuation in C3.
          apply andb_true_iff in C3. destruct C3 as [L2 U2].
          apply N.leb_le in L2. apply N.ltb_lt in U2.
          destruct r2 as [|b3 r3].
          -- exists Utf8.replacement, []. step_with ltac:(assumption).
          -- unfold Utf8.is_continuation.
             destruct (N.leb_spec 0x80 b3), (N.ltb_spec b3 0xC0); cbn [andb];
               try (exists Utf8.replacement, (b3 :: r3);
                    step_with ltac:(assumption)).
             eexists _, r3.
             step_with ltac:(apply is_scalar_spec;
                             destruct (N.ltb_spec b1 0x90); apply N.eqb_neq in C2; lia). }
  exists Utf8.replacement, r0. step_with ltac:(assumption).
Qed.

Lemma decode_replace_scalar_aux : forall n bs,
  (List.length bs <= n)%nat -> forallb is_scalar (Utf8.decode_replace bs) = true.
Proof.
  induction n as [|n IH]; intros bs Hn.
  - destruct bs; [reflexivity|simpl in Hn; lia].
  - destruct bs as [|b bs']; [reflexivity|].
    destruct (decode_replace_step (b :: bs') ltac:(discriminate))
      as (c & rest & E & Hc & Hl).
    rewrite E. cbn [forallb]. rewrite Hc. apply IH. simpl in *. lia.
Qed.

(** The decoder yields Unicode scalar values only, whatever the bytes. *)
Lemma decode_replace_scalar : forall bs,
  forallb is_scalar (Utf8.decode_replace bs) = true.
Proof. intro bs. now apply (decode_replace_scalar_aux (List.length bs)). Qed.

Lemma decode_replace_not_nil : forall bs,
  bs <> [] -> Utf8.decode_replace bs <> [].
Proof.
  intros bs H. destruct (decode_replace_step bs H) as (c & rest & E & _).
  rewrite E. discriminate.
Qed.

(* ================================================================= *)
(** ** Where the characters of a query come from *)

Lemma incl_lstrip : forall chars s, incl (lstrip chars s) s.
Proof.
  intros chars s. induction s as [|c s IH]; simpl; [apply incl_refl|].
  destruct (contains c chars); [now apply incl_tl|apply incl_refl].
Qed.

Lemma incl_remove_char : forall c s, incl (remove_char c s) s.
Proof. intros c s x I. unfold remove_char in I. now apply filter_In in I. Qed.

Lemma incl_skipn : forall n (s : pystr), incl (skipn n s) s.
Proof.
  intros n s x I. rewrite <- (firstn_skipn n s). apply in_or_app. now right.
Qed.

Lemma split1_incl : forall sep s a b,
  split1 sep s = (a, b) ->
  incl a s /\ forall t, b = Some t -> incl t s.
Proof.
  intros sep s. induction s as [|c s IH]; simpl; intros a b E.
  - inversion E; subst. split; [apply incl_refl|discriminate].
  - destruct (c =? sep).
    + inversion E; subst. split; [intros x []|].
      intros t Ht. inversion Ht; subst. now apply incl_tl.
    + destruct (split1 sep s) as [a' b'] eqn:E'. inversion E; subst.
      destruct (IH a' b eq_refl) as [Ha Hb]. split.
      * intros x [<-|I]; [now left|right; now apply Ha].
      * intros t Ht. apply incl_tl. now apply Hb.
Qed.

Lemma split1_some_contains : forall sep s a t,
  split1 sep s = (a, Some t) -> contains sep s = true.
Proof.
  intros sep s. induction s as [|c s IH]; simpl; intros a t E; [discriminate|].
  destruct (c =? sep) eqn:Ec.
  - rewrite N.eqb_sym, Ec. reflexivity.
  - destruct (split1 sep s) as [a' b'] eqn:E'. inversion E; subst.
    rewrite (IH a' t eq_refl). apply orb_true_r.
Qed.

Lemma split_incl : forall sep s p, In p (split sep s) -> incl p s.
Proof.
  intros sep s. induction s as [|c s IH]; simpl; intros p I.
  - destruct I as [<-|[]]. apply incl_refl.
  - destruct (c =? sep).
    + destruct I as [<-|I]; [intros x []|]. apply incl_tl. now apply IH.
    + destruct (split sep s) as [|w ws] eqn:E.
      * destruct I as [<-|[]]. intros x [<-|[]]. now left.
      * destruct I as [<-|I].
        -- intros x [<-|Ix]; [now left|]. right. apply (IH w); [now left|assumption].
        -- apply incl_tl. apply IH. now right.
Qed.

(** The query that [urlsplit] returns is empty, or it is the text after the
    first question mark of a part of the input. *)
Lemma urlsplit_query : forall nfkc ip text r,
  Urllib.urlsplit nfkc ip text = Return r ->
  Urllib.query r = []
  \/ exists url u, incl url text /\ split1 63 url = (u, Some (Urllib.query r)).
Proof.
  intros nfkc ip text r H. unfold Urllib.urlsplit in H.
  set (url1 := lstrip Urllib._WHATWG_C0_CONTROL_OR_SPACE text) in H.
  set (url2 := fold_left (fun u b => remove_char b u)
                 Urllib._UNSAFE_URL_BYTES_TO_REMOVE url1) in H.
  assert (I2 : incl url2 text).
  { unfold url2, url1. cbn [fold_left Urllib._UNSAFE_URL_BYTES_TO_REMOVE].
    eapply incl_tran; [apply incl_remove_char|].
    eapply incl_tran; [apply incl_remove_char|].
    eapply incl_tran; [apply incl_remove_char|]. apply incl_lstrip. }
  clearbody url2. clear url1.
  match type of H with
  | (let '(scheme, url) := ?m in _) = _ =>
      assert (I3 : incl (snd m) text);
      [|destruct m as [scheme url3]; cbn [snd] in I3]
  end.
  { destruct (find 58 url2) as [[|i]|]; destruct url2 as [|c0 u];
      cbn [snd]; try exact I2.
    destruct (isascii c0 && (is_upper c0 || is_lower c0)); cbn [snd];
      [|exact I2].
    destruct (forallb Urllib.in_scheme_chars (firstn (S i) (c0 :: u)));
      cbn [snd]; [|exact I2].
    eapply incl_tran; [apply incl_skipn|exact I2]. }
  clear I2.
  match type of H with
  | bind ?m _ = _ => destruct m as [[netloc url4]|e] eqn:E4; [|discriminate]
  end.
  assert (I4 : incl url4 text).
  { eapply incl_tran; [|exact I3].
    destruct (str_eqb (firstn 2 url3) (lit "//")).
    - unfold Urllib._splitnetloc in E4. cbv beta iota in E4.
      destruct (_ || _) in E4; [discriminate|].
      destruct (_ && _) in E4.
      + destruct (Urllib._check_bracketed_netloc ip _) in E4; [|discriminate].
        cbn [bind] in E4. inversion E4; subst. apply incl_skipn.
      + inversion E4; subst. apply incl_skipn.
    - inversion E4; subst. apply incl_refl. }
  clear E4 I3. cbn [bind] in H.
  destruct (if contains 35 url4
            then match split1 35 url4 with
                 | (u, Some f) => (u, f)
                 | (u, None) => (u, [])
                 end
            else (url4, [])) as [url5 fragment] eqn:E5.
  assert (I5 : incl url5 text).
  { eapply incl_tran; [|exact I4].
    destruct (contains 35 url4); [|inversion E5; subst; apply incl_refl].
    destruct (split1 35 url4) as [u [f|]] eqn:Es;
      destruct (split1_incl _ _ _ _ Es) as [Ha _];
      inversion E5; subst; exact Ha. }
  clear E5 I4.
  destruct (contains 63 url5) eqn:C.
  - destruct (split1 63 url5) as [u [q|]] eqn:Es.
    + destruct (Urllib._checknetloc nfkc netloc); [|discriminate].
      cbn [bind] in H. inversion H; subst. cbn [Urllib.query].
      right. exists url5, u. now split.
    + destruct (Urllib._checknetloc nfkc netloc); [|discriminate].
      cbn [bind] in H. inversion H; subst. now left.
  - destruct (Urllib._checknetloc nfkc netloc); [|discriminate].
    cbn [bind] in H. inversion H; subst. now left.
Qed.

Lemma urlparse_query : forall nfkc ip text parsed,
  Urllib.urlparse nfkc ip text = Return parsed ->
  Urllib.p_query parsed = []
  \/ exists url u,
       incl url text /\ split1 63 url = (u, Some (Urllib.p_query parsed)).
Proof.
  intros nfkc ip text parsed H. unfold Urllib.urlparse in H.
  destruct (Urllib.urlsplit nfkc ip text) as [r|e] eqn:U; [|discriminate].
  cbn [bind] in H.
  match type of H with
  | (let (_, _) := ?m in _) = _ => destruct m as [url params]
  end.
  inversion H; subst. cbn [Urllib.p_query].
  now apply (urlsplit_query nfkc ip).
Qed.

Lemma urlparse_query_incl : forall nfkc ip text parsed,
  Urllib.urlparse nfkc ip text = Return parsed ->
  incl (Urllib.p_query parsed) text.
Proof.
  intros nfkc ip text parsed H.
  destruct (urlparse_query _ _ _ _ H) as [->|(url & u & I & E)].
  - intros x [].
  - eapply incl_tran; [|exact I]. now apply (split1_incl _ _ _ _ E).
Qed.

Lemma urlparse_no_question_mark : forall nfkc ip text parsed,
  Urllib.urlparse nfkc ip text = Return parsed ->
  contains 63 text = false ->
  Urllib.p_query parsed = [].
Proof.
  intros nfkc ip text parsed H C.
  destruct (urlparse_query _ _ _ _ H) as [E|(url & u & I & E)]; [exact E|].
  apply split1_some_contains in E. exfalso.
  apply contains_false_iff in C. apply C. apply I.
  unfold contains in E. apply existsb_exists in E.
  destruct E as (x & Ix & Ex). apply N.eqb_eq in Ex. now subst.
Qed.

(* ================================================================= *)
(** ** What [unquote] returns *)

Lemma forallb_incl : forall (p : N -> bool) a b,
  incl a b -> forallb p b = true -> forallb p a = true.
Proof.
  intros p a b I H. apply forallb_forall. intros x Ix.
  rewrite forallb_forall in H. apply H. now apply I.
Qed.

Lemma ascii_runs_incl : forall s b r, In (b, r) (Urllib.ascii_runs s) -> incl r s.
Proof.
  induction s as [|c s IH]; intros b r I; [destruct I|].
  cbn [Urllib.ascii_runs] in I.
  destruct (Urllib.ascii_runs s) as [|[b0 r0] rs] eqn:E.
  - destruct I as [I|[]]. inversion I; subst. intros x [<-|[]]. now left.
  - destruct (Bool.eqb b0 (isascii c)).
    + destruct I as [I|I].
      * injection I as <- <-. intros x [<-|Ix]; [now left|right].
        apply (IH b0 r0); [now left|assumption].
      * apply incl_tl. apply (IH b r). now right.
    + destruct I as [I|I].
      * injection I as <- <-. intros x [<-|[]]. now left.
      * apply incl_tl. now apply (IH b r).
Qed.

Lemma ascii_runs_head : forall s,
  s <> [] -> exists b r rs, Urllib.ascii_runs s = (b, r) :: rs /\ r <> [].
Proof.
  intros [|c s] H; [congruence|]. cbn [Urllib.ascii_runs].
  destruct (Urllib.ascii_runs s) as [|[b0 r0] rs].
  - eexists _, _, _. split; [reflexivity|discriminate].
  - destruct (Bool.eqb b0 (isascii c));
      eexists _, _, _; (split; [reflexivity|discriminate]).
Qed.

Lemma unquote_item_not_nil : forall item, Urllib.unquote_item item <> [].
Proof.
  intros [|h [|l rest]]; cbn; try discriminate.
  destruct (Urllib.hexval h); [|discriminate].
  destruct (Urllib.hexval l); discriminate.
Qed.

Lemma unquote_to_bytes_not_nil : forall s,
  s <> [] -> Urllib.unquote_to_bytes s <> [].
Proof.
  intros [|c s] H; [congruence|].
  destruct (N.eqb_spec c 37) as [->|Hc].
  - rewrite unquote_to_bytes_eq, split_cons_sep. cbn [hd tl app].
    destruct (split 37 s) as [|w ws] eqn:E; [now apply split_not_nil in E|].
    cbn [flat_map]. intro A. apply app_eq_nil in A. destruct A as [A _].
    now apply unquote_item_not_nil in A.
  - rewrite unquote_to_bytes_other by assumption. discriminate.
Qed.

Lemma unquote_not_nil : forall s, s <> [] -> Urllib.unquote s <> [].
Proof.
  intros s H. unfold Urllib.unquote.
  destruct (contains 37 s); cbn [negb]; [|assumption].
  destruct (ascii_runs_head s H) as (b & r & rs & -> & Hr).
  cbn [flat_map fst snd]. intro A. apply app_eq_nil in A. destruct A as [A _].
  destruct b; [|contradiction].
  apply decode_replace_not_nil in A; [assumption|].
  now apply unquote_to_bytes_not_nil.
Qed.

(** [unquote] of a text without surrogates has no surrogates: what an escape
    decodes to never is one. *)
Lemma unquote_scalar : forall s,
  forallb is_scalar s = true -> forallb is_scalar (Urllib.unquote s) = true.
Proof.
  intros s H. unfold Urllib.unquote.
  destruct (contains 37 s); cbn [negb]; [|assumption].
  assert (G : forall runs,
            (forall b r, In (b, r) runs -> incl r s) ->
            forallb is_scalar
              (flat_map (fun run : bool * pystr =>
                           if fst run
                           then Utf8.decode_replace (Urllib.unquote_to_bytes (snd run))
                           else snd run) runs) = true).
  { induction runs as [|[b r] runs IH]; intro Hr; [reflexivity|].
    cbn [flat_map fst snd]. rewrite forallb_app. apply andb_true_iff. split.
    - destruct b; [apply decode_replace_scalar|].
      apply (forallb_incl _ r s); [|assumption]. apply (Hr false r). now left.
    - apply IH. intros b' r' I. apply (Hr b' r'). now right. }
  apply G. apply ascii_runs_incl.
Qed.

Lemma replace_char_scalar : forall s,
  forallb is_scalar s = true -> forallb is_scalar (replace_char 43 32 s) = true.
Proof.
  induction s as [|c s IH]; intro H; [reflexivity|].
  cbn [forallb] in H. apply andb_true_iff in H. destruct H as [Hc Hs].
  cbn [replace_char List.map forallb]. fold (replace_char 43 32 s).
  rewrite (IH Hs). destruct (c =? 43); [reflexivity|now rewrite Hc].
Qed.

Lemma replace_char_not_nil : forall c d s, s <> [] -> replace_char c d s <> [].
Proof. intros c d [|x s] H; [congruence|discriminate]. Qed.

(* ================================================================= *)
(** ** What [parse_qsl] returns *)

(** Every value that [parse_qsl] returns is non-empty, and names and values
    have no surrogates when the query has none. *)
Lemma parse_qsl_fields : forall q n v,
  In (n, v) (Urllib.parse_qsl q false) ->
  v <> []
  /\ (forallb is_scalar q = true ->
      forallb is_scalar n = true /\ forallb is_scalar v = true).
Proof.
  intros q n v I. rewrite parse_qsl_split in I.
  apply in_flat_map in I. destruct I as (p & Ip & I).
  pose proof (split_incl _ _ _ Ip) as Hp.
  unfold Urllib.parse_qsl_field in I.
  destruct p as [|c p]; [destruct I|].
  destruct (split1 61 (c :: p)) as [name [value|]] eqn:E; [|destruct I].
  destruct (split1_incl _ _ _ _ E) as [Hn Hv]. specialize (Hv value eq_refl).
  assert (Hne : value <> []) by (intro; subst; destruct I).
  assert (I' : (Urllib.unquote (replace_char 43 32 name),
                Urllib.unquote (replace_char 43 32 value)) = (n, v)).
  { destruct value as [|x value]; [congruence|]. destruct I as [I|[]]. exact I. }
  clear I. injection I' as <- <-. split.
  - apply unquote_not_nil. now apply replace_char_not_nil.
  - intro Hq. split; apply unquote_scalar, replace_char_scalar.
    + apply (forallb_incl _ name q); [|assumption]. eapply incl_tran; eassumption.
    + apply (forallb_incl _ value q); [|assumption].
      eapply incl_tran; eassumption.
Qed.

(* ================================================================= *)
(** ** What the record holds *)

Lemma dict_set_in : forall {V} (d : dict V) k v k' v',
  In (k', v') (dict_set d k v) -> In (k', v') d \/ (k', v') = (k, v).
Proof.
  intros V d k v k' v'. induction d as [|[k0 v0] d IH]; simpl; intro I.
  - destruct I as [I|[]]. now right.
  - destruct (str_eqb k0 k) eqn:E.
    + apply str_eqb_eq in E. subst k0. destruct I as [I|I]; [now right|].
      left. now right.
    + destruct I as [I|I]; [left; now left|].
      destruct (IH I) as [H|H]; [left; now right|now right].
Qed.

Lemma assign_params_entries : forall items acc k v,
  In (k, v) (fst (QrHandler.assign_params items acc)) ->
  In (k, v) acc
  \/ exists n vs, In (n, v :: vs) items /\ k = semantic_name n.
Proof.
  induction items as [|[n vs] items IH]; intros acc k v I; [now left|].
  cbn [QrHandler.assign_params] in I.
  destruct vs as [|v0 vs]; [now left|].
  destruct (IH _ _ _ I) as [H|(n' & vs' & H & E)].
  - apply dict_set_in in H. destruct H as [H|H]; [now left|].
    inversion H; subst. right. exists n, vs. split; [now left|reflexivity].
  - right. exists n', vs'. split; [now right|assumption].
Qed.

Lemma assign_params_NoDup : forall items acc,
  NoDup (keys acc) -> NoDup (keys (fst (QrHandler.assign_params items acc))).
Proof.
  induction items as [|[n vs] items IH]; intros acc H; [assumption|].
  cbn [QrHandler.assign_params]. destruct vs as [|v0 vs]; [assumption|].
  apply IH. now apply NoDup_dict_set.
Qed.

(** Every entry of the record comes from a field of the query: the key is the
    semantic name of the field's name, the value is the field's value. *)
Lemma record_entries : forall fields k v,
  In (k, v) (record_of_fields fields) ->
  exists n, In (n, v) fields /\ k = semantic_name n.
Proof.
  intros fields k v I. unfold record_of_fields in I.
  apply assign_params_entries in I. destruct I as [[]|(n & vs & I & E)].
  exists n. split; [|assumption].
  destruct (parse_qs_spec fields) as [ND G].
  apply (dict_get_in _ _ _ ND) in I. rewrite G in I.
  apply values_of_in. destruct (values_of n fields); [discriminate|].
  inversion I; subst. now left.
Qed.

Lemma record_NoDup : forall fields, NoDup (keys (record_of_fields fields)).
Proof. intro fields. apply assign_params_NoDup. constructor. Qed.

(* ================================================================= *)
(** ** Keys that are passed through *)

Lemma dict_get_default_miss : forall (d : dict pystr) k,
  ~ In k (keys d) -> dict_get_default d k k = k.
Proof.
  intros d k H. unfold dict_get_default.
  now rewrite (proj2 (dict_get_none d k) H).
Qed.

Lemma pass_through_short : forall k, pass_through_key k -> short_key k = k.
Proof. intros k (H & _ & _). now apply dict_get_default_miss. Qed.

Lemma pass_through_semantic : forall k, pass_through_key k -> semantic_name k = k.
Proof. intros k (_ & H & _). now apply dict_get_default_miss. Qed.

Lemma round_trip_semantic : forall k,
  round_trip_key k -> semantic_name (short_key k) = k.
Proof.
  intros k [H|H]; [now apply semantic_short|].
  rewrite (pass_through_short k H). now apply pass_through_semantic.
Qed.

Lemma round_trip_key_chars : forall k,
  round_trip_key k -> forallb key_char (short_key k) = true.
Proof.
  intros k [H|H].
  - recognized H; reflexivity.
  - rewrite (pass_through_short k H). apply H.
Qed.

Lemma round_trip_short_inj : forall k1 k2,
  round_trip_key k1 -> round_trip_key k2 ->
  short_key k1 = short_key k2 -> k1 = k2.
Proof.
  intros k1 k2 H1 H2 E.
  rewrite <- (round_trip_semantic k1 H1), <- (round_trip_semantic k2 H2).
  now rewrite E.
Qed.

Lemma key_chars_unquote : forall s,
  forallb key_char s = true -> Urllib.unquote (replace_char 43 32 s) = s.
Proof.
  intros s H.
  rewrite replace_char_id by (apply (forallb_not_in _ _ _ H); reflexivity).
  unfold Urllib.unquote.
  now rewrite (forallb_not_in _ 37 _ H eq_refl).
Qed.

Lemma forallb_weaken : forall (p q : N -> bool) s,
  (forall x, p x = true -> q x = true) ->
  forallb p s = true -> forallb q s = true.
Proof.
  intros p q s W H. apply forallb_forall. intros x I.
  rewrite forallb_forall in H. apply W. now apply H.
Qed.

Lemma quoted_char_stays : forall x, quoted_char x = true -> stays_in_query x = true.
Proof.
  intros x H. pose proof (quoted_char_not_reserved x H) as R.
  unfold stays_in_query. apply negb_true_iff.
  destruct (existsb (N.eqb x) [35; 9; 13; 10]) eqn:E; [|reflexivity].
  exfalso. apply R. apply existsb_exists in E. destruct E as (y & Iy & Ey).
  apply N.eqb_eq in Ey. subst y. cbn [In] in *. tauto.
Qed.

Lemma key_char_stays : forall x, key_char x = true -> stays_in_query x = true.
Proof.
  intros x H. unfold key_char, stays_in_query in *. apply negb_true_iff in H.
  apply negb_true_iff. cbn [existsb] in *.
  repeat (apply orb_false_iff in H; destruct H as [? H]).
  repeat (apply orb_false_iff; split); assumption.
Qed.

Section PassThrough.

Variable r : dict pystr.
Hypothesis r_ok : forall k v, In (k, v) r ->
  round_trip_key k /\ v <> [] /\ forallb is_scalar v = true.

Lemma handler_query_parts_any : QrHandler.query_parts_of r = Return (List.map query_part r).
Proof.
  induction r as [|[k v] d IH]; [reflexivity|].
  cbn [QrHandler.query_parts_of List.map].
  destruct (r_ok k v (or_introl eq_refl)) as (_ & _ & Hs).
  rewrite quote_scalar by assumption. cbn [bind].
  rewrite IH; [reflexivity|]. intros k' v' I. apply r_ok. now right.
Qed.

Lemma app_query_parts_any : App.query_parts_of r = Return (List.map query_part r).
Proof.
  induction r as [|[k v] d IH]; [reflexivity|].
  cbn [App.query_parts_of List.map].
  destruct (r_ok k v (or_introl eq_refl)) as (_ & Hv & Hs).
  destruct v as [|c v]; [congruence|].
  rewrite quote_scalar by assumption. cbn [bind].
  rewrite IH; [reflexivity|]. intros k' v' I. apply r_ok. now right.
Qed.

Lemma query_part_stays : forall kv,
  In kv r -> forallb stays_in_query (query_part kv) = true.
Proof.
  intros [k v] I. destruct (r_ok k v I) as (Hk & _ & Hs).
  unfold query_part. cbn [fst snd]. rewrite !forallb_app.
  rewrite (forallb_weaken _ _ _ key_char_stays (round_trip_key_chars k Hk)).
  rewrite (forallb_weaken _ _ _ quoted_char_stays (quoted_chars v Hs)).
  reflexivity.
Qed.

Lemma query_part_field_any : forall kv,
  In kv r ->
  Urllib.parse_qsl_field false (query_part kv) = [(short_key (fst kv), snd kv)].
Proof.
  intros [k v] I. destruct (r_ok k v I) as (Hk & Hv & Hs).
  pose proof (round_trip_key_chars k Hk) as Hc.
  unfold query_part. cbn [fst snd].
  unfold Urllib.parse_qsl_field.
  change (lit "=" ++ quoted v) with (61 :: quoted v).
  rewrite split1_app_sep by (apply (forallb_not_in _ _ _ Hc); reflexivity).
  destruct (short_key k ++ 61 :: quoted v) eqn:E.
  { apply app_eq_nil in E. destruct E as [_ E]. discriminate. }
  pose proof (quoted_not_nil v Hs Hv) as Hq.
  destruct (quoted v) eqn:Q; [congruence|]. rewrite <- Q.
  rewrite (key_chars_unquote _ Hc). unfold quoted. now rewrite unquote_quoted.
Qed.

Lemma query_part_no_amp_any : forall kv,
  In kv r -> contains 38 (query_part kv) = false.
Proof.
  intros [k v] I. destruct (r_ok k v I) as (Hk & _ & Hs).
  unfold query_part. cbn [fst snd]. rewrite !contains_app.
  rewrite (forallb_not_in _ 38 _ (round_trip_key_chars k Hk)) by reflexivity.
  rewrite (quoted_char_not _ 38 (quoted_chars v Hs)) by reflexivity.
  reflexivity.
Qed.

End PassThrough.

Lemma assign_params_distinct_any : forall (r acc : dict pystr),
  (forall k v, In (k, v) r -> round_trip_key k) ->
  NoDup (keys acc ++ keys r) ->
  QrHandler.assign_params
    (List.map (fun kv => (short_key (fst kv), [snd kv])) r) acc
  = (acc ++ r, None).
Proof.
  induction r as [|[k v] r IH]; intros acc Hk ND; simpl.
  - now rewrite app_nil_r.
  - assert (Hn : ~ In k (keys acc)).
    { intro I. apply NoDup_remove_2 in ND. apply ND. apply in_or_app. now left. }
    fold (semantic_name (short_key k)).
    rewrite round_trip_semantic by (apply (Hk k v); now left).
    rewrite dict_set_new by assumption.
    rewrite IH.
    + now rewrite <- app_assoc.
    + intros k' v' I. apply (Hk k' v'). now right.
    + unfold keys. rewrite map_app. cbn [List.map fst].
      rewrite <- app_assoc. exact ND.
Qed.

Lemma record_of_serialized_any : forall r : dict pystr,
  NoDup (keys r) ->
  (forall k v, In (k, v) r ->
     round_trip_key k /\ v <> [] /\ forallb is_scalar v = true) ->
  forallb stays_in_query (join (lit "&") (List.map query_part r)) = true
  /\ record_of_fields
       (Urllib.parse_qsl (join (lit "&") (List.map query_part r)) false) = r.
Proof.
  intros r ND Hr. split.
  - apply join_chars; [reflexivity|].
    apply Forall_forall. intros part I. apply in_map_iff in I.
    destruct I as (kv & <- & I). now apply (query_part_stays r Hr).
  - assert (F : Urllib.parse_qsl (join (lit "&") (List.map query_part r)) false
                = List.map (fun kv => (short_key (fst kv), snd kv)) r).
    { change (lit "&") with [38]. rewrite parse_qsl_join.
      - assert (G : forall l, (forall kv, In kv l -> In kv r) ->
                   flat_map (Urllib.parse_qsl_field false) (List.map query_part l)
                   = List.map (fun kv => (short_key (fst kv), snd kv)) l).
        { induction l as [|kv l IH]; intro Hl; [reflexivity|].
          cbn [List.map flat_map].
          rewrite (query_part_field_any r Hr kv) by (apply Hl; now left).
          rewrite IH by (intros kv' I; apply Hl; now right). reflexivity. }
        apply G. tauto.
      - apply Forall_forall. intros part I. apply in_map_iff in I.
        destruct I as (kv & <- & I). now apply (query_part_no_amp_any r Hr). }
    rewrite F. unfold record_of_fields.
    rewrite parse_qs_distinct.
    + cbn [app]. rewrite map_map. cbn [fst snd].
      rewrite (assign_params_distinct_any r []); [reflexivity| |exact ND].
      intros k v I. now apply (Hr k v).
    + cbn [keys List.map app]. rewrite map_map. cbn [fst].
      rewrite <- (map_map fst short_key). apply NoDup_map_inj; [|exact ND].
      intros a b Ia Ib. apply in_map_iff in Ia, Ib.
      destruct Ia as ([ka va] & <- & Ia). destruct Ib as ([kb vb] & <- & Ib).
      apply round_trip_short_inj; [now apply (Hr ka va)|now apply (Hr kb vb)].
Qed.

Lemma round_trip_any :
  forall (X : Externals) (r : dict pystr),
  NoDup (keys r) ->
  (forall k v, In (k, v) r ->
     round_trip_key k /\ v <> [] /\ forallb is_scalar v = true) ->
  App.create_upi_string r = Return (serialized r)
  /\ App.parse_upi_string X (serialized r) = (Some r, None)
  /\ forall st,
       QrHandler.create_upi_string r st = (Return (serialized r), st)
       /\ fst (QrHandler.parse_upi_string X (serialized r) st) = Return r.
Proof.
  intros X r ND Hr.
  destruct (record_of_serialized_any r ND Hr) as [Hq Hrec].
  unfold serialized.
  set (q := join (lit "&") (List.map query_part r)) in *.
  assert (U : Urllib.urlparse (normalize_NFKC X) (ip_address X)
                (lit "upi://pay?" ++ q)
              = Return (Urllib.mkParse (lit "upi") (lit "pay") [] [] q [])).
  { apply urlparse_pay; apply (forallb_not_in _ _ _ Hq); reflexivity. }
  assert (S : startswith (lit "upi://pay?" ++ q) (lit "upi://") = true)
    by reflexivity.
  split; [|split].
  - unfold App.create_upi_string. now rewrite (app_query_parts_any r Hr).
  - rewrite (app_parse_upi X _ _ S U). cbn [Urllib.p_query]. now rewrite Hrec.
  - intro st. split.
    + unfold QrHandler.create_upi_string, lift.
      now rewrite (handler_query_parts_any r Hr).
    + destruct (handler_parse_upi X _ st _ S U) as [out ->].
      cbn [fst Urllib.p_query]. now rewrite Hrec.
Qed.

(* ================================================================= *)
(** ** Extra properties of the parser *)

(** X1. Whatever the text, the record that [parse_upi_string] returns has
    unique keys and no empty value, and its values have no surrogate when
    the text has none (an escape never decodes to one). *)
Theorem parse_record_invariants :
  forall (X : Externals) (text : pystr) (d : dict pystr),
  (fst (App.parse_upi_string X text) = Some d
   \/ exists st, fst (QrHandler.parse_upi_string X text st) = Return d) ->
  NoDup (keys d)
  /\ forall k v, In (k, v) d ->
       v <> []
       /\ (forallb is_scalar text = true -> forallb is_scalar v = true).
Proof.
  intros X text d H.
  assert (E : d = [] \/ exists parsed,
              Urllib.urlparse (normalize_NFKC X) (ip_address X) text = Return parsed
              /\ d = record_of_fields (Urllib.parse_qsl (Urllib.p_query parsed) false)).
  { destruct (startswith text (lit "upi://")) eqn:S.
    - destruct (Urllib.urlparse (normalize_NFKC X) (ip_address X) text)
        as [parsed|e] eqn:U.
      + right. exists parsed. split; [reflexivity|].
        destruct H as [H|[st H]].
        * rewrite (app_parse_upi X text parsed S U) in H. cbn in H. congruence.
        * destruct (handler_parse_upi X text st parsed S U) as [out E].
          rewrite E in H. cbn in H. congruence.
      + left. destruct H as [H|[st H]].
        * rewrite (app_parse_raise X text e S U) in H. discriminate.
        * rewrite (handler_parse_raise X text st e S U) in H.
          destruct (Utf8.encode _); cbn in H; congruence.
    - left. destruct H as [H|[st H]].
      + rewrite (app_parse_not_upi X text S) in H. discriminate.
      + rewrite (handler_parse_not_upi X text st S) in H. cbn in H. congruence. }
  destruct E as [->|(parsed & U & ->)].
  - split; [constructor|]. intros k v [].
  - split; [apply record_NoDup|].
    intros k v I. apply record_entries in I. destruct I as (n & I & _).
    destruct (parse_qsl_fields _ _ _ I) as [Hv Hs]. split; [exact Hv|].
    intro Ht. apply Hs.
    apply (forallb_incl _ _ text); [|exact Ht].
    now apply (urlparse_query_incl _ _ _ _ U).
Qed.

Lemma parse_record_invariants_witness :
  NoDup (keys [(lit "payee_address", lit "a@b"); (lit "amount", lit "5")])
  /\ forall k v,
       In (k, v) [(lit "payee_address", lit "a@b"); (lit "amount", lit "5")] ->
       v <> []
       /\ (forallb is_scalar (lit "upi://pay?pa=a%40b&am=5&tn=") = true ->
           forallb is_scalar v = true).
Proof.
  apply (parse_record_invariants toy_externals (lit "upi://pay?pa=a%40b&am=5&tn=")).
  left. reflexivity.
Defined.

(** X2. A text with no question mark yields no parameter: the web parser
    returns the empty record or an error; the handler returns the empty
    record, unless the web parser's error is a text that the console cannot
    print, in which case the handler raises [UnicodeEncodeError]. *)
Theorem no_question_mark_no_parameters :
  forall (X : Externals) (text : pystr),
  contains 63 text = false ->
  (forall d, fst (App.parse_upi_string X text) = Some d -> d = [])
  /\ (forall st,
        fst (QrHandler.parse_upi_string X text st) = Return []
        \/ exists error msg,
             App.parse_upi_string X text = (None, Some error)
             /\ existsb Utf8.is_surrogate error = true
             /\ QrHandler.parse_upi_string X text st
                = (Raise (UnicodeEncodeError msg), st)).
Proof.
  intros X text C.
  destruct (startswith text (lit "upi://")) eqn:S.
  - destruct (Urllib.urlparse (normalize_NFKC X) (ip_address X) text)
      as [parsed|e] eqn:U.
    + pose proof (urlparse_no_question_mark _ _ _ _ U C) as Q. split.
      * intros d H. rewrite (app_parse_upi X text parsed S U), Q in H.
        cbn in H. congruence.
      * intro st. left.
        destruct (handler_parse_upi X text st parsed S U) as [out ->].
        cbn [fst]. now rewrite Q.
    + split.
      * intros d H. rewrite (app_parse_raise X text e S U) in H. discriminate.
      * intro st. destruct (existsb Utf8.is_surrogate (str_exn e)) eqn:P.
        -- right. destruct (handler_parse_raise_fails X text st e S U P) as [msg E].
           exists (str_exn e), msg. split; [exact (app_parse_raise X text e S U)|].
           split; [exact P|exact E].
        -- left. now rewrite (handler_parse_raise_ok X text st e S U P).
  - split.
    + intros d H. rewrite (app_parse_not_upi X text S) in H. discriminate.
    + intro st. left. now rewrite (handler_parse_not_upi X text st S).
Qed.

Lemma no_question_mark_no_parameters_witness :
  (forall d,
     fst (App.parse_upi_string toy_externals (lit "upi://pay&pa=a")) = Some d ->
     d = [])
  /\ (forall st,
        fst (QrHandler.parse_upi_string toy_externals (lit "upi://pay&pa=a") st)
        = Return []).
Proof.
  destruct (no_question_mark_no_parameters toy_externals (lit "upi://pay&pa=a")
              eq_refl) as [Ha Hh].
  split; [exact Ha|].
  intro st. destruct (Hh st) as [H|(error & msg & _ & _ & H)]; [exact H|].
  exfalso.
  assert (F : fst (QrHandler.parse_upi_string toy_externals (lit "upi://pay&pa=a") st)
              = Raise (UnicodeEncodeError msg)) by now rewrite H.
  vm_compute in F. discriminate.
Defined.

(** X3. The round trip holds beyond the nine field names: for a record with
    unique keys, each a recognized field name or a key that is passed
    through (neither a field name nor a short key, with no [%], [+], [=],
    [&], [#], tab, carriage return or line feed), and with non-empty values
    without surrogates, both serializers return the same text and both
    parsers turn it back into the record. *)
Theorem round_trip_with_pass_through_keys :
  forall (X : Externals) (r : dict pystr),
  NoDup (keys r) ->
  (forall k v, In (k, v) r ->
     round_trip_key k /\ v <> [] /\ forallb is_scalar v = true) ->
  App.create_upi_string r = Return (serialized r)
  /\ App.parse_upi_string X (serialized r) = (Some r, None)
  /\ forall st,
       QrHandler.create_upi_string r st = (Return (serialized r), st)
       /\ fst (QrHandler.parse_upi_string X (serialized r) st) = Return r.
Proof. exact round_trip_any. Qed.

Lemma round_trip_with_pass_through_keys_witness :
  App.create_upi_string pass_through_record
  = Return (lit "upi://pay?pa=shop%40upi&mode=%E2%82%AC%F0%9F%98%80%26%3D")
  /\ App.parse_upi_string toy_externals
       (lit "upi://pay?pa=shop%40upi&mode=%E2%82%AC%F0%9F%98%80%26%3D")
     = (Some pass_through_record, None).
Proof.
  destruct (round_trip_with_pass_through_keys toy_externals pass_through_record)
    as (H1 & H2 & _).
  - repeat constructor; cbn [In keys List.map fst pass_through_record];
      intros H; repeat (destruct H as [H|H]; [vm_compute in H; discriminate|]);
      exact H.
  - intros k v I. cbn [In pass_through_record] in I.
    destruct I as [I|[I|[]]]; inversion I; subst.
    + split; [left; vm_compute; tauto|]. split; [discriminate|reflexivity].
    + split; [|split; [discriminate|reflexivity]].
      right. repeat split.
      * cbn. intros H.
        repeat (destruct H as [H|H]; [discriminate|]). exact H.
      * cbn. intros H.
        repeat (destruct H as [H|H]; [discriminate|]). exact H.
  - split; [exact H1|exact H2].
Defined.

Lemma short_key_semantic_recognized : forall n,
  In n short_keys -> In (semantic_name n) recognized_fields.
Proof. intros n H. recognized H; vm_compute; tauto. Qed.

(** X4. Serializing what was parsed keeps the meaning. When every key of the
    query is a short key or a key that is passed through, and the text has
    no surrogate, the parsed record serializes without error and the
    serialized text parses to the same record (the text itself may differ
    from the original). *)
Theorem reserialization_keeps_the_record :
  forall (X : Externals) (text : pystr) parsed,
  startswith text (lit "upi://") = true ->
  Urllib.urlparse (normalize_NFKC X) (ip_address X) text = Return parsed ->
  forallb is_scalar text = true ->
  (forall n v, In (n, v) (Urllib.parse_qsl (Urllib.p_query parsed) false) ->
               In n short_keys \/ pass_through_key n) ->
  exists record,
    App.parse_upi_string X text = (Some record, None)
    /\ App.create_upi_string record = Return (serialized record)
    /\ App.parse_upi_string X (serialized record) = (Some record, None)
    /\ forall st,
         fst (QrHandler.parse_upi_string X text st) = Return record
         /\ QrHandler.create_upi_string record st = (Return (serialized record), st)
         /\ fst (QrHandler.parse_upi_string X (serialized record) st)
            = Return record.
Proof.
  intros X text parsed S U Ht Hk.
  set (fields := Urllib.parse_qsl (Urllib.p_query parsed) false) in *.
  exists (record_of_fields fields).
  assert (Hr : forall k v, In (k, v) (record_of_fields fields) ->
               round_trip_key k /\ v <> [] /\ forallb is_scalar v = true).
  { intros k v I. apply record_entries in I. destruct I as (n & I & ->).
    destruct (parse_qsl_fields _ _ _ I) as [Hv Hs]. split; [|split].
    - destruct (Hk n v I) as [H|H].
      + left. now apply short_key_semantic_recognized.
      + right. now rewrite (pass_through_semantic n H).
    - exact Hv.
    - apply Hs. apply (forallb_incl _ _ text); [|exact Ht].
      now apply (urlparse_query_incl _ _ _ _ U). }
  destruct (round_trip_any X (record_of_fields fields) (record_NoDup fields) Hr)
    as (C1 & P1 & H1).
  split; [now apply app_parse_upi|]. split; [exact C1|]. split; [exact P1|].
  intro st. destruct (H1 st) as [C2 P2]. split; [|split; assumption].
  destruct (handler_parse_upi X text st parsed S U) as [out ->]. reflexivity.
Qed.

Lemma reserialization_keeps_the_record_witness :
  exists record,
    App.parse_upi_string toy_externals (lit "upi://pay?am=1+0&&pa=a@b&x&am=2#f")
    = (Some record, None)
    /\ App.create_upi_string record = Return (lit "upi://pay?am=1%200&pa=a%40b")
    /\ App.parse_upi_string toy_externals (lit "upi://pay?am=1%200&pa=a%40b")
       = (Some record, None).
Proof.
  destruct (reserialization_keeps_the_record toy_externals
              (lit "upi://pay?am=1+0&&pa=a@b&x&am=2#f")
              (Urllib.mkParse (lit "upi") (lit "pay") [] []
                 (lit "am=1+0&&pa=a@b&x&am=2") (lit "f")))
    as (record & P & C & P' & _).
  - reflexivity.
  - reflexivity.
  - reflexivity.
  - intros n v I. left. vm_compute in I.
    repeat (destruct I as [I|I]; [inversion I; subst; vm_compute; tauto|]).
    contradiction.
  - exists record. assert (E : Some record = Some [(lit "amount", lit "1 0"); (lit "payee_address", lit "a@b")]).
    { transitivity (fst (App.parse_upi_string toy_externals
                           (lit "upi://pay?am=1+0&&pa=a@b&x&am=2#f"))).
      - now rewrite P.
      - reflexivity. }
    inversion E; subst. split; [exact P|]. split; [exact C|exact P'].
Defined.

(* ================================================================= *)
(** ** When serializing fails *)

Lemma startswith_app : forall p s, startswith (p ++ s) p = true.
Proof.
  induction p as [|c p IH]; intro s; [destruct s; reflexivity|].
  cbn [app startswith]. now rewrite N.eqb_refl, IH.
Qed.

Lemma quote_surrogate_free : forall v safe,
  existsb Utf8.is_surrogate v = false ->
  exists encoded, Urllib.quote v safe = Return encoded.
Proof.
  intros [|c v] safe H; [eexists; reflexivity|].
  unfold Urllib.quote, Utf8.encode. rewrite (encode_from_surrogate_free _ _ H).
  eexists. reflexivity.
Qed.

Lemma quote_surrogate : forall v safe,
  existsb Utf8.is_surrogate v = true ->
  exists msg, Urllib.quote v safe = Raise (UnicodeEncodeError msg).
Proof.
  intros [|c v] safe H; [discriminate|].
  unfold Urllib.quote, Utf8.encode.
  destruct (encode_from_surrogate _ O H) as [msg ->]. eexists. reflexivity.
Qed.

Lemma handler_query_parts_ok : forall d,
  (forall k v, In (k, v) d -> existsb Utf8.is_surrogate v = false) ->
  exists parts, QrHandler.query_parts_of d = Return parts.
Proof.
  induction d as [|[k v] d IH]; intro H; [eexists; reflexivity|].
  cbn [QrHandler.query_parts_of].
  destruct (quote_surrogate_free v (lit "/") (H k v (or_introl eq_refl))) as [e ->].
  destruct IH as [parts ->]; [intros k' v' I; apply (H k' v'); now right|].
  eexists. reflexivity.
Qed.

Lemma handler_query_parts_raise : forall d,
  (exists k v, In (k, v) d /\ existsb Utf8.is_surrogate v = true) ->
  exists msg, QrHandler.query_parts_of d = Raise (UnicodeEncodeError msg).
Proof.
  induction d as [|[k v] d IH]; intros (k0 & v0 & I & H); [destruct I|].
  cbn [QrHandler.query_parts_of].
  destruct (existsb Utf8.is_surrogate v) eqn:Hv.
  - destruct (quote_surrogate v (lit "/") Hv) as [msg ->]. eexists. reflexivity.
  - destruct (quote_surrogate_free v (lit "/") Hv) as [e ->]. cbn [bind].
    destruct I as [I|I]; [inversion I; subst; congruence|].
    destruct IH as [msg ->]; [now exists k0, v0|]. eexists. reflexivity.
Qed.

(** X5. The handler's [create_upi_string] fails in one case only. When no
    value holds a surrogate it returns a text that begins with [upi://pay?]
    and leaves the handler as it was; when some value holds a surrogate it
    raises [UnicodeEncodeError]. *)
Theorem handler_create_fails_on_surrogates_only : forall (d : dict pystr) st,
  ((forall k v, In (k, v) d -> existsb Utf8.is_surrogate v = false) ->
   exists text,
     QrHandler.create_upi_string d st = (Return text, st)
     /\ startswith text (lit "upi://pay?") = true)
  /\ ((exists k v, In (k, v) d /\ existsb Utf8.is_surrogate v = true) ->
      exists msg,
        QrHandler.create_upi_string d st = (Raise (UnicodeEncodeError msg), st)).
Proof.
  intros d st. unfold QrHandler.create_upi_string, lift. split; intro H.
  - destruct (handler_query_parts_ok d H) as [parts ->]. cbn [bind].
    eexists. split; [reflexivity|apply startswith_app].
  - destruct (handler_query_parts_raise d H) as [msg ->]. cbn [bind].
    eexists. reflexivity.
Qed.

Lemma handler_create_fails_on_surrogates_only_witness :
  (exists text,
     QrHandler.create_upi_string [(lit "k&", lit "a b")] (QrHandler.__init__ [] [])
     = (Return text, QrHandler.__init__ [] [])
     /\ startswith text (lit "upi://pay?") = true)
  /\ exists msg,
       QrHandler.create_upi_string [(lit "amount", [0xDC00])]
         (QrHandler.__init__ [] [])
       = (Raise (UnicodeEncodeError msg), QrHandler.__init__ [] []).
Proof.
  split.
  - apply (handler_create_fails_on_surrogates_only [(lit "k&", lit "a b")]).
    intros k v [I|[]]. inversion I. reflexivity.
  - apply (handler_create_fails_on_surrogates_only [(lit "amount", [0xDC00])]).
    exists (lit "amount"), [0xDC00]. split; [now left|reflexivity].
Defined.

(* ================================================================= *)
(** ** Percent signs that begin no escape *)

Lemma unquote_item_no_escape : forall item,
  is_escape item = false -> Urllib.unquote_item item = 37 :: item.
Proof.
  intros [|h [|l rest]] H; try reflexivity.
  cbn [is_escape] in H. unfold Urllib.is_hexdigit in H.
  cbn [Urllib.unquote_item].
  destruct (Urllib.hexval h); [|reflexivity].
  destruct (Urllib.hexval l); [discriminate|reflexivity].
Qed.

Lemma join_percent : forall items w,
  forallb (fun item => negb (is_escape item)) items = true ->
  w ++ flat_map Urllib.unquote_item items = join [37] (w :: items).
Proof.
  induction items as [|i items IH]; intros w H.
  - cbn. apply app_nil_r.
  - cbn [forallb] in H. apply andb_true_iff in H. destruct H as [Hi Hs].
    apply negb_true_iff in Hi.
    cbn [flat_map]. rewrite (unquote_item_no_escape i Hi).
    cbn [app]. rewrite (IH i Hs). reflexivity.
Qed.

Lemma unquote_to_bytes_no_escape : forall s,
  no_escape s = true -> Urllib.unquote_to_bytes s = s.
Proof.
  intros s H. unfold no_escape in H. rewrite unquote_to_bytes_eq.
  pose proof (join_split 37 s) as J.
  destruct (split 37 s) as [|w items] eqn:E; [now apply split_not_nil in E|].
  cbn [hd tl] in *. now rewrite (join_percent items w H).
Qed.

Lemma unquote_no_escape : forall s,
  forallb isascii s = true -> no_escape s = true -> Urllib.unquote s = s.
Proof.
  intros s Ha H. rewrite unquote_ascii by assumption.
  rewrite unquote_to_bytes_no_escape by assumption.
  now apply decode_replace_all_ascii.
Qed.

(** X6. A percent sign that begins no escape is no error: it is kept as it
    is. For a non-empty ASCII value in which no percent sign is followed by
    two hexadecimal digits, and without [&], [#], [+], tab, carriage return
    or line feed, the text [upi://pay?tn=value] parses to the record with
    that very value as transaction note. *)
Theorem malformed_escape_is_kept : forall (X : Externals) (value : pystr),
  value <> [] ->
  forallb isascii value = true ->
  no_escape value = true ->
  (forall c, In c [38; 35; 43; 9; 13; 10] -> contains c value = false) ->
  App.parse_upi_string X (lit "upi://pay?tn=" ++ value)
  = (Some [(lit "transaction_note", value)], None)
  /\ forall st,
       fst (QrHandler.parse_upi_string X (lit "upi://pay?tn=" ++ value) st)
       = Return [(lit "transaction_note", value)].
Proof.
  intros X value Hne Ha He Hc.
  assert (C : forall c, In c [38; 35; 43; 9; 13; 10] ->
              contains c (lit "tn=" ++ value) = false).
  { intros c I. rewrite contains_app, (Hc c I).
    cbn [In] in I. repeat (destruct I as [<-|I]; [reflexivity|]). contradiction. }
  assert (U : Urllib.urlparse (normalize_NFKC X) (ip_address X)
                (lit "upi://pay?" ++ (lit "tn=" ++ value))
              = Return (Urllib.mkParse (lit "upi") (lit "pay") [] []
                          (lit "tn=" ++ value) [])).
  { apply urlparse_pay; apply C; cbn [In]; tauto. }
  assert (F : Urllib.parse_qsl (lit "tn=" ++ value) false
              = [(lit "tn", value)]).
  { rewrite parse_qsl_split, split_no_sep by (apply C; cbn [In]; tauto).
    cbn [flat_map]. rewrite app_nil_r.
    unfold Urllib.parse_qsl_field.
    change (lit "tn=" ++ value) with (lit "tn" ++ 61 :: value).
    rewrite split1_app_sep by reflexivity.
    destruct value as [|x value']; [congruence|].
    cbn [app lit List.map list_ascii_of_string].
    rewrite (replace_char_id 43 32 (x :: value')) by (apply Hc; cbn [In]; tauto).
    rewrite (unquote_no_escape (x :: value')) by assumption.
    reflexivity. }
  change (lit "upi://pay?tn=" ++ value)
    with (lit "upi://pay?" ++ (lit "tn=" ++ value)).
  assert (S : startswith (lit "upi://pay?" ++ (lit "tn=" ++ value)) (lit "upi://")
              = true) by reflexivity.
  split.
  - rewrite (app_parse_upi X _ _ S U). cbn [Urllib.p_query]. now rewrite F.
  - intro st. destruct (handler_parse_upi X _ st _ S U) as [out ->].
    cbn [fst Urllib.p_query]. now rewrite F.
Qed.

Lemma malformed_escape_is_kept_witness :
  App.parse_upi_string toy_externals (lit "upi://pay?tn=" ++ lit "50% off %zz 100%")
  = (Some [(lit "transaction_note", lit "50% off %zz 100%")], None)
  /\ forall st,
       fst (QrHandler.parse_upi_string toy_externals
              (lit "upi://pay?tn=" ++ lit "50% off %zz 100%") st)
       = Return [(lit "transaction_note", lit "50% off %zz 100%")].
Proof.
  apply (malformed_escape_is_kept toy_externals (lit "50% off %zz 100%")).
  - discriminate.
  - reflexivity.
  - reflexivity.
  - intros c I. cbn [In] in I.
    repeat (destruct I as [<-|I]; [reflexivity|]). contradiction.
Defined.

(* ================================================================= *)
(** ** Merging overrides *)

Lemma dict_get_update : forall (m d : dict pystr) k,
  NoDup (keys m) ->
  dict_get (dict_update d m) k =
  match dict_get m k with
  | Some v => Some v
  | None => dict_get d k
  end.
Proof.
  unfold dict_update.
  induction m as [|[k0 v0] m IH]; intros d k ND; [reflexivity|].
  inversion ND as [|? ? Hn ND']; subst.
  cbn [fold_left fst snd]. rewrite (IH _ _ ND'). cbn [dict_get].
  destruct (dict_get m k) as [v|] eqn:Em.
  - destruct (str_eqb k0 k) eqn:Ek; [|reflexivity].
    apply str_eqb_eq in Ek. subst k0. exfalso. apply Hn.
    apply dict_get_some_in in Em. apply in_map_iff. now exists (k, v).
  - rewrite dict_get_set. destruct (str_eqb k0 k); reflexivity.
Qed.

Lemma keys_dict_set_prefix : forall {V} (d : dict V) k v,
  exists extra, keys (dict_set d k v) = keys d ++ extra.
Proof.
  intros V d k v. rewrite keys_dict_set.
  destruct (existsb (str_eqb k) (keys d)).
  - exists []. now rewrite app_nil_r.
  - now exists [k].
Qed.

Lemma keys_update_prefix : forall (m d : dict pystr),
  exists extra, keys (dict_update d m) = keys d ++ extra.
Proof.
  unfold dict_update.
  induction m as [|[k0 v0] m IH]; intro d.
  - exists []. now rewrite app_nil_r.
  - cbn [fold_left fst snd]. destruct (IH (dict_set d k0 v0)) as [e1 ->].
    destruct (keys_dict_set_prefix d k0 v0) as [e2 ->].
    exists (e2 ++ e1). now rewrite app_assoc.
Qed.

(** X7. What the handler's merge does: after [upi_params.update(modify_params)]
    every key of the override holds the override's value, empty or not,
    every other key keeps its value, and the keys of the decoded record keep
    their places, new keys coming after them. *)
Theorem handler_merge : forall (d m : dict pystr) (k : pystr),
  NoDup (keys m) ->
  dict_get (dict_update d m) k
  = match dict_get m k with
    | Some v => Some v
    | None => dict_get d k
    end
  /\ exists extra, keys (dict_update d m) = keys d ++ extra.
Proof.
  intros d m k ND. split; [now apply dict_get_update|apply keys_update_prefix].
Qed.

Lemma handler_merge_witness :
  dict_get (dict_update
              [(lit "payee_address", lit "shop@upi"); (lit "amount", lit "100");
               (lit "transaction_note", lit "Original Payment")]
              [(lit "amount", lit "200");
               (lit "transaction_note", lit "Modified Payment")])
           (lit "payee_address")
  = Some (lit "shop@upi").
Proof.
  destruct (handler_merge
              [(lit "payee_address", lit "shop@upi"); (lit "amount", lit "100");
               (lit "transaction_note", lit "Original Payment")]
              [(lit "amount", lit "200");
               (lit "transaction_note", lit "Modified Payment")]
              (lit "payee_address")) as [H _].
  - repeat constructor; cbn [In keys List.map fst];
      intros H; repeat (destruct H as [H|H]; [vm_compute in H; discriminate|]);
      exact H.
  - exact H.
Defined.

(** X8. What the merge of the route [/modify] does: a key of the form other
    than [file] whose value is not empty replaces or adds the field; every
    other field keeps its value. *)
Theorem app_merge : forall (mods d : dict pystr) (k : pystr),
  NoDup (keys mods) ->
  dict_get (App.apply_modifications d mods) k
  = match dict_get mods k with
    | Some (c :: v) => if str_eqb k (lit "file") then dict_get d k else Some (c :: v)
    | _ => dict_get d k
    end.
Proof.
  unfold App.apply_modifications.
  induction mods as [|[k0 v0] mods IH]; intros d k ND; [reflexivity|].
  inversion ND as [|? ? Hn ND']; subst.
  cbn [fold_left fst snd]. rewrite (IH _ _ ND'). cbn [dict_get].
  destruct (str_eqb k0 k) eqn:Ek.
  - apply str_eqb_eq in Ek. subst k0.
    rewrite (proj2 (dict_get_none mods k) Hn).
    destruct v0 as [|c v]; cbn [App.truthy].
    + now rewrite andb_false_r.
    + rewrite andb_true_r. destruct (str_eqb k (lit "file")); cbn [negb];
        [reflexivity|]. rewrite dict_get_set. now rewrite str_eqb_refl.
  - assert (G : dict_get
                  (if negb (str_eqb k0 (lit "file")) && App.truthy (Some v0)
                   then dict_set d k0 v0 else d) k = dict_get d k).
    { destruct (_ && _); [|reflexivity]. now rewrite dict_get_set, Ek. }
    rewrite G. reflexivity.
Qed.

Lemma app_merge_witness :
  dict_get (App.apply_modifications
              [(lit "payee_address", lit "shop@upi"); (lit "amount", lit "100")]
              [(lit "amount", lit "200"); (lit "payee_address", []);
               (lit "file", lit "x")])
           (lit "amount")
  = Some (lit "200").
Proof.
  rewrite (app_merge
             [(lit "amount", lit "200"); (lit "payee_address", []);
              (lit "file", lit "x")]
             [(lit "payee_address", lit "shop@upi"); (lit "amount", lit "100")]
             (lit "amount")).
  - reflexivity.
  - repeat constructor; cbn [In keys List.map fst];
      intros H; repeat (destruct H as [H|H]; [vm_compute in H; discriminate|]);
      exact H.
Defined.

(* ================================================================= *)
(** ** The optical steps of the handler *)

Lemma decode_qr_run : forall (X : Externals) (image_path : pystr) st,
  decodes_printably X (QrHandler.files st) image_path ->
  exists out,
    QrHandler.decode_qr X image_path st
    = (Return (fst (App.decode_qr_code X (QrHandler.files st) image_path)),
       QrHandler.mkState (QrHandler.upi_data st) (QrHandler.files st) out).
Proof.
  intros X image_path st P. unfold decodes_printably in P. revert P.
  unfold QrHandler.decode_qr, App.decode_qr_code, try_except, get, lift, ret.
  unfold bindM at 1.
  destruct (cv2_imread X (QrHandler.files st) image_path) as [img|]; intro P.
  - unfold bindM at 1.
    destruct (pyzbar_decode X img) as [[|[t|e] rest]|e];
      cbn [fst snd] in P; unfold bindM.
    + eexists. reflexivity.
    + rewrite print_line_ok.
      * eexists. reflexivity.
      * apply existsb_surrogate_app; [reflexivity|]. apply P. now left.
    + rewrite print_exn_ok.
      * eexists. reflexivity.
      * apply existsb_surrogate_app; [reflexivity|]. apply P. now right.
    + rewrite print_exn_ok.
      * eexists. reflexivity.
      * apply existsb_surrogate_app; [reflexivity|]. apply P. now right.
  - unfold bindM.
    destruct (print_only_prints
                (QrHandler.Line (lit "Error: Could not read image from " ++ image_path))
                st) as [out [->|(e & He & ->)]].
    + eexists. reflexivity.
    + rewrite print_console_error; [|reflexivity|exact He].
      eexists. reflexivity.
Qed.

(** Whatever the libraries give, [decode_qr] only prints. *)
Lemma decode_qr_cases : forall (X : Externals) (image_path : pystr) st,
  exists out,
    let st' := QrHandler.mkState (QrHandler.upi_data st) (QrHandler.files st) out in
    QrHandler.decode_qr X image_path st
    = (Return (fst (App.decode_qr_code X (QrHandler.files st) image_path)), st')
    \/ QrHandler.decode_qr X image_path st = (Return None, st')
    \/ exists e, QrHandler.decode_qr X image_path st = (Raise e, st').
Proof.
  intros X image_path st.
  remember (QrHandler.decode_qr X image_path st) as r eqn:Er. revert Er.
  unfold QrHandler.decode_qr, App.decode_qr_code, try_except, get, lift, ret.
  unfold bindM at 1.
  assert (Hexn : forall e,
            r = bindM (QrHandler.print (QrHandler.LineExn (lit "Error decoding QR code: ") e))
                  (fun _ s => (Return None, s)) st ->
            exists out,
              r = (Return None,
                   QrHandler.mkState (QrHandler.upi_data st) (QrHandler.files st) out)
              \/ exists e',
                   r = (Raise e',
                        QrHandler.mkState (QrHandler.upi_data st) (QrHandler.files st) out)).
  { intros e ->. unfold bindM.
    destruct (print_only_prints (QrHandler.LineExn (lit "Error decoding QR code: ") e) st)
      as [out [->|(e' & _ & ->)]]; exists out; [now left|right; now exists e']. }
  destruct (cv2_imread X (QrHandler.files st) image_path) as [img|].
  - unfold bindM at 1.
    destruct (pyzbar_decode X img) as [[|[t|e] rest]|e]; cbn [fst].
    + intros ->. eexists. left. reflexivity.
    + unfold bindM.
      destruct (print_only_prints (QrHandler.Line (lit "Decoded QR code: " ++ t)) st)
        as [out [->|(e & He & ->)]].
      * intros ->. exists out. now left.
      * rewrite print_console_error; [|reflexivity|exact He].
        intros ->. eexists. right. left. reflexivity.
    + intro Er. destruct (Hexn e Er) as [out [->|[e' ->]]]; exists out;
        [now left|right; right; now exists e'].
    + intro Er. destruct (Hexn e Er) as [out [->|[e' ->]]]; exists out;
        [now left|right; right; now exists e'].
  - unfold bindM.
    destruct (print_only_prints
                (QrHandler.Line (lit "Error: Could not read image from " ++ image_path))
                st) as [out [->|(e & He & ->)]].
    + intros ->. exists out. now left.
    + rewrite print_console_error; [|reflexivity|exact He].
      intros ->. eexists. left. reflexivity.
Qed.

(** X9. The handler's [decode_qr] changes neither the files nor
    [self.upi_data]. When the text of the QR code, or else the text of the
    libraries' exception, can be printed, as a text that [bytes.decode]
    returned can, it does not raise: the text it returns is the one that the
    web application's [decode_qr_code] returns for the same image, and it
    returns [None] exactly where that function reports an error. That holds
    also when the path of the image cannot be printed. *)
Theorem handler_decode_qr_is_safe : forall (X : Externals) (image_path : pystr) st,
  (exists out,
     snd (QrHandler.decode_qr X image_path st)
     = QrHandler.mkState (QrHandler.upi_data st) (QrHandler.files st) out)
  /\ (decodes_printably X (QrHandler.files st) image_path ->
      exists out,
        QrHandler.decode_qr X image_path st
        = (Return (fst (App.decode_qr_code X (QrHandler.files st) image_path)),
           QrHandler.mkState (QrHandler.upi_data st) (QrHandler.files st) out)).
Proof.
  intros X image_path st. split; [|apply decode_qr_run].
  destruct (decode_qr_cases X image_path st) as [out [->|[->|[e ->]]]];
    now exists out.
Qed.

Lemma handler_decode_qr_is_safe_witness :
  exists out,
    QrHandler.decode_qr toy_externals (lit "in" ++ [0xDCFF] ++ lit ".png")
      (QrHandler.__init__ hello_files [])
    = (Return None, QrHandler.mkState [] hello_files out).
Proof.
  destruct (handler_decode_qr_is_safe toy_externals (lit "in" ++ [0xDCFF] ++ lit ".png")
              (QrHandler.__init__ hello_files [])) as [_ H].
  apply H. intros t [E|E]; vm_compute in E; [discriminate|].
  injection E as <-. reflexivity.
Defined.



(** X11. When the image cannot be read, holds no QR code, or holds an empty
    text, [decode_and_encode] writes no file and leaves [self.upi_data]
    alone; it returns [False], provided the text of the libraries'
    exception, if there is one, can be printed. *)
Theorem decode_and_encode_without_text :
  forall (X : Externals) (input output : pystr) modify_params st,
  App.truthy (fst (App.decode_qr_code X (QrHandler.files st) input)) = false ->
  (exists out,
     snd (QrHandler.decode_and_encode X input output modify_params st)
     = QrHandler.mkState (QrHandler.upi_data st) (QrHandler.files st) out)
  /\ (decodes_printably X (QrHandler.files st) input ->
      exists out,
        QrHandler.decode_and_encode X input output modify_params st
        = (Return false,
           QrHandler.mkState (QrHandler.upi_data st) (QrHandler.files st) out)).
Proof.
  intros X input output modify_params st H. split.
  - unfold QrHandler.decode_and_encode, bindM.
    destruct (decode_qr_cases X input st) as [out [->|[->|[e ->]]]];
      exists out; try reflexivity.
    destruct (fst (App.decode_qr_code X (QrHandler.files st) input)) as [[|c t]|];
      try discriminate; reflexivity.
  - intro P. unfold QrHandler.decode_and_encode, bindM.
    destruct (decode_qr_run X input st P) as [out ->].
    destruct (fst (App.decode_qr_code X (QrHandler.files st) input)) as [[|c t]|];
      try discriminate; exists out; reflexivity.
Qed.

Lemma decode_and_encode_without_text_witness :
  exists out,
    QrHandler.decode_and_encode toy_externals (lit "missing.png") (lit "out.png")
      (Some [(lit "amount", lit "200")]) (QrHandler.__init__ hello_files [])
    = (Return false, QrHandler.mkState [] hello_files out).
Proof.
  destruct (decode_and_encode_without_text toy_externals (lit "missing.png")
              (lit "out.png") (Some [(lit "amount", lit "200")])
              (QrHandler.__init__ hello_files []) eq_refl) as [_ H].
  apply H. intros t [E|E]; vm_compute in E; [discriminate|].
  injection E as <-. reflexivity.
Defined.

(* ================================================================= *)
(** ** The whole of [decode_and_encode] *)

Lemma dict_update_entries : forall (m d : dict pystr) k v,
  In (k, v) (dict_update d m) -> In (k, v) d \/ In (k, v) m.
Proof.
  unfold dict_update.
  induction m as [|[k0 v0] m IH]; intros d k v I; [now left|].
  cbn [fold_left fst snd] in I. destruct (IH _ _ _ I) as [H|H].
  - apply dict_set_in in H. destruct H as [H|H]; [now left|].
    right. left. now symmetry.
  - right. now right.
Qed.

Lemma scalar_no_surrogate : forall v,
  forallb is_scalar v = true -> existsb Utf8.is_surrogate v = false.
Proof.
  induction v as [|c v IH]; intro H; [reflexivity|].
  cbn [forallb] in H. apply andb_true_iff in H. destruct H as [Hc Hv].
  cbn [existsb]. rewrite (IH Hv). unfold is_scalar in Hc.
  apply andb_true_iff in Hc. destruct Hc as [_ Hc].
  apply negb_true_iff in Hc. now rewrite Hc.
Qed.

Lemma serialized_parse_aliased : forall (X : Externals) (r : dict pystr) st,
  NoDup (keys r) ->
  (forall k v, In (k, v) r ->
     round_trip_key k /\ v <> [] /\ forallb is_scalar v = true) ->
  exists out,
    QrHandler.parse_upi_string_aliased X (serialized r) st
    = (Return (r, true), QrHandler.mkState r (QrHandler.files st) out).
Proof.
  intros X r st ND Hr.
  destruct (record_of_serialized_any r ND Hr) as [Hq Hrec].
  unfold serialized.
  set (q := join (lit "&") (List.map query_part r)) in *.
  assert (U : Urllib.urlparse (normalize_NFKC X) (ip_address X)
                (lit "upi://pay?" ++ q)
              = Return (Urllib.mkParse (lit "upi") (lit "pay") [] [] q [])).
  { apply urlparse_pay; apply (forallb_not_in _ _ _ Hq); reflexivity. }
  assert (S : startswith (lit "upi://pay?" ++ q) (lit "upi://") = true)
    by reflexivity.
  destruct (handler_parse_aliased_upi X _ st _ S U) as [out E].
  cbn [Urllib.p_query] in E. rewrite Hrec in E. now exists out.
Qed.

Lemma decode_qr_code_text : forall (X : Externals) fs image_path text,
  fst (App.decode_qr_code X fs image_path) = Some text ->
  App.decode_qr_code X fs image_path = (Some text, None).
Proof.
  intros X fs image_path text. unfold App.decode_qr_code.
  destruct (cv2_imread X fs image_path) as [img|]; [|discriminate].
  destruct (pyzbar_decode X img) as [[|[t|e] rest]|e]; cbn [fst];
    try discriminate.
  now intros [= ->].
Qed.

Lemma decode_and_encode_upi :
  forall (X : Externals) (input output text : pystr) (m d : dict pystr)
         st st1 st2 parts img,
  QrHandler.decode_qr X input st = (Return (Some text), st1) ->
  text <> [] ->
  startswith text (lit "upi://") = true ->
  QrHandler.parse_upi_string_aliased X text st1 = (Return (d, true), st2) ->
  m <> [] ->
  QrHandler.query_parts_of (dict_update d m) = Return parts ->
  qrcode_image X (lit "upi://pay?" ++ join (lit "&") parts) 10 4 = Return img ->
  write_error X output = None ->
  existsb Utf8.is_surrogate output = false ->
  exists out,
    QrHandler.decode_and_encode X input output (Some m) st
    = (Return true,
       QrHandler.mkState (dict_update d m)
         (dict_set (QrHandler.files st2) output img) out).
Proof.
  intros X input output text m d st st1 st2 parts img Hd Ht Hs Hp Hm Hq Hi Hw Ho.
  destruct text as [|c text]; [congruence|].
  destruct m as [|kv m]; [congruence|].
  unfold QrHandler.decode_and_encode. unfold bindM at 1. rewrite Hd, Hs.
  unfold bindM at 1. unfold bindM at 1. rewrite Hp.
  cbn [QrHandler.print]. unfold bindM at 1. unfold bindM at 1.
  unfold QrHandler.write_line, QrHandler.set_upi_data, modify.
  unfold bindM at 1. unfold ret at 1.
  unfold QrHandler.create_upi_string, lift.
  rewrite Hq. cbn [bind].
  rewrite (encode_qr_saved X _ output 10 4 _ img Hi Hw Ho).
  eexists. reflexivity.
Qed.

(** X12. Decode, modify and encode as one step. When the image holds the
    serialized text of a record (unique keys, each a field name or passed
    through, values non-empty and without surrogates; the text has no
    surrogate, being one that [bytes.decode] returned) and the override is
    not empty and has no surrogate, the merged record serializes, and if the
    QR library renders that text, the output can be written and its path can
    be printed, [decode_and_encode] returns [True], the output file is the
    image of the text of the merged record, and [self.upi_data] is the
    merged record. *)
Theorem handler_decode_modify_encode :
  forall (X : Externals) (r m : dict pystr) (input output : pystr) st,
  NoDup (keys r) ->
  (forall k v, In (k, v) r ->
     round_trip_key k /\ v <> [] /\ forallb is_scalar v = true) ->
  m <> [] ->
  (forall k v, In (k, v) m -> existsb Utf8.is_surrogate v = false) ->
  fst (App.decode_qr_code X (QrHandler.files st) input) = Some (serialized r) ->
  existsb Utf8.is_surrogate (serialized r) = false ->
  existsb Utf8.is_surrogate output = false ->
  exists text,
    QrHandler.create_upi_string (dict_update r m) st = (Return text, st)
    /\ forall img,
         qrcode_image X text 10 4 = Return img ->
         write_error X output = None ->
         exists out,
           QrHandler.decode_and_encode X input output (Some m) st
           = (Return true,
              QrHandler.mkState (dict_update r m)
                (dict_set (QrHandler.files st) output img) out).
Proof.
  intros X r m input output st ND Hr Hm Hs Hd Hp0 Ho.
  destruct (handler_query_parts_ok (dict_update r m)) as [parts Hp].
  { intros k v I. apply dict_update_entries in I. destruct I as [I|I].
    - apply scalar_no_surrogate. now apply (Hr k v).
    - now apply (Hs k v). }
  exists (lit "upi://pay?" ++ join (lit "&") parts). split.
  { unfold QrHandler.create_upi_string, lift. now rewrite Hp. }
  intros img Hq Hw.
  destruct (decode_qr_run X input st) as [out1 E1].
  { intros t H. rewrite (decode_qr_code_text X _ _ _ Hd) in H. cbn [fst snd] in H.
    destruct H as [H|H]; [|discriminate]. now injection H as <-. }
  rewrite Hd in E1.
  destruct (serialized_parse_aliased X r
              (QrHandler.mkState (QrHandler.upi_data st) (QrHandler.files st) out1)
              ND Hr) as [out2 E2].
  cbn [QrHandler.files] in E2.
  assert (Ht : serialized r <> []) by discriminate.
  assert (St : startswith (serialized r) (lit "upi://") = true) by reflexivity.
  destruct (decode_and_encode_upi X input output (serialized r) m r st _ _
              parts img E1 Ht St E2 Hm Hp Hq Hw Ho) as [out E].
  exists out. exact E.
Qed.

Lemma handler_decode_modify_encode_witness :
  exists out,
    QrHandler.decode_and_encode toy_externals (lit "original_qr.png")
      (lit "modified_qr.png") (Some shop_override)
      (QrHandler.__init__ original_qr [])
    = (Return true,
       QrHandler.mkState
         [ (lit "payee_address", lit "shop@upi"); (lit "payee_name", lit "My Shop");
           (lit "amount", lit "200"); (lit "currency", lit "INR");
           (lit "transaction_note", lit "Modified Payment") ]
         [ (lit "original_qr.png", serialized shop_record);
           (lit "modified_qr.png",
            lit "upi://pay?pa=shop%40upi&pn=My%20Shop&am=200&cu=INR&tn=Modified%20Payment") ]
         out).
Proof.
  destruct (handler_decode_modify_encode toy_externals shop_record shop_override
              (lit "original_qr.png") (lit "modified_qr.png")
              (QrHandler.__init__ original_qr [])) as (text & C & H).
  - repeat constructor; cbn [In keys List.map fst shop_record];
      intros H; repeat (destruct H as [H|H]; [vm_compute in H; discriminate|]);
      exact H.
  - intros k v I. cbn [In shop_record] in I.
    repeat (destruct I as [I|I];
            [inversion I; subst; split; [left; vm_compute; tauto|];
             split; [discriminate|reflexivity]|]).
    contradiction.
  - discriminate.
  - intros k v I. cbn [In shop_override] in I.
    repeat (destruct I as [I|I]; [inversion I; subst; reflexivity|]).
    contradiction.
  - reflexivity.
  - reflexivity.
  - reflexivity.
  - assert (E : text = lit "upi://pay?pa=shop%40upi&pn=My%20Shop&am=200&cu=INR&tn=Modified%20Payment").
    { assert (E' : Return text = Return (lit "upi://pay?pa=shop%40upi&pn=My%20Shop&am=200&cu=INR&tn=Modified%20Payment")).
      { transitivity (fst (QrHandler.create_upi_string
                             (dict_update shop_record shop_override)
                             (QrHandler.__init__ original_qr []))).
        - now rewrite C.
        - reflexivity. }
      now inversion E'. }
    subst text. destruct (H _ eq_refl eq_refl) as [out E].
    exists out. exact E.
Defined.

(* ================================================================= *)
(** ** Generated images *)

(** X13. [generate_qr_code] never raises. When the QR library renders the
    data and the file can be written, the image is stored under the
    generated folder and [qr_code_to_base64] of the returned path gives its
    base64 text. [download] of the same name sends that image when the
    application runs in its own directory; when [send_file], which looks in
    the directory of [app.py], finds no such file there, [download] ends in
    its [FileNotFoundError] although the image exists. When the library or
    the write raises, the error text is returned and no file is written. *)
Theorem generate_then_download :
  forall (X : Externals) (rooted : pystr -> pystr) (data name : pystr)
         (fs : filesystem),
  let path := App.os_path_join App.GENERATED_FOLDER name in
  (forall img,
     qrcode_image X data 10 4 = Return img ->
     write_error X path = None ->
     App.generate_qr_code X data name fs
     = (Return (Some path, None), dict_set fs path img)
     /\ App.qr_code_to_base64 X (dict_set fs path img) path
        = Some (b64encode X img)
     /\ (rooted path = path ->
         App.download rooted (dict_set fs path img) name = App.SendFile path img)
     /\ (rooted path <> path ->
         dict_get fs (rooted path) = None ->
         App.download rooted (dict_set fs path img) name
         = App.SendFileNotFound (rooted path)))
  /\ ((exists e, qrcode_image X data 10 4 = Raise e)
      \/ (exists e, write_error X path = Some e) ->
      exists error,
        App.generate_qr_code X data name fs = (Return (None, Some error), fs)).
Proof.
  intros X rooted data name fs path. split.
  - intros img Hq Hw.
    unfold App.generate_qr_code, try_except, bindM, get, lift, write_file,
      modify, ret.
    fold path. rewrite Hq, Hw. split; [reflexivity|].
    unfold App.download, App.qr_code_to_base64. fold path.
    rewrite dict_get_set, str_eqb_refl. split; [reflexivity|]. split.
    + intros ->. now rewrite dict_get_set, str_eqb_refl.
    + intros Hn Hr. rewrite dict_get_set, Hr.
      destruct (str_eqb path (rooted path)) eqn:E; [|reflexivity].
      apply str_eqb_eq in E. congruence.
  - intros H.
    unfold App.generate_qr_code, try_except, bindM, get, lift, write_file,
      modify, ret.
    fold path. destruct (qrcode_image X data 10 4) as [img|e].
    + destruct H as [[e H]|[e H]]; [discriminate|]. rewrite H.
      eexists. reflexivity.
    + eexists. reflexivity.
Qed.

(** The application started in its own directory, and started in the
    directory above, with [app.py] in [src]. *)
Lemma generate_then_download_witness :
  App.generate_qr_code toy_externals (lit "upi://pay?am=5") (lit "qr_1.png") []
  = (Return (Some (lit "generated/qr_1.png"), None),
     [(lit "generated/qr_1.png", lit "upi://pay?am=5")])
  /\ App.download (fun p => p)
       [(lit "generated/qr_1.png", lit "upi://pay?am=5")] (lit "qr_1.png")
     = App.SendFile (lit "generated/qr_1.png") (lit "upi://pay?am=5")
  /\ App.download (App.os_path_join (lit "src"))
       [(lit "generated/qr_1.png", lit "upi://pay?am=5")] (lit "qr_1.png")
     = App.SendFileNotFound (lit "src/generated/qr_1.png").
Proof.
  destruct (generate_then_download toy_externals (fun p => p)
              (lit "upi://pay?am=5") (lit "qr_1.png") []) as [H _].
  destruct (H (lit "upi://pay?am=5") eq_refl eq_refl) as (G & _ & D & _).
  destruct (generate_then_download toy_externals (App.os_path_join (lit "src"))
              (lit "upi://pay?am=5") (lit "qr_1.png") []) as [H' _].
  destruct (H' (lit "upi://pay?am=5") eq_refl eq_refl) as (_ & _ & _ & D').
  split; [exact G|]. split; [exact (D eq_refl)|].
  apply D'; [discriminate|reflexivity].
Defined.

(* ================================================================= *)
(** ** Uploads *)

Lemma rpartition_tail_app : forall sep a b,
  contains sep b = false -> rpartition_tail sep (a ++ sep :: b) = b.
Proof.
  intros sep a b H. induction a as [|c a IH].
  - cbn [app rpartition_tail]. now rewrite H, N.eqb_refl.
  - cbn [app rpartition_tail]. rewrite contains_app. cbn [contains existsb].
    rewrite N.eqb_refl, orb_true_r. exact IH.
Qed.

(** X14. [allowed_file] looks at the text after the last dot only, whatever
    the case of its ASCII letters: a name [stem.ext] is allowed exactly
    when the lowercase of [ext] is one of the five extensions, and a name
    without a dot is not allowed. *)
Theorem allowed_file_by_extension : forall stem ext : pystr,
  contains 46 ext = false ->
  App.allowed_file (stem ++ 46 :: ext)
  = existsb (str_eqb (lower ext)) App.ALLOWED_EXTENSIONS
  /\ App.allowed_file ext = false.
Proof.
  intros stem ext H. unfold App.allowed_file. split.
  - rewrite rpartition_tail_app by assumption.
    rewrite contains_app. cbn [contains existsb]. rewrite N.eqb_refl.
    now rewrite orb_true_r.
  - now rewrite H.
Qed.

Lemma allowed_file_by_extension_witness :
  App.allowed_file (lit "my.scan" ++ 46 :: lit "JpEg") = true
  /\ App.allowed_file (lit "JpEg") = false.
Proof.
  destruct (allowed_file_by_extension (lit "my.scan") (lit "JpEg") eq_refl)
    as [H1 H2].
  split; [rewrite H1; reflexivity|exact H2].
Defined.

(** X15. [/decode] saves nothing unless there is a file with a name that
    [allowed_file] accepts: without a file, with an empty name or with
    another extension it answers 400 and the files are as they were. *)
Theorem decode_route_rejects_without_saving :
  forall (X : Externals) (file_field : option App.upload) (fs : filesystem),
  match file_field with
  | None => True
  | Some file => App.filename file = [] \/ App.allowed_file (App.filename file) = false
  end ->
  exists error, App.decode_route X file_field fs = (Return (App.DecodeError error 400), fs).
Proof.
  intros X [file|] fs H; [|eexists; reflexivity].
  unfold App.decode_route. destruct (App.filename file) as [|c name] eqn:E.
  - eexists. reflexivity.
  - destruct H as [H|H]; [discriminate|]. rewrite H. eexists. reflexivity.
Qed.

Lemma decode_route_rejects_without_saving_witness :
  exists error,
    App.decode_route toy_externals
      (Some (App.mkUpload (lit "payload.exe") (lit "upi://pay?am=5"))) []
    = (Return (App.DecodeError error 400), []).
Proof.
  apply (decode_route_rejects_without_saving toy_externals
           (Some (App.mkUpload (lit "payload.exe") (lit "upi://pay?am=5"))) []).
  right. reflexivity.
Defined.

(** X16. What [/decode] answers once the image is saved and read. A text of
    another scheme is a success: the raw text, no [upi_data], [is_upi]
    false. A UPI text that [urlparse] accepts gives the raw text, the parsed
    record and [is_upi] true. A UPI text on which [urlparse] raises gives
    the raw text with [is_upi] false. *)
Theorem decode_route_answers :
  forall (X : Externals) (file : App.upload) (fs fs' : filesystem) (text : pystr),
  App.filename file <> [] ->
  App.allowed_file (App.filename file) = true ->
  write_file X fs (upload_path X file) (App.content file) = Return fs' ->
  App.decode_qr_code X fs' (upload_path X file) = (Some text, None) ->
  (startswith text (lit "upi://") = false ->
   App.decode_route X (Some file) fs
   = (Return (App.DecodeResult text None false), fs'))
  /\ (forall parsed,
        startswith text (lit "upi://") = true ->
        Urllib.urlparse (normalize_NFKC X) (ip_address X) text = Return parsed ->
        App.decode_route X (Some file) fs
        = (Return (App.DecodeResult text
                     (Some (Some (record_of_fields
                                    (Urllib.parse_qsl (Urllib.p_query parsed) false))))
                     true), fs'))
  /\ (forall e,
        startswith text (lit "upi://") = true ->
        Urllib.urlparse (normalize_NFKC X) (ip_address X) text = Raise e ->
        str_exn e <> [] ->
        App.decode_route X (Some file) fs
        = (Return (App.DecodeResult text None false), fs')).
Proof.
  intros X file fs fs' text Hn Ha Hw Hd.
  unfold upload_path in *.
  assert (R : forall k,
            App.decode_route X (Some file) fs
            = (let (qr_data, error) := (Some text, @None pystr) in
               if App.truthy error then k
               else if startswith text (lit "upi://")
                    then let (upi_params, parse_error) := App.parse_upi_string X text in
                         if negb (App.truthy parse_error)
                         then ret (App.DecodeResult text (Some upi_params) true)
                         else ret (App.DecodeResult text None false)
                    else ret (App.DecodeResult text None false)) fs').
  { intro k. unfold App.decode_route.
    destruct (App.filename file) as [|c name] eqn:E; [congruence|].
    rewrite Ha. cbn [negb]. unfold bindM, get, lift, modify.
    rewrite Hw, Hd. reflexivity. }
  specialize (R (ret (App.DecodeError [] 400))). cbn [App.truthy] in R.
  split; [|split].
  - intro S. rewrite R, S. reflexivity.
  - intros parsed S U. rewrite R, S, (app_parse_upi X text parsed S U).
    reflexivity.
  - intros e S U He. rewrite R, S, (app_parse_raise X text e S U).
    destruct (str_exn e); [congruence|reflexivity].
Qed.

Lemma decode_route_answers_witness :
  App.decode_route toy_externals
    (Some (App.mkUpload (lit "scan.PNG") (lit "upi://pay?pa=a%40b"))) []
  = (Return (App.DecodeResult (lit "upi://pay?pa=a%40b")
               (Some (Some [(lit "payee_address", lit "a@b")])) true),
     [(lit "uploads/scan.PNG", lit "upi://pay?pa=a%40b")]).
Proof.
  destruct (decode_route_answers toy_externals
              (App.mkUpload (lit "scan.PNG") (lit "upi://pay?pa=a%40b")) []
              [(lit "uploads/scan.PNG", lit "upi://pay?pa=a%40b")]
              (lit "upi://pay?pa=a%40b")
              ltac:(discriminate) eq_refl eq_refl eq_refl) as (_ & H & _).
  apply (H (Urllib.mkParse (lit "upi") (lit "pay") [] [] (lit "pa=a%40b") []));
    reflexivity.
Defined.

(* ================================================================= *)
(** ** The route [/modify] *)

(** X17. A successful [/modify]. When the upload is saved and read as a UPI
    text that [urlparse] accepts, the merged record serializes, the QR
    library renders the new text and the image can be written, the route
    answers with the new text, the base64 text of the new image and the
    download address of [modified_qr_<time>.png], and that image is the
    only file added besides the upload. The record returned as
    [original_data] is the record after the merge: the route changes the
    parsed dictionary in place. *)
Theorem modify_route_success :
  forall (X : Externals) (request : App.modify_request) (file : App.upload)
         (fs fs1 : filesystem) (text new_text : pystr) parsed (img : pybytes),
  App.file_field request = Some file ->
  App.filename file <> [] ->
  write_file X fs (upload_path X file) (App.content file) = Return fs1 ->
  App.decode_qr_code X fs1 (upload_path X file) = (Some text, None) ->
  startswith text (lit "upi://") = true ->
  Urllib.urlparse (normalize_NFKC X) (ip_address X) text = Return parsed ->
  App.create_upi_string
    (App.apply_modifications
       (record_of_fields (Urllib.parse_qsl (Urllib.p_query parsed) false))
       (App.form request)) = Return new_text ->
  qrcode_image X new_text 10 4 = Return img ->
  write_error X
    (App.os_path_join App.GENERATED_FOLDER (modified_name (App.now request)))
  = None ->
  App.modify_route X request fs
  = (Return
       (App.JsonModified
          (App.apply_modifications
             (record_of_fields (Urllib.parse_qsl (Urllib.p_query parsed) false))
             (App.form request))
          new_text (Some (b64encode X img))
          (url_for_download X (modified_name (App.now request)))),
     dict_set fs1
       (App.os_path_join App.GENERATED_FOLDER (modified_name (App.now request)))
       img).
Proof.
  intros X request file fs fs1 text new_text parsed img
    Hf Hn Hw Hd Hs Hu Hc Hq Hg.
  unfold upload_path, modified_name in *.
  unfold App.modify_route. rewrite Hf.
  destruct (App.filename file) as [|c name] eqn:En; [congruence|].
  unfold bindM, get, lift, modify. rewrite Hw, Hd. cbn [App.truthy].
  rewrite Hs. cbn [negb]. rewrite (app_parse_upi X text parsed Hs Hu).
  cbn [App.truthy]. rewrite Hc.
  unfold App.generate_qr_code, try_except, bindM, get, lift, write_file,
    modify, ret.
  rewrite Hq, Hg. cbn [App.truthy].
  unfold App.qr_code_to_base64. rewrite dict_get_set, str_eqb_refl.
  reflexivity.
Qed.

Lemma modify_route_success_witness :
  App.modify_route toy_externals shop_request []
  = (Return
       (App.JsonModified
          [(lit "payee_address", lit "shop@upi"); (lit "amount", lit "200")]
          (lit "upi://pay?pa=shop%40upi&am=200")
          (Some (lit "upi://pay?pa=shop%40upi&am=200"))
          (lit "/download/modified_qr_1700000000.png")),
     [ (lit "uploads/in.png", lit "upi://pay?pa=shop%40upi&am=100");
       (lit "generated/modified_qr_1700000000.png",
        lit "upi://pay?pa=shop%40upi&am=200") ]).
Proof.
  apply (modify_route_success toy_externals shop_request
           (App.mkUpload (lit "in.png") (lit "upi://pay?pa=shop%40upi&am=100"))
           [] [(lit "uploads/in.png", lit "upi://pay?pa=shop%40upi&am=100")]
           (lit "upi://pay?pa=shop%40upi&am=100")
           (lit "upi://pay?pa=shop%40upi&am=200")
           (Urllib.mkParse (lit "upi") (lit "pay") [] []
              (lit "pa=shop%40upi&am=100") [])
           (lit "upi://pay?pa=shop%40upi&am=200"));
    (reflexivity || discriminate).
Defined.

(** X18. [/modify] leaves no output behind when it does not succeed.
    Whenever the route ends otherwise than with the success answer, by an
    error answer or by an exception, the files are as they were, or as they
    were with the upload saved: no image has been generated. *)
Theorem modify_route_failure_writes_no_image :
  forall (X : Externals) (request : App.modify_request) (fs fs' : filesystem)
         (result : outcome App.response),
  App.modify_route X request fs = (result, fs') ->
  (forall d t i u, result <> Return (App.JsonModified d t i u)) ->
  fs' = fs
  \/ exists file,
       App.file_field request = Some file
       /\ write_file X fs (upload_path X file) (App.content file) = Return fs'.
Proof.
  intros X request fs fs' result H Hr.
  unfold App.modify_route in H.
  destruct (App.file_field request) as [file|] eqn:Hf;
    [|inversion H; now left].
  destruct (App.filename file) as [|c name] eqn:En; [inversion H; now left|].
  unfold bindM, get, lift, modify in H.
  assert (Hp : upload_path X file
               = App.os_path_join App.UPLOAD_FOLDER (secure_filename X (c :: name))).
  { unfold upload_path. now rewrite En. }
  rewrite <- Hp in H.
  destruct (write_file X fs (upload_path X file) (App.content file))
    as [fs1|e] eqn:Hw; [|inversion H; now left].
  assert (G : fs' = fs1 -> fs' = fs \/
              exists file0, Some file = Some file0 /\
                write_file X fs (upload_path X file0) (App.content file0) = Return fs').
  { intros ->. right. now exists file. }
  destruct (App.decode_qr_code X fs1 (upload_path X file)) as [qr_data error].
  destruct (App.truthy error); [inversion H; now apply G|].
  destruct qr_data as [text|]; [|inversion H; now apply G].
  destruct (startswith text (lit "upi://")); cbn [negb] in H;
    [|inversion H; now apply G].
  destruct (App.parse_upi_string X text) as [upi_params parse_error].
  destruct (App.truthy parse_error); [inversion H; now apply G|].
  destruct upi_params as [upi_params|].
  2:{ destruct (existsb _ (App.form request)); inversion H; now apply G. }
  destruct (App.create_upi_string _) as [new_text|e]; [|inversion H; now apply G].
  unfold App.generate_qr_code, try_except, bindM, get, lift, modify, ret in H.
  destruct (qrcode_image X new_text 10 4) as [img|e].
  - destruct (write_file X fs1 _ img) as [fs2|e].
    + cbn [App.truthy] in H. inversion H; subst. exfalso. eapply Hr. reflexivity.
    + destruct (App.truthy (Some (str_exn e))) eqn:T.
      * inversion H. now apply G.
      * inversion H. now apply G.
  - destruct (App.truthy (Some (str_exn e))) eqn:T.
    + inversion H. now apply G.
    + inversion H. now apply G.
Qed.

Lemma modify_route_failure_writes_no_image_witness :
  [(lit "uploads/in.png", lit "upi://pay?am=100")] = []
  \/ exists file,
       App.file_field surrogate_request = Some file
       /\ write_file toy_externals [] (upload_path toy_externals file)
            (App.content file)
          = Return [(lit "uploads/in.png", lit "upi://pay?am=100")].
Proof.
  apply (modify_route_failure_writes_no_image toy_externals surrogate_request []
           [(lit "uploads/in.png", lit "upi://pay?am=100")]
           (Raise (UnicodeEncodeError
              (lit "'utf-8' codec can't encode character '\ud800' in position 0: surrogates not allowed")))).
  - reflexivity.
  - intros d t i u. discriminate.
Defined.

(* ================================================================= *)
(** ** The two codecs side by side *)


(** X20. The two serializers agree up to empty values: the web serializer
    gives for a record what the handler's serializer gives for the record
    without its fields of empty value, the same text or the same exception. *)
Theorem serializers_agree_without_empty_values : forall (d : dict pystr) st,
  fst (QrHandler.create_upi_string (filter has_value d) st)
  = App.create_upi_string d.
Proof.
  intros d st. unfold QrHandler.create_upi_string, App.create_upi_string, lift.
  cbn [fst]. f_equal.
  induction d as [|[k v] d IH]; [reflexivity|].
  destruct v as [|c v].
  - cbn [filter has_value snd App.query_parts_of]. exact IH.
  - cbn [filter has_value snd App.query_parts_of QrHandler.query_parts_of].
    change App.param_mapping_create with QrHandler.param_mapping_create.
    now rewrite IH.
Qed.

(* ================================================================= *)
(** ** More on the text of a query *)

Lemma find_app_sep : forall c a b,
  contains c a = false -> find c (a ++ c :: b) = Some (List.length a).
Proof.
  intros c a b. induction a as [|x a IH]; simpl.
  - intros _. now rewrite N.eqb_refl.
  - rewrite orb_false_iff. intros [H1 H2].
    rewrite N.eqb_sym, H1, (IH H2). reflexivity.
Qed.

(** [urlparse] on a payment URI with a fragment. *)
Lemma urlparse_pay_fragment : forall nfkc ip q f,
  (forall c, In c [35; 9; 13; 10] -> contains c q = false) ->
  (forall c, In c [9; 13; 10] -> contains c f = false) ->
  Urllib.urlparse nfkc ip (lit "upi://pay?" ++ q ++ 35 :: f) =
  Return (Urllib.mkParse (lit "upi") (lit "pay") [] [] q f).
Proof.
  intros nfkc ip q f Hq Hf.
  assert (R : forall c, In c [9; 13; 10] ->
              contains c (lit "upi://pay?" ++ q ++ 35 :: f) = false).
  { intros c I. rewrite !contains_app. cbn [contains existsb].
    rewrite (Hq c) by (cbn [In] in *; tauto).
    fold (contains c f). rewrite (Hf c I).
    cbn [In] in I. repeat (destruct I as [<-|I]; [reflexivity|]). contradiction. }
  unfold Urllib.urlparse, Urllib.urlsplit.
  change (lstrip Urllib._WHATWG_C0_CONTROL_OR_SPACE (lit "upi://pay?" ++ q ++ 35 :: f))
    with (lit "upi://pay?" ++ q ++ 35 :: f).
  cbn [fold_left Urllib._UNSAFE_URL_BYTES_TO_REMOVE].
  rewrite (remove_char_id 9 (lit "upi://pay?" ++ q ++ 35 :: f))
    by (apply R; cbn [In]; tauto).
  rewrite (remove_char_id 13 (lit "upi://pay?" ++ q ++ 35 :: f))
    by (apply R; cbn [In]; tauto).
  rewrite (remove_char_id 10 (lit "upi://pay?" ++ q ++ 35 :: f))
    by (apply R; cbn [In]; tauto).
  change (find 58 (lit "upi://pay?" ++ q ++ 35 :: f)) with (Some 3%nat).
  change (lit "upi://pay?" ++ q ++ 35 :: f)
    with (117 :: 112 :: 105 :: 58 :: 47 :: 47 :: 112 :: 97 :: 121 :: 63
          :: (q ++ 35 :: f)).
  cbn [firstn skipn].
  change (isascii 117 && (is_upper 117 || is_lower 117)) with true.
  change (forallb Urllib.in_scheme_chars [117; 112; 105]) with true.
  cbv iota beta.
  change (str_eqb [47; 47] (lit "//")) with true. cbv iota.
  unfold Urllib._splitnetloc.
  assert (D : fold_left
                (fun (delim : nat) (c : N) =>
                   match find_from c 2 (47 :: 47 :: 112 :: 97 :: 121 :: 63
                                        :: (q ++ 35 :: f)) with
                   | Some wdelim => Nat.min delim wdelim
                   | None => delim
                   end) (lit "/?#")
                (List.length (47 :: 47 :: 112 :: 97 :: 121 :: 63 :: (q ++ 35 :: f)))
              = 5%nat).
  { unfold find_from.
    cbn [lit List.map list_ascii_of_string N_of_ascii N_of_digits fold_left skipn].
    cbn. destruct (find 47 (q ++ 35 :: f)); destruct (find 35 (q ++ 35 :: f));
      reflexivity. }
  rewrite D. cbn [firstn skipn Nat.sub].
  change (contains 91 [112; 97; 121]) with false.
  change (contains 93 [112; 97; 121]) with false.
  cbn [andb orb negb bind].
  assert (C35 : contains 35 (63 :: q ++ 35 :: f) = true).
  { change (63 :: q ++ 35 :: f) with ((63 :: q) ++ 35 :: f).
    rewrite contains_app. cbn [contains existsb]. rewrite N.eqb_refl.
    now rewrite orb_true_r. }
  rewrite C35.
  change (63 :: q ++ 35 :: f) with ((63 :: q) ++ 35 :: f).
  rewrite split1_app_sep
    by (cbn [contains existsb]; fold (contains 35 q);
        rewrite (Hq 35) by (cbn [In]; tauto); reflexivity).
  assert (C63 : contains 63 (63 :: q) = true) by reflexivity.
  rewrite C63. cbn [split1]. rewrite N.eqb_refl.
  reflexivity.
Qed.

(** X21. What follows a [#] is not parsed. For a query without [#], tab,
    carriage return or line feed, adding [#] and any text (without tab,
    carriage return or line feed) after it changes nothing in what either
    parser returns. *)
Theorem fragment_is_ignored : forall (X : Externals) (query after : pystr),
  (forall c, In c [35; 9; 13; 10] -> contains c query = false) ->
  (forall c, In c [9; 13; 10] -> contains c after = false) ->
  App.parse_upi_string X (lit "upi://pay?" ++ query ++ 35 :: after)
  = App.parse_upi_string X (lit "upi://pay?" ++ query)
  /\ forall st,
       fst (QrHandler.parse_upi_string X
              (lit "upi://pay?" ++ query ++ 35 :: after) st)
       = fst (QrHandler.parse_upi_string X (lit "upi://pay?" ++ query) st).
Proof.
  intros X query after Hq Ha.
  pose proof (urlparse_pay_fragment (normalize_NFKC X) (ip_address X)
                query after Hq Ha) as U1.
  assert (U2 : Urllib.urlparse (normalize_NFKC X) (ip_address X)
                 (lit "upi://pay?" ++ query)
               = Return (Urllib.mkParse (lit "upi") (lit "pay") [] [] query []))
    by (apply urlparse_pay; apply Hq; cbn [In]; tauto).
  assert (S1 : startswith (lit "upi://pay?" ++ query ++ 35 :: after) (lit "upi://")
               = true) by reflexivity.
  assert (S2 : startswith (lit "upi://pay?" ++ query) (lit "upi://") = true)
    by reflexivity.
  split.
  - now rewrite (app_parse_upi X _ _ S1 U1), (app_parse_upi X _ _ S2 U2).
  - intro st.
    destruct (handler_parse_upi X _ st _ S1 U1) as [o1 ->].
    destruct (handler_parse_upi X _ st _ S2 U2) as [o2 ->]. reflexivity.
Qed.

Lemma fragment_is_ignored_witness :
  App.parse_upi_string toy_externals (lit "upi://pay?" ++ lit "am=5" ++ 35 :: lit "&am=9")
  = App.parse_upi_string toy_externals (lit "upi://pay?" ++ lit "am=5").
Proof.
  apply (fragment_is_ignored toy_externals (lit "am=5") (lit "&am=9"));
    intros c I; cbn [In] in I;
    repeat (destruct I as [<-|I]; [reflexivity|]); contradiction.
Defined.

(** X22. A pair whose value is empty, [key=], is dropped without error, as
    a pair with no [=] sign is: the record is the one that the other pairs
    give. *)
Theorem pair_with_empty_value_is_dropped :
  forall (X : Externals) (text : pystr) parsed (before after : list pystr)
         (name : pystr),
  startswith text (lit "upi://") = true ->
  Urllib.urlparse (normalize_NFKC X) (ip_address X) text = Return parsed ->
  split 38 (Urllib.p_query parsed) = before ++ (name ++ [61]) :: after ->
  contains 61 name = false ->
  App.parse_upi_string X text
  = (Some (record_of_fields
             (flat_map (Urllib.parse_qsl_field false) (before ++ after))), None)
  /\ forall st,
       fst (QrHandler.parse_upi_string X text st)
       = Return (record_of_fields
                   (flat_map (Urllib.parse_qsl_field false) (before ++ after))).
Proof.
  intros X text parsed before after name H U S E.
  assert (P : Urllib.parse_qsl_field false (name ++ [61]) = []).
  { unfold Urllib.parse_qsl_field.
    rewrite split1_app_sep by assumption.
    destruct (name ++ [61]); reflexivity. }
  assert (F : Urllib.parse_qsl (Urllib.p_query parsed) false
              = flat_map (Urllib.parse_qsl_field false) (before ++ after)).
  { rewrite parse_qsl_split, S, !flat_map_app. cbn [flat_map]. now rewrite P. }
  split.
  - rewrite (app_parse_upi X text parsed H U), F. reflexivity.
  - intro st. destruct (handler_parse_upi X text st parsed H U) as [out ->].
    cbn [fst]. now rewrite F.
Qed.

Lemma pair_with_empty_value_is_dropped_witness :
  App.parse_upi_string toy_externals (lit "upi://pay?pa=a&am=")
  = (Some [(lit "payee_address", lit "a")], None)
  /\ forall st,
       fst (QrHandler.parse_upi_string toy_externals (lit "upi://pay?pa=a&am=") st)
       = Return [(lit "payee_address", lit "a")].
Proof.
  apply (pair_with_empty_value_is_dropped toy_externals (lit "upi://pay?pa=a&am=")
           (Urllib.mkParse (lit "upi") (lit "pay") [] [] (lit "pa=a&am=") [])
           [lit "pa=a"] [] (lit "am")); reflexivity.
Defined.
